(** * Streaming-provider enrichment and genre rating report

    A shallow embedding of [pandas_ej.py] and [sync_fight_club.py]:
    the sentinel coercions, the provider normaliser, the provider
    payload written back to the catalogue, the single-title lookup
    and the genre aggregation.

    Conventions of the embedding.
    - Python values coming from the store or from the metadata API are
      the JSON-like values [pyval]; a Python [str] is a [string] whose
      characters are the code points below 256. The two sentinel
      coercions take any object: a JSON-like value or a [foreign]
      one.
    - Python calls that may raise return a [result]; [try_except]
      is [try: ... except Exception: ...]. [str] is among them: it
      refuses an integer beyond the limit of digits.
    - What the source takes from its libraries without fixing it
      (the text of [repr] for floats and containers and the encoder
      of JSON, with the exceptions that they raise, the arithmetic
      of doubles, the comparisons of a foreign object, the mean and
      the rounding of pandas) is a [Variable] of the section. *)

From Stdlib Require Import ZArith List String Ascii Bool Lia.
From Stdlib Require Import Sorted Permutation DecimalString QArith.
Import ListNotations.

Set Warnings "-notation-for-abbreviation".

Local Open Scope string_scope.
Local Open Scope list_scope.
Local Open Scope Z_scope.

(* ================================================================= *)
(** ** Exceptions *)

Inductive exn : Type :=
| TypeError
| ValueError
| OverflowError
| AttributeError
| KeyError
| RecursionError
| WriteError.

Inductive result (A : Type) : Type :=
| Ok (a : A)
| Raise (e : exn).

Arguments Ok {A} a.
Arguments Raise {A} e.

Definition bind {A B : Type} (m : result A) (k : A -> result B) : result B :=
  match m with
  | Ok a => k a
  | Raise e => Raise e
  end.

Notation "x <- m ;; k" := (bind m (fun x => k))
  (at level 61, m at next level, right associativity).

(** [try: body  except Exception: handler]; every [exn] above is a
    subclass of [Exception]. *)
Definition try_except {A : Type} (body : result A) (handler : exn -> result A)
  : result A :=
  match body with
  | Ok a => Ok a
  | Raise e => handler e
  end.

(** A [for] loop threading an accumulator; the first exception leaves
    the loop. *)
Fixpoint for_each {A S : Type} (xs : list A) (body : A -> S -> result S) (s : S)
  : result S :=
  match xs with
  | [] => Ok s
  | x :: xs' => s' <- body x s ;; for_each xs' body s'
  end.

(* ================================================================= *)
(** ** Strings *)

Definition code (c : ascii) : N := N_of_ascii c.

Definition newline : ascii := "010"%char.
Definition backslash : ascii := "092"%char.

(** [str.isspace] on the code points below 256. *)
Definition is_space (c : ascii) : bool :=
  let n := code c in
  (((9 <=? n) && (n <=? 13)) || ((28 <=? n) && (n <=? 32))
   || (n =? 133) || (n =? 160))%N.

(** The C locale's [isspace], used by [int()] on an ASCII string. *)
Definition is_ascii_space (c : ascii) : bool :=
  let n := code c in
  (((9 <=? n) && (n <=? 13)) || (n =? 32))%N.

Definition is_digit (c : ascii) : bool :=
  let n := code c in ((48 <=? n) && (n <=? 57))%N.

Definition is_alpha (c : ascii) : bool :=
  let n := code c in
  (((65 <=? n) && (n <=? 90)) || ((97 <=? n) && (n <=? 122)))%N.

Definition is_alnum (c : ascii) : bool := is_alpha c || is_digit c.

Definition is_empty (s : string) : bool :=
  match s with
  | EmptyString => true
  | String _ _ => false
  end.

Fixpoint lstrip_by (sp : ascii -> bool) (s : string) : string :=
  match s with
  | EmptyString => EmptyString
  | String c r => if sp c then lstrip_by sp r else s
  end.

Fixpoint rstrip_by (sp : ascii -> bool) (s : string) : string :=
  match s with
  | EmptyString => EmptyString
  | String c r =>
      let r' := rstrip_by sp r in
      if sp c && is_empty r' then EmptyString else String c r'
  end.

(** [s.strip()] *)
Definition str_strip (s : string) : string :=
  rstrip_by is_space (lstrip_by is_space s).

(** [s.split(sep)] for a one-character separator: always at least one
    piece. *)
Fixpoint str_split (sep : ascii) (s : string) : list string :=
  match s with
  | EmptyString => [EmptyString]
  | String c r =>
      if Ascii.eqb c sep then EmptyString :: str_split sep r
      else match str_split sep r with
           | [] => [String c EmptyString]
           | p :: ps => String c p :: ps
           end
  end.

(** Order of [str] values: lexicographic on code points. *)
Definition str_leb (a b : string) : bool := String.leb a b.
Definition str_ltb (a b : string) : bool := String.ltb a b.

(* ================================================================= *)
(** ** Lists: [sorted] and [dict.fromkeys] *)

Section Sorting.
Context {A : Type} (leb : A -> A -> bool).

(** Stable insertion: [x], which came first, is put before the
    first element it is [<=] to, so equal keys keep their order. *)
Fixpoint insert_sorted (x : A) (l : list A) : list A :=
  match l with
  | [] => [x]
  | y :: l' => if leb x y then x :: l else y :: insert_sorted x l'
  end.

(** A stable sort, as [sorted] and [DataFrame.sort_values] are. *)
Definition sort_by (l : list A) : list A :=
  fold_right insert_sorted [] l.
End Sorting.

(** [list(dict.fromkeys(l))]: the first occurrence of each key, in
    order. *)
Fixpoint fromkeys_seen (seen l : list string) : list string :=
  match l with
  | [] => []
  | x :: l' =>
      if existsb (String.eqb x) seen then fromkeys_seen seen l'
      else x :: fromkeys_seen (x :: seen) l'
  end.

Definition fromkeys (l : list string) : list string := fromkeys_seen [] l.

(** [sorted(l)] on a list of [str]. *)
Definition sorted (l : list string) : list string := sort_by str_leb l.

(* ================================================================= *)
(** ** Fields of a projected record *)

(** A key of a record fetched from the store is missing, null, or
    has a value. *)
Inductive cell (A : Type) : Type :=
| Missing
| Null
| Val (a : A).

Arguments Missing {A}.
Arguments Null {A}.
Arguments Val {A} a.

(* ================================================================= *)
(** ** Numbers for the examples

    The development is parametric in the doubles. The examples read
    a rating as a rational, with the exact mean and rounding to two
    decimals, half to even; their Python values hold no double. *)

Definition Q_leb (x y : Q) : bool := Qle_bool x y.

Definition Q_sum (l : list Q) : Q := fold_right Qplus 0%Q l.

Definition Q_mean (l : list Q) : Q :=
  Qred (Q_sum l / inject_Z (Z.of_nat (List.length l))).

Definition round_half_even (q : Q) : Z :=
  let n := Qnum q in
  let d := Zpos (Qden q) in
  let f := n / d in
  let r2 := 2 * (n mod d) in
  if r2 <? d then f
  else if d <? r2 then f + 1
  else if Z.even f then f else f + 1.

Definition Q_round2 (q : Q) : Q :=
  Qred (round_half_even (q * 100) # 100).

Definition no_float : Type := Empty_set.
Definition no_float_bool (f : no_float) : bool := match f with end.
Definition no_float_str (f : no_float) : string := match f with end.
Definition no_float_int (f : no_float) : result Z := match f with end.
Definition no_float_eq_int (f : no_float) (z : Z) : bool := match f with end.
Definition no_float_eqb (f g : no_float) : bool := match f with end.

(** The foreign object of the examples is pandas' [NA]: it is not
    equal to [None], its comparison with a string gives [NA] again,
    which has no truth value, and [int] does not take it. *)
Inductive na : Type := NA.

Definition na_eq (o : na) (c : option string) : result bool :=
  match c with
  | None => Ok false
  | Some _ => Raise TypeError
  end.

Definition na_int (o : na) : result Z := Raise TypeError.

(* ================================================================= *)
(** ** Python values *)

Section Program.

(** Doubles: the type and what the source asks of it. *)
Variable float : Type.
(** [bool(x)], that is [x != 0.0] *)
Variable float_truthy : float -> bool.
(** [repr(x)] *)
Variable float_repr : float -> string.
(** [int(x)]: truncation; [ValueError] on a NaN, [OverflowError] on
    an infinity *)
Variable float_int : float -> result Z.
(** numeric equality of a double and an integer, and of two doubles *)
Variable float_eq_int : float -> Z -> bool.
Variable float_eqb : float -> float -> bool.

#[warnings="-register-all"]
Inductive pyval : Type :=
| PNone
| PBool (b : bool)
| PInt (z : Z)
| PFloat (f : float)
| PStr (s : string)
| PList (l : list pyval)
| PDict (d : list (string * pyval)).

(** [repr] of a list or of a dict: the text, or the exception that
    ends the walk through the value, [RecursionError] when it is
    nested too deep, [ValueError] when it holds an integer that the
    limit below refuses. *)
Variable container_repr : pyval -> result string.

(** [sys.get_int_max_str_digits()]; 0 turns the limit off *)
Variable int_max_str_digits : nat.

(** The region code of the configuration, already upper-cased *)
Variable TMDB_REGION : string.

Definition isinstance_str (v : pyval) : bool :=
  match v with PStr _ => true | _ => false end.

Definition isinstance_list (v : pyval) : bool :=
  match v with PList _ => true | _ => false end.

Definition isinstance_dict (v : pyval) : bool :=
  match v with PDict _ => true | _ => false end.

Definition is_none (v : pyval) : bool :=
  match v with PNone => true | _ => false end.

(** [bool(v)] *)
Definition truthy (v : pyval) : bool :=
  match v with
  | PNone => false
  | PBool b => b
  | PInt z => negb (z =? 0)
  | PFloat f => float_truthy f
  | PStr s => negb (is_empty s)
  | PList l => match l with [] => false | _ => true end
  | PDict d => match d with [] => false | _ => true end
  end.

(** [a or b] *)
Definition py_or (a b : pyval) : pyval := if truthy a then a else b.

Definition str_of_Z (z : Z) : string := NilZero.string_of_int (Z.to_int z).

(** [str(z)] for an integer: a text of more than 640 characters is
    refused with [ValueError] when it has more digits than the
    limit. *)
Definition int_str (z : Z) : result string :=
  let s := str_of_Z z in
  let digits := match s with
                | String "-" r => r
                | _ => s
                end in
  if (Nat.ltb 640 (String.length s) && Nat.ltb 0 int_max_str_digits
      && Nat.ltb int_max_str_digits (String.length digits))%bool
  then Raise ValueError
  else Ok s.

(** [str(v)] *)
Definition py_str (v : pyval) : result string :=
  match v with
  | PStr s => Ok s
  | PNone => Ok "None"
  | PBool true => Ok "True"
  | PBool false => Ok "False"
  | PInt z => int_str z
  | PFloat f => Ok (float_repr f)
  | PList _ | PDict _ => container_repr v
  end.

Fixpoint assoc (k : string) (d : list (string * pyval)) : option pyval :=
  match d with
  | [] => None
  | (k', v) :: d' => if String.eqb k k' then Some v else assoc k d'
  end.

(** [v.get(k, default)]: only a dict has the method. *)
Definition py_get (v : pyval) (k : string) (default : pyval) : result pyval :=
  match v with
  | PDict d => Ok (match assoc k d with Some x => x | None => default end)
  | _ => Raise AttributeError
  end.

(** [v.strip()]: only a str has the method. *)
Definition py_strip (v : pyval) : result string :=
  match v with
  | PStr s => Ok (str_strip s)
  | _ => Raise AttributeError
  end.

Fixpoint chars (s : string) : list pyval :=
  match s with
  | EmptyString => []
  | String c r => PStr (String c EmptyString) :: chars r
  end.

(** [iter(v)]: the elements of a list, the characters of a str, the
    keys of a dict; other values are not iterable. *)
Definition py_iter (v : pyval) : result (list pyval) :=
  match v with
  | PList l => Ok l
  | PStr s => Ok (chars s)
  | PDict d => Ok (map (fun kv => PStr (fst kv)) d)
  | _ => Raise TypeError
  end.

(* =============================================================== *)
(** ** [pandas_ej.py]: [providers_to_list] *)

(** The body of the loops at lines 35-41 and 50-56 (the same text
    twice in the source). *)
Definition append_provider (x : pyval) (names : list string)
  : result (list string) :=
  if isinstance_str x then
    s <- py_strip x ;; Ok (names ++ [s])
  else if isinstance_dict x then
    a <- py_get x "provider_name" PNone ;;
    name <- (if truthy a then Ok a else py_get x "name" PNone) ;;
    if truthy name then s <- py_str name ;; Ok (names ++ [str_strip s])
    else Ok names
  else Ok names.

(** [sorted(list(dict.fromkeys([n for n in names if n])))] *)
Definition unique_sorted (names : list string) : list string :=
  sorted (fromkeys (filter (fun n => negb (is_empty n)) names)).

Definition offer_kinds : list string := ["flatrate"; "rent"; "buy"].

Definition append_kind (pregion : pyval) (kind : string) (names : list string)
  : result (list string) :=
  a <- py_get pregion kind PNone ;;
  let arr := py_or a (PList []) in
  if isinstance_list arr then
    xs <- py_iter arr ;; for_each xs append_provider names
  else Ok names.

Definition providers_to_list (pregion : pyval) : result pyval :=
  if is_none pregion then Ok (PList [])
  else if isinstance_list pregion then
    xs <- py_iter pregion ;;
    names <- for_each xs append_provider [] ;;
    Ok (PList (map PStr (unique_sorted names)))
  else if isinstance_dict pregion then
    names <- for_each offer_kinds (append_kind pregion) [] ;;
    Ok (PList (map PStr (unique_sorted names)))
  else Ok (PList []).

(** *** What the normaliser computes, as functions

    The value that the loop body converts with [str] for one element,
    the names that it appends for it, and the names pooled from a
    whole input before the final expression. The properties of
    [providers_to_list] are stated against them. *)

(** The truthy [provider_name], or else the truthy [name], of an
    element that is a dict. *)
Definition converted (x : pyval) : option pyval :=
  match x with
  | PDict d =>
      let a := match assoc "provider_name" d with
               | Some v => v
               | None => PNone
               end in
      let name := if truthy a then a
                  else match assoc "name" d with
                       | Some v => v
                       | None => PNone
                       end in
      if truthy name then Some name else None
  | _ => None
  end.

(** [str] returns on the value. *)
Definition convertible (v : pyval) : bool :=
  match py_str v with
  | Ok _ => true
  | Raise _ => false
  end.

Definition provider_name (x : pyval) : result (list string) :=
  match x with
  | PStr s => Ok [str_strip s]
  | _ =>
      match converted x with
      | Some name => s <- py_str name ;; Ok [str_strip s]
      | None => Ok []
      end
  end.

(** The names of the elements of a list, in order; the first
    conversion that raises ends the walk. *)
Fixpoint names_of (xs : list pyval) : result (list string) :=
  match xs with
  | [] => Ok []
  | x :: xs' => a <- provider_name x ;; b <- names_of xs' ;; Ok (a ++ b)
  end.

Definition kind_entries (d : list (string * pyval)) (kind : string)
  : list pyval :=
  match assoc kind d with
  | Some (PList xs) => xs
  | _ => []
  end.

(** The elements that the function walks through: those of a list,
    and for a dict those of its flatrate, rent and buy lists, one
    kind after the other. *)
Definition offered (pregion : pyval) : list pyval :=
  match pregion with
  | PList xs => xs
  | PDict d => flat_map (kind_entries d) offer_kinds
  | _ => []
  end.

Definition pooled_names (pregion : pyval) : result (list string) :=
  names_of (offered pregion).

(** A name is trimmed when stripping leaves it as it is; it is blank
    when it is made of white space only. *)
Definition trimmed (s : string) : Prop := str_strip s = s.

Fixpoint blank (s : string) : bool :=
  match s with
  | EmptyString => true
  | String c r => is_space c && blank r
  end.

(** Ascending, with no two equal names. *)
Definition strictly_ascending (l : list string) : Prop :=
  StronglySorted (fun a b => str_ltb a b = true) l.

(* =============================================================== *)
(** ** Sentinel coercion: [coerce_year] and [to_int_or_none] *)

(** The tuple of the membership test: [None], the empty string and
    the two characters [\N]. *)
Definition sentinels : list (option string) :=
  [None; Some EmptyString; Some "\N"].

(** [v == c] for a constant [c] of the tuple *)
Definition eq_sentinel (v : pyval) (c : option string) : bool :=
  match c, v with
  | None, PNone => true
  | Some t, PStr s => String.eqb s t
  | _, _ => false
  end.

(** The two functions take any Python object. An object that is not
    one of the JSON-like values (pandas' [NA], an array) is a
    [foreign] one; the functions compare it with the constants of the
    tuple and hand it to [int]. *)
Variable foreign : Type.
(** [bool(c == o)] for a constant [c] of the tuple: the comparison
    may raise, and so may the truth value of what it returns *)
Variable foreign_eq : foreign -> option string -> result bool.
(** [int(o)] *)
Variable foreign_int : foreign -> result Z.

Inductive pyobj : Type :=
| Plain (v : pyval)
| Foreign (o : foreign).

Definition eq_item (x : pyobj) (c : option string) : result bool :=
  match x with
  | Plain v => Ok (eq_sentinel v c)
  | Foreign o => foreign_eq o c
  end.

(** [x in] that tuple: the constants are compared in turn, up to the
    first that is equal; an exception of a comparison leaves the
    test. *)
Fixpoint py_in (x : pyobj) (items : list (option string)) : result bool :=
  match items with
  | [] => Ok false
  | c :: rest => b <- eq_item x c ;; if b then Ok true else py_in x rest
  end.

(** White space for [int()]. The text is first brought to ASCII:
    a character from 127 on becomes a blank when it is white space
    and an invalid character otherwise, the others stay as they are;
    the C locale's [isspace] is then applied. So the separators 28 to
    31, which [str.strip] removes, are not white space here. *)
Definition is_int_space (c : ascii) : bool :=
  is_ascii_space c || ((127 <=? code c)%N && is_space c).

Definition digit_val (c : ascii) : Z := Z.of_N (code c) - 48.

(** Decimal digits with single underscores between them.
    [after_digit] says that the previous character was a digit;
    the result carries the number of digits read. *)
Fixpoint digits_value (s : string) (after_digit : bool) (acc : Z) (n : nat)
  : option (Z * nat) :=
  match s with
  | EmptyString => if after_digit then Some (acc, n) else None
  | String c r =>
      if is_digit c then digits_value r true (10 * acc + digit_val c) (S n)
      else if Ascii.eqb c "_" then
        if after_digit then digits_value r false acc n else None
      else None
  end.

(** [int(s)] for a str: surrounding white space, an optional sign,
    the digits; [None] is [ValueError]. The limit on the number of
    digits is looked at beyond 640 digits only. *)
Definition int_of_str (s : string) : option Z :=
  let body := rstrip_by is_int_space (lstrip_by is_int_space s) in
  let '(neg, ds) :=
    match body with
    | String "-" r => (true, r)
    | String "+" r => (false, r)
    | _ => (false, body)
    end in
  match digits_value ds false 0 0 with
  | Some (z, n) =>
      if (Nat.ltb 640 n && Nat.ltb 0 int_max_str_digits
          && Nat.ltb int_max_str_digits n)%bool
      then None
      else Some (if neg then - z else z)
  | None => None
  end.

(** [int(v)] *)
Definition py_int (v : pyval) : result Z :=
  match v with
  | PNone => Raise TypeError
  | PBool b => Ok (if b then 1 else 0)
  | PInt z => Ok z
  | PFloat f => float_int f
  | PStr s => match int_of_str s with
              | Some z => Ok z
              | None => Raise ValueError
              end
  | PList _ | PDict _ => Raise TypeError
  end.

(** [int(x)] for any object *)
Definition int_of (x : pyobj) : result Z :=
  match x with
  | Plain v => py_int v
  | Foreign o => foreign_int o
  end.

(** [pandas_ej.py], lines 63-69: the membership test is before the
    [try] block. *)
Definition coerce_year (v : pyobj) : result pyval :=
  b <- py_in v sentinels ;;
  if b then Ok PNone
  else try_except (z <- int_of v ;; Ok (PInt z)) (fun _ => Ok PNone).

(** [sync_fight_club.py], lines 29-35: the membership test is inside
    the [try] block. *)
Definition to_int_or_none (v : pyobj) : result pyval :=
  try_except
    (b <- py_in v sentinels ;;
     if b then Ok PNone else z <- int_of v ;; Ok (PInt z))
    (fun _ => Ok PNone).

(* =============================================================== *)
(** ** [sync_fight_club.py]: the provider payload *)

(** The filter and the element of the comprehension at line 67; the
    source calls [x.get("provider_name")] once in the condition and
    once for the element. *)
Definition append_provider_name (x : pyval) (acc : list pyval)
  : result (list pyval) :=
  if isinstance_dict x then
    a <- py_get x "provider_name" PNone ;;
    if truthy a then
      b <- py_get x "provider_name" PNone ;; Ok (acc ++ [b])
    else Ok acc
  else Ok acc.

(** The inner function [names(kind)], lines 66-67 *)
Definition names (p : pyval) (kind : string) : result (list pyval) :=
  arr <- py_get p kind (PList []) ;;
  xs <- py_iter arr ;;
  for_each xs append_provider_name [].

(** Lines 64-74 *)
Definition format_providers_entry (p : pyval) : result pyval :=
  link <- py_get p "link" PNone ;;
  fl <- names p "flatrate" ;;
  re <- names p "rent" ;;
  bu <- names p "buy" ;;
  Ok (PDict [("region", PStr TMDB_REGION); ("link", link);
             ("flatrate", PList fl); ("rent", PList re); ("buy", PList bu)]).

(** *** What the payload holds, as functions *)

(** The value that the comprehension keeps for one element, if any. *)
Definition listed_name (x : pyval) : list pyval :=
  match x with
  | PDict d =>
      match assoc "provider_name" d with
      | Some a => if truthy a then [a] else []
      | None => []
      end
  | _ => []
  end.

(** The elements that [names(kind)] walks through. *)
Definition entries_of (p : pyval) (kind : string) : list pyval :=
  match py_get p kind (PList []) with
  | Ok arr => match py_iter arr with
              | Ok xs => xs
              | Raise _ => []
              end
  | Raise _ => []
  end.

(** The canonical form of the specification: each of the three kind
    lists is a list of names, ascending and without repetition. *)
Definition canonical_offer_set (entry : pyval) : Prop :=
  forall kind : string,
    In kind offer_kinds ->
    exists ns : list string,
      match entry with
      | PDict d => assoc kind d
      | _ => None
      end = Some (PList (map PStr ns))
      /\ strictly_ascending ns.

(** An answer of the metadata API for one region, and a catalogue
    with one movie. *)
Definition api_provider (id : Z) (name : string) : pyval :=
  PDict [("provider_id", PInt id); ("provider_name", PStr name)].

Definition api_offers_example : pyval :=
  PDict [("link", PStr "https://www.themoviedb.org/movie/550/watch");
         ("flatrate", PList [api_provider 8 "Netflix";
                             api_provider 350 "Apple TV";
                             api_provider 8 "Netflix"]);
         ("rent", PList [api_provider 2 "Apple TV"])].

(** The payload that [format_providers_entry] builds from it. *)
Definition stored_offers_example : pyval :=
  PDict [("region", PStr TMDB_REGION);
         ("link", PStr "https://www.themoviedb.org/movie/550/watch");
         ("flatrate", PList [PStr "Netflix"; PStr "Apple TV"; PStr "Netflix"]);
         ("rent", PList [PStr "Apple TV"]);
         ("buy", PList [])].

Definition movie_doc (id : Z) (title : string) (year : Z) : pyval :=
  PDict [("_id", PInt id); ("titleType", PStr "movie");
         ("primaryTitle", PStr title); ("startYear", PInt year)].

Definition catalogue_example : list pyval :=
  [movie_doc 1 "Fight Club" 1999].

(* =============================================================== *)
(** ** The document store

    A collection is the list of its documents in natural order. The
    store is a collaborator of the program: what follows is the part
    of its behaviour that the two scripts rely on. Identifiers and
    query constants are scalars; paths do not index into arrays. *)

Definition collection : Type := list pyval.

Definition field (k : string) (doc : pyval) : option pyval :=
  match doc with
  | PDict d => assoc k d
  | _ => None
  end.

Fixpoint get_path (path : list string) (doc : pyval) : option pyval :=
  match path with
  | [] => Some doc
  | k :: rest =>
      match field k doc with
      | Some child => get_path rest child
      | None => None
      end
  end.

Definition dotted (s : string) : list string := str_split "." s.

Fixpoint replace_key (k : string) (v : pyval) (d : list (string * pyval))
  : list (string * pyval) :=
  match d with
  | [] => []
  | (k', v') :: d' =>
      if String.eqb k k' then (k', v) :: d' else (k', v') :: replace_key k v d'
  end.

(** [$set] of one path: embedded documents are created on the way; a
    value on the way that is not a document refuses the write, and so
    does an empty field name. *)
Fixpoint set_path (path : list string) (v : pyval) (doc : pyval)
  : result pyval :=
  match path with
  | [] => Ok v
  | k :: rest =>
      if is_empty k then Raise WriteError
      else match doc with
           | PDict d =>
               match assoc k d with
               | Some child =>
                   c <- set_path rest v child ;; Ok (PDict (replace_key k c d))
               | None =>
                   c <- set_path rest v (PDict []) ;; Ok (PDict (d ++ [(k, c)]))
               end
           | _ => Raise WriteError
           end
  end.

Definition scalar_eqb (a b : pyval) : bool :=
  match a, b with
  | PNone, PNone => true
  | PBool x, PBool y => Bool.eqb x y
  | PInt x, PInt y => x =? y
  | PInt x, PFloat f | PFloat f, PInt x => float_eq_int f x
  | PFloat f, PFloat g => float_eqb f g
  | PStr s, PStr t => String.eqb s t
  | _, _ => false
  end.

(** The query [{k: q}] for a scalar [q]: the field equals [q], or is
    an array with an element equal to [q]. *)
Definition mongo_eq (stored : option pyval) (q : pyval) : bool :=
  match stored with
  | Some (PList l) => existsb (fun e => scalar_eqb e q) l
  | Some v => scalar_eqb v q
  | None => false
  end.

(** [update_one]: the first document selected is rewritten. *)
Fixpoint update_one (sel : pyval -> bool) (upd : pyval -> result pyval)
  (c : collection) : result collection :=
  match c with
  | [] => Ok []
  | d :: c' =>
      if sel d then d' <- upd d ;; Ok (d' :: c')
      else c'' <- update_one sel upd c' ;; Ok (d :: c'')
  end.

(** [update_many]: every document selected is rewritten. *)
Fixpoint update_many (sel : pyval -> bool) (upd : pyval -> result pyval)
  (c : collection) : result collection :=
  match c with
  | [] => Ok []
  | d :: c' =>
      d' <- (if sel d then upd d else Ok d) ;;
      c'' <- update_many sel upd c' ;; Ok (d' :: c'')
  end.

Definition providers_path : list string :=
  dotted ("tmdb.providers." ++ TMDB_REGION).

(** Lines 76-85 *)
Definition update_movie_with_tmdb (c : collection) (mongo_id : pyval)
  (tmdb_id : Z) (providers : pyval) : result collection :=
  update_one
    (fun d => mongo_eq (field "_id" d) mongo_id)
    (fun d =>
       d1 <- set_path (dotted "tmdb.id") (PInt tmdb_id) d ;;
       set_path providers_path providers d1)
    c.

(** Lines 87-91 *)
Definition update_by_tmdb_id (c : collection) (tmdb_id : Z)
  (providers : pyval) : result collection :=
  update_many
    (fun d => mongo_eq (get_path (dotted "tmdb.id") d) (PInt tmdb_id))
    (fun d => set_path providers_path providers d)
    c.

(* =============================================================== *)
(** ** The title lookup

    The pattern language of the store, as far as it is modelled: a
    pattern anchored by [^], made of literal characters, escaped
    characters and [.], each with an optional [?], [*] or [+], and
    an optional closing [$]. [compile] gives [None] outside of this
    fragment. *)

Inductive atom : Type :=
| Lit (c : ascii)
| AnyChar.

Inductive quant : Type := One | Opt | Star | Plus.

Inductive token : Type :=
| TAtom (a : atom)
| TQuant (q : quant)
| TDollar
| TBad.

Definition token_of (c : ascii) : token :=
  if Ascii.eqb c "." then TAtom AnyChar
  else if Ascii.eqb c "*" then TQuant Star
  else if Ascii.eqb c "+" then TQuant Plus
  else if Ascii.eqb c "?" then TQuant Opt
  else if Ascii.eqb c "$" then TDollar
  else if existsb (Ascii.eqb c) (list_ascii_of_string "^()[]{}|") then TBad
  else TAtom (Lit c).

Fixpoint tokens (p : string) : list token :=
  match p with
  | EmptyString => []
  | String c r =>
      if Ascii.eqb c backslash then
        match r with
        | String e r' =>
            (if is_alnum e then TBad else TAtom (Lit e)) :: tokens r'
        | EmptyString => [TBad]
        end
      else token_of c :: tokens r
  end.

Fixpoint parse_items (ts : list token) : option (list (atom * quant) * bool) :=
  match ts with
  | [] => Some ([], false)
  | TDollar :: [] => Some ([], true)
  | TAtom a :: TQuant q :: rest =>
      match rest with
      | TQuant _ :: _ => None
      | _ =>
          match parse_items rest with
          | Some (items, e) => Some ((a, q) :: items, e)
          | None => None
          end
      end
  | TAtom a :: rest =>
      match parse_items rest with
      | Some (items, e) => Some ((a, One) :: items, e)
      | None => None
      end
  | _ => None
  end.

Definition compile (pattern : string) : option (list (atom * quant) * bool) :=
  match pattern with
  | String "^" r => parse_items (tokens r)
  | _ => None
  end.

(** Option [i]: letters compare without case. On the code points
    below 256 the capitals are those of ASCII and those of Latin-1,
    192 to 222 without the multiplication sign 215, each 32 below its
    small letter; the other case of the micro sign, of the sharp s
    and of the y with diaeresis is not among these code points. *)
Definition fold_case (c : ascii) : ascii :=
  let n := code c in
  if (((65 <=? n) && (n <=? 90))
      || ((192 <=? n) && (n <=? 222) && negb (n =? 215)))%N
  then ascii_of_N (n + 32) else c.

Definition atom_ok (a : atom) (c : ascii) : bool :=
  match a with
  | Lit l => Ascii.eqb (fold_case l) (fold_case c)
  | AnyChar => negb (Ascii.eqb c newline)
  end.

(** [$]: the end of the subject, or just before its final newline. *)
Definition at_end (s : string) : bool :=
  match s with
  | EmptyString => true
  | String c EmptyString => Ascii.eqb c newline
  | _ => false
  end.

Fixpoint match_items (items : list (atom * quant)) (e : bool) (s : string)
  : bool :=
  match items with
  | [] => if e then at_end s else true
  | (a, q) :: rest =>
      let one (k : string -> bool) (s : string) :=
        match s with
        | String c s' => atom_ok a c && k s'
        | EmptyString => false
        end in
      let many :=
        fix many (s : string) : bool :=
          match_items rest e s
          || match s with
             | String c s' => atom_ok a c && many s'
             | EmptyString => false
             end in
      match q with
      | One => one (match_items rest e) s
      | Opt => match_items rest e s || one (match_items rest e) s
      | Star => many s
      | Plus => one many s
      end
  end.

(** [{k: {"$regex": ..., "$options": "i"}}] *)
Definition mongo_regex (stored : option pyval) (re : list (atom * quant) * bool)
  : bool :=
  let ok v := match v with
              | PStr s => match_items (fst re) (snd re) s
              | _ => false
              end in
  match stored with
  | Some (PList l) => existsb ok l
  | Some v => ok v
  | None => false
  end.

(** The query of both lookups, given the compiled pattern. *)
Definition title_query (re : list (atom * quant) * bool) (year : Z)
  (doc : pyval) : bool :=
  mongo_eq (field "titleType" doc) (PStr "movie")
  && mongo_regex (field "primaryTitle" doc) re
  && mongo_eq (field "startYear" doc) (PInt year).

(** [re.escape] *)
Definition re_special : list ascii :=
  list_ascii_of_string "()[]{}?*+-|^$\.&~# "
  ++ ["009"; "010"; "013"; "011"; "012"]%char.

Fixpoint re_escape (s : string) : string :=
  match s with
  | EmptyString => EmptyString
  | String c r =>
      if existsb (Ascii.eqb c) re_special
      then String backslash (String c (re_escape r))
      else String c (re_escape r)
  end.

(** [sync_fight_club.py], lines 37-44. The outer [None] is a pattern
    outside of the modelled fragment; [Some None] is Python's [None]. *)
Definition find_film (c : collection) (title : string) (year : Z)
  : option (option pyval) :=
  match compile ("^" ++ re_escape title ++ "$") with
  | Some re => Some (find (title_query re year) c)
  | None => None
  end.

(** [pandas_ej.py], lines 76-80: the lookup of [show_fight_club_row] *)
Definition show_fight_club_row_find (col_titles : collection) (title : string)
  (year : Z) : option (option pyval) :=
  match compile ("^" ++ title ++ "$") with
  | Some re => Some (find (title_query re year) col_titles)
  | None => None
  end.

(** *** What an exact lookup would be

    A title read without case, and the pattern that has one literal
    for each of its characters. *)

Fixpoint fold_str (s : string) : string :=
  match s with
  | EmptyString => EmptyString
  | String c r => String (fold_case c) (fold_str r)
  end.

Fixpoint literal_items (s : string) : list (atom * quant) :=
  match s with
  | EmptyString => []
  | String c r => (Lit c, One) :: literal_items r
  end.

(** The stored title equals the given one, case apart, or is the
    given one followed by one newline. *)
Definition same_title (title stored : string) : bool :=
  String.eqb (fold_str stored) (fold_str title)
  || String.eqb (fold_str stored)
                (fold_str title ++ String newline EmptyString).

(** A title without a character that the pattern language reads
    in a special way. *)
Definition plain_char (c : ascii) : bool :=
  negb (Ascii.eqb c backslash)
  && match token_of c with
     | TAtom (Lit _) => true
     | _ => false
     end.

Fixpoint plain_title (s : string) : bool :=
  match s with
  | EmptyString => true
  | String c r => plain_char c && plain_title r
  end.

(** [pandas_ej.py], lines 86-93: the rating of a document.
    [col_ratings] is the outcome of reading the rating collection. *)
Definition show_fight_club_row_rating (col_ratings : result collection)
  (doc : pyval) : result pyval :=
  try_except
    (rs <- col_ratings ;;
     tconst <- py_get doc "tconst" PNone ;;
     if match rs with [] => false | _ :: _ => true end && truthy tconst then
       match find (fun d => mongo_eq (field "tconst" d) tconst) rs with
       | Some r =>
           Ok (match field "averageRating" r with
               | Some v => v
               | None => PNone
               end)
       | None => Ok PNone
       end
     else Ok PNone)
    (fun _ => Ok PNone).

(** [pandas_ej.py], lines 96-98: the providers shown for a document *)
Definition show_fight_club_row_providers (doc : pyval) (region : string)
  : result pyval :=
  tmdb <- py_get doc "tmdb" (PDict []) ;;
  ps <- py_get tmdb "providers" PNone ;;
  pregion <- py_get (py_or ps (PDict [])) region PNone ;;
  providers_to_list pregion.

(** The row of the summary, lines 100-106 *)
Record summary : Type := {
  row_primaryTitle : pyval;
  row_startYear : pyval;
  row_genres : pyval;
  row_avgRating : pyval;
  row_streamingProviders : pyval
}.

(** [pandas_ej.py], lines 74-110. [Some (Ok None)] is the message
    that the title was not found; the outer [None] is a pattern
    outside of the modelled fragment. *)
Definition show_fight_club_row (col_titles : collection)
  (col_ratings : result collection) (title : string) (year : Z)
  (region : string) : option (result (option summary)) :=
  match show_fight_club_row_find col_titles title year with
  | None => None
  | Some None => Some (Ok None)
  | Some (Some doc) =>
      Some (rating <- show_fight_club_row_rating col_ratings doc ;;
            providers <- show_fight_club_row_providers doc region ;;
            primary <- py_get doc "primaryTitle" PNone ;;
            raw_year <- py_get doc "startYear" PNone ;;
            start <- coerce_year (Plain raw_year) ;;
            genres <- py_get doc "genres" PNone ;;
            Ok (Some {| row_primaryTitle := primary;
                        row_startYear := start;
                        row_genres := genres;
                        row_avgRating := rating;
                        row_streamingProviders := providers |}))
  end.

(* =============================================================== *)
(** ** [pandas_ej.py]: [avg_rating_by_genre_last5]

    The input is what the two [find] calls return: the movies of the
    window, projected on [tconst], [startYear], [genres], and the
    rating records, projected on [tconst], [averageRating]. A
    projected field is missing, null, or a value of the type the
    catalogue gives it: [tconst] and [genres] are strings, a rating
    is a number of the type [rating] (a double that is not a NaN),
    and [startYear], which the query compares, is always there. *)

(** Numbers of the rating column, with the order of doubles, the
    mean of a group and [round(2)] as pandas computes them. *)
Variable rating : Type.
Variable rating_leb : rating -> rating -> bool.
Variable rating_mean : list rating -> rating.
Variable rating_round2 : rating -> rating.

Record title_doc : Type := {
  t_tconst : cell string;
  t_startYear : pyval;
  t_genres : cell string
}.

Record rating_doc : Type := {
  r_tconst : cell string;
  r_averageRating : cell rating
}.

(** A row of the joined frame; [None] is pandas' missing value. *)
Record joined : Type := {
  j_tconst : option string;
  j_startYear : pyval;
  j_genres : option string;
  j_rating : option rating
}.

Inductive report : Type :=
| NoTitles
| NoRatings
| Table (rows : list (string * rating)).

Definition is_missing {A : Type} (c : cell A) : bool :=
  match c with Missing => true | _ => false end.

Definition cell_value {A : Type} (c : cell A) : option A :=
  match c with Val a => Some a | _ => None end.

(** [pd.DataFrame(records)] has a column for each key that some
    record has. *)
Definition has_col {R A : Type} (f : R -> cell A) (records : list R) : bool :=
  existsb (fun r => negb (is_missing (f r))) records.

Definition key_eqb (a b : option string) : bool :=
  match a, b with
  | Some x, Some y => String.eqb x y
  | None, None => true
  | _, _ => false
  end.

Definition join_row (t : title_doc) (year : pyval) (r : option rating)
  : joined :=
  {| j_tconst := cell_value (t_tconst t);
     j_startYear := year;
     j_genres := cell_value (t_genres t);
     j_rating := r |}.

(** Line 132: the titles with their coerced year *)
Fixpoint coerce_years (titles : list title_doc)
  : result (list (title_doc * pyval)) :=
  match titles with
  | [] => Ok []
  | t :: ts =>
      y <- coerce_year (Plain (t_startYear t)) ;;
      rest <- coerce_years ts ;;
      Ok ((t, y) :: rest)
  end.

(** The rows of one title in the left join: one for each rating
    record of equal key, in order, and one with a missing rating
    when there is none. *)
Definition join_title (ty : title_doc * pyval) (ratings : list rating_doc)
  : list joined :=
  let key := cell_value (t_tconst (fst ty)) in
  match filter (fun r => key_eqb key (cell_value (r_tconst r))) ratings with
  | [] => [join_row (fst ty) (snd ty) None]
  | r :: ms =>
      map (fun r' => join_row (fst ty) (snd ty)
                       (cell_value (r_averageRating r')))
          (r :: ms)
  end.

(** Line 139: [df_t.merge(df_r, on="tconst", how="left")]. Without
    the key column on one side pandas raises [KeyError]; the rows of
    the titles follow each other in the order of the titles. *)
Definition merge_left (df_t : list (title_doc * pyval))
  (ratings : list rating_doc) : result (list joined) :=
  if has_col t_tconst (map fst df_t) && has_col r_tconst ratings then
    Ok (flat_map (fun ty => join_title ty ratings) df_t)
  else Raise KeyError.

(** Lines 141-143: the frame of the [except] branch *)
Definition without_ratings (df_t : list (title_doc * pyval)) : list joined :=
  map (fun ty => join_row (fst ty) (snd ty) None) df_t.

(** Line 146: [fillna] with the empty string *)
Definition fillna (g : option string) : string :=
  match g with Some s => s | None => EmptyString end.

(** Line 148: the lambda *)
Definition genre_tags (s : string) : list string :=
  if String.eqb s EmptyString || String.eqb s "\N" then []
  else map str_strip
         (filter (fun g => negb (is_empty (str_strip g))) (str_split "," s)).

(** Line 149: [explode]: one row per element, and one row with a
    missing value for an empty list. *)
Definition explode_row (r : joined) : list (joined * option string) :=
  match genre_tags (fillna (j_genres r)) with
  | [] => [(r, None)]
  | tags => map (fun g => (r, Some g)) tags
  end.

(** Line 152 *)
Definition has_genre (rg : joined * option string) : bool :=
  match snd rg with
  | Some g => negb (String.eqb g EmptyString)
  | None => false
  end.

(** Lines 146-152: the frame after the explosion and the genre
    filter, as rows genre, rating. *)
Definition genre_rows (df : list joined) : list (string * option rating) :=
  flat_map
    (fun rg => match snd rg with
               | Some g => [(g, j_rating (fst rg))]
               | None => []
               end)
    (filter has_genre (flat_map explode_row df)).

(** Line 153: [notna] on the rating *)
Definition rated_rows (rows : list (string * option rating))
  : list (string * rating) :=
  flat_map
    (fun gr => match snd gr with
               | Some x => [(fst gr, x)]
               | None => []
               end)
    rows.

(** Lines 157-158: [groupby(...).mean()], the groups in key order *)
Definition groupby_mean (rows : list (string * rating))
  : list (string * rating) :=
  map (fun g =>
         (g, rating_mean
               (map snd (filter (fun r => String.eqb (fst r) g) rows))))
      (sorted (fromkeys (map fst rows))).

Definition rating_ltb (x y : rating) : bool := negb (rating_leb y x).

(** Line 160: [by=["avgRating", "genre"], ascending=[False, True]] *)
Definition row_leb (a b : string * rating) : bool :=
  if rating_ltb (snd b) (snd a) then true
  else if rating_ltb (snd a) (snd b) then false
  else str_leb (fst a) (fst b).

Definition sort_values (rows : list (string * rating))
  : list (string * rating) :=
  sort_by row_leb rows.

(** Line 168 *)
Definition round_rows (rows : list (string * rating))
  : list (string * rating) :=
  map (fun r => (fst r, rating_round2 (snd r))) rows.

(** A joined row with a rating. *)
Definition has_rating (r : joined) : bool :=
  match j_rating r with Some _ => true | None => false end.

(** The rows that one joined row gives to the aggregation: one for
    each of its tags, with its rating. *)
Definition tagged (r : joined) : list (string * option rating) :=
  map (fun g => (g, j_rating r)) (genre_tags (fillna (j_genres r))).

(** The order of the report: [a] comes before [b] when its mean is
    the greater one, or when the means are equal and its genre is
    not after the genre of [b]. *)
Definition row_before (a b : string * rating) : Prop :=
  rating_ltb (snd b) (snd a) = true
  \/ (rating_leb (snd a) (snd b) = true
      /\ rating_leb (snd b) (snd a) = true
      /\ str_leb (fst a) (fst b) = true).

(** *** The rows of one title

    What the specification says of a title, written out on its own:
    the tags of its genre string, its rating records and the rating
    values joined to it. *)

(** The tags of a title: none when the genres key is missing or
    null, or when the string is empty or the sentinel; otherwise the
    pieces between commas, trimmed, without the empty ones, in the
    order of the string. *)
Definition title_tags (t : title_doc) : list string :=
  match t_genres t with
  | Val s =>
      if String.eqb s EmptyString || String.eqb s "\N" then []
      else filter (fun g => negb (is_empty g))
                  (map str_strip (str_split "," s))
  | Missing | Null => []
  end.

(** The rating records that have the key of the title. *)
Definition title_records (t : title_doc) (ratings : list rating_doc)
  : list rating_doc :=
  filter (fun r => key_eqb (cell_value (t_tconst t)) (cell_value (r_tconst r)))
         ratings.

(** The rating values joined to the title: that of each of its
    records, in order, and the missing value when it has none. *)
Definition title_ratings (t : title_doc) (ratings : list rating_doc)
  : list (option rating) :=
  match title_records t ratings with
  | [] => [None]
  | r :: ms => map (fun r' => cell_value (r_averageRating r')) (r :: ms)
  end.

(** Lines 115-169. [ratings] is the outcome of reading the rating
    collection. *)
Definition avg_rating_by_genre_last5 (titles : list title_doc)
  (ratings : result (list rating_doc)) : result report :=
  match titles with
  | [] => Ok NoTitles
  | _ :: _ =>
      df_t <- coerce_years titles ;;
      df <- try_except
              (rs <- ratings ;;
               m <- merge_left df_t rs ;;
               Ok (m, has_col r_averageRating rs))
              (fun _ => Ok (without_ratings df_t, true)) ;;
      if negb (has_col t_genres titles) then Raise KeyError
      else
        let rows := genre_rows (fst df) in
        if negb (snd df) then Raise KeyError
        else
          let out := sort_values (groupby_mean (rated_rows rows)) in
          match out with
          | [] => Ok NoRatings
          | _ :: _ => Ok (Table (round_rows out))
          end
  end.

(* =============================================================== *)
(** ** Shapes of the API answer *)

(** What a [for] loop accepts: a list, a str or a dict. *)
Definition iterable (v : pyval) : bool :=
  match v with
  | PList _ | PStr _ | PDict _ => true
  | _ => false
  end.

(** A kind of the answer that [names(kind)] can walk through: the
    key is missing, or its value is iterable. *)
Definition kind_iterable (d : list (string * pyval)) (kind : string) : bool :=
  match assoc kind d with
  | Some v => iterable v
  | None => true
  end.

(** An entry as the API documents it: an object whose
    [provider_name] is a non-empty string. *)
Definition named_entry (x : pyval) : bool :=
  match x with
  | PDict d =>
      match assoc "provider_name" d with
      | Some (PStr s) => negb (is_empty s)
      | _ => false
      end
  | _ => false
  end.

(** An answer for one region as the API documents it: an object in
    which each kind, when present, is a list of such entries. *)
Definition well_formed_kind (d : list (string * pyval)) (kind : string)
  : bool :=
  match assoc kind d with
  | None => true
  | Some (PList xs) => forallb named_entry xs
  | Some _ => false
  end.

Definition well_formed_offers (p : pyval) : bool :=
  match p with
  | PDict d => forallb (well_formed_kind d) offer_kinds
  | _ => false
  end.

(* =============================================================== *)
(** ** The lookups and the report, read as plain conditions *)

(** The title condition of an exact lookup on a stored field: a
    string with the same title, or an array with such a string. *)
Definition title_matches (title : string) (stored : option pyval) : bool :=
  let ok v := match v with
              | PStr s => same_title title s
              | _ => false
              end in
  match stored with
  | Some (PList l) => existsb ok l
  | Some v => ok v
  | None => false
  end.

Definition exact_query (title : string) (year : Z) (doc : pyval) : bool :=
  mongo_eq (field "titleType" doc) (PStr "movie")
  && title_matches title (field "primaryTitle" doc)
  && mongo_eq (field "startYear" doc) (PInt year).

(** The value that [show_fight_club_row] hands to the normaliser for
    a document whose tmdb field can be read. *)
Definition region_offers (doc : pyval) (region : string) : pyval :=
  match doc with
  | PDict d =>
      match assoc "tmdb" d with
      | Some (PDict t) =>
          match assoc "providers" t with
          | Some (PDict ps) =>
              match assoc region ps with
              | Some v => v
              | None => PNone
              end
          | _ => PNone
          end
      | _ => PNone
      end
  | _ => PNone
  end.

(** A document whose tmdb field the report can read: the field is
    missing or is an object, and in it providers is missing, falsy
    or an object. *)
Definition readable_providers (doc : pyval) : bool :=
  match doc with
  | PDict d =>
      match assoc "tmdb" d with
      | None => true
      | Some (PDict t) =>
          match assoc "providers" t with
          | None => true
          | Some ps => negb (truthy ps) || isinstance_dict ps
          end
      | Some _ => false
      end
  | _ => false
  end.

(** A genre without a comma. *)
Fixpoint no_comma (s : string) : bool :=
  match s with
  | EmptyString => true
  | String c r => negb (Ascii.eqb c ",") && no_comma r
  end.

(** A tag as [genre_tags] gives it: trimmed, not empty, no comma. *)
Definition clean_tag (g : string) : bool :=
  negb (is_empty g) && String.eqb (str_strip g) g && no_comma g.

(** The ratings can be joined: they were read, and both frames have
    the key column. *)
Definition joinable (titles : list title_doc)
  (ratings : result (list rating_doc)) : bool :=
  match ratings with
  | Ok rs => has_col t_tconst titles && has_col r_tconst rs
  | Raise _ => false
  end.

(** A column that the function indexes is missing: no title has a
    genres key, or the ratings were joined and no rating record has
    an averageRating key. *)
Definition missing_column (titles : list title_doc)
  (ratings : result (list rating_doc)) : bool :=
  match titles with
  | [] => false
  | _ :: _ =>
      negb (has_col t_genres titles)
      || match ratings with
         | Ok rs => joinable titles ratings && negb (has_col r_averageRating rs)
         | Raise _ => false
         end
  end.

(* =============================================================== *)
(** ** [sync_fight_club.py]: the metadata API and [main]

    A call of the API is a request; the API gives the decoded body
    of the answer, or nothing when [requests.get], [raise_for_status]
    or [r.json()] raises. The functions that call it return what they
    fetched; [main] also returns the requests it has sent, in
    order. *)

Section Api.

(** [s.upper()]. The upper-case form of a str can leave the code
    points below 256, so the function is not fixed here. *)
Variable str_upper : string -> string.

(** [json.dumps(v, indent=2, ensure_ascii=False)]: the text, or the
    exception of the encoder: [TypeError] on a value inside [v] that
    the encoder does not take (a date or binary data of the store),
    [ValueError] on an integer beyond the limit of digits,
    [RecursionError] on a value nested too deep. Writing a text to
    the standard output is taken not to fail. *)
Variable json_dumps : pyval -> result string.

Inductive request : Type :=
| SearchMovie (title : string) (year : Z)
| WatchProviders (movie_id : Z).

Inductive fetched (A : Type) : Type :=
| Fetched (a : A)
| RequestFailed
| Raised (e : exn).

#[global] Arguments Fetched {A} a.
#[global] Arguments RequestFailed {A}.
#[global] Arguments Raised {A} e.

Definition fetched_of {A : Type} (r : result A) : fetched A :=
  match r with
  | Ok a => Fetched a
  | Raise e => Raised e
  end.

(** [results[0] if results else None]. A truthy list or str has a
    first element; a dict has no key 0, its keys being strings; a
    number or a boolean cannot be indexed. *)
Definition first_or_none (results : pyval) : result pyval :=
  if truthy results then
    match results with
    | PList (x :: _) => Ok x
    | PStr (String c _) => Ok (PStr (String c EmptyString))
    | PDict _ => Raise KeyError
    | _ => Raise TypeError
    end
  else Ok PNone.

(** Lines 46-53 *)
Definition tmdb_search_movie (api : request -> option pyval)
  (title : string) (year : Z) : fetched pyval :=
  match api (SearchMovie title year) with
  | None => RequestFailed
  | Some data =>
      fetched_of (results <- py_get data "results" (PList []) ;;
                  first_or_none results)
  end.

(** Lines 55-62 *)
Definition tmdb_get_providers (api : request -> option pyval)
  (movie_id : Z) (region : string) : fetched pyval :=
  match api (WatchProviders movie_id) with
  | None => RequestFailed
  | Some json =>
      let data := py_or json (PDict []) in
      fetched_of (results <- py_get data "results" (PDict []) ;;
                  py_get results (str_upper region) (PDict []))
  end.

(** [v[k]] for a string [k]: the value of the key in a dict; a list
    or a str takes integers only, and other values cannot be
    indexed. *)
Definition py_getitem (v : pyval) (k : string) : result pyval :=
  match v with
  | PDict d => match assoc k d with
               | Some x => Ok x
               | None => Raise KeyError
               end
  | _ => Raise TypeError
  end.

(** How a run of [main] ends: one of the two messages followed by
    [sys.exit(0)], a failed request, an exception, or the catalogue
    after the update. *)
Inductive outcome : Type :=
| NotInCatalogue
| NotInTmdb
| RequestError
| Error (e : exn)
| Updated (c : collection).

(** Lines 105-116: the text printed for the document. The dict is
    built first, key after key, with [str] of the identifier and the
    two years coerced by [to_int_or_none]; then it is encoded. *)
Definition print_document (doc : pyval) : result string :=
  id <- py_get doc "_id" PNone ;;
  id_text <- py_str id ;;
  tconst <- py_get doc "tconst" PNone ;;
  title_type <- py_get doc "titleType" PNone ;;
  primary <- py_get doc "primaryTitle" PNone ;;
  original <- py_get doc "originalTitle" PNone ;;
  s <- py_get doc "startYear" PNone ;;
  start <- to_int_or_none (Plain s) ;;
  e <- py_get doc "endYear" PNone ;;
  end_year <- to_int_or_none (Plain e) ;;
  genres <- py_get doc "genres" PNone ;;
  tmdb <- py_get doc "tmdb" (PDict []) ;;
  json_dumps (PDict [("id", PStr id_text); ("tconst", tconst);
                     ("titleType", title_type); ("primaryTitle", primary);
                     ("originalTitle", original); ("startYear", start);
                     ("endYear", end_year); ("genres", genres);
                     ("tmdb", tmdb)]).

(** Line 125: the three texts that the message is made of, each
    formatted as [str] does, in order. *)
Definition print_match (tmdb_id : Z) (hit : pyval)
  : result (string * string * string) :=
  id_text <- int_str tmdb_id ;;
  t <- py_get hit "title" PNone ;;
  title_text <- py_str t ;;
  r <- py_get hit "release_date" (PStr EmptyString) ;;
  date_text <- py_str r ;;
  Ok (id_text, title_text, date_text).

(** Lines 124-125: the identifier of the hit, and the message *)
Definition hit_id (hit : pyval) : result Z :=
  i <- py_getitem hit "id" ;;
  tmdb_id <- py_int i ;;
  _ <- print_match tmdb_id hit ;;
  Ok tmdb_id.

(** Lines 124-134: from the hit to the update *)
Definition enrich (api : request -> option pyval) (col : collection)
  (doc hit : pyval) : list request * outcome :=
  match hit_id hit with
  | Raise e => ([], Error e)
  | Ok tmdb_id =>
      ([WatchProviders tmdb_id],
       match tmdb_get_providers api tmdb_id TMDB_REGION with
       | RequestFailed => RequestError
       | Raised e => Error e
       | Fetched providers_raw =>
           match (providers_fmt <- format_providers_entry providers_raw ;;
                  _ <- json_dumps providers_fmt ;;
                  mongo_id <- py_getitem doc "_id" ;;
                  update_movie_with_tmdb col mongo_id tmdb_id providers_fmt)
           with
           | Ok c => Updated c
           | Raise e => Error e
           end
       end)
  end.

(** Lines 118-134: the search, and what follows a hit *)
Definition lookup_and_enrich (api : request -> option pyval)
  (col : collection) (doc : pyval) : list request * outcome :=
  let rest :=
    match tmdb_search_movie api "Fight Club" 1999 with
    | Fetched hit =>
        if negb (truthy hit) then ([], NotInTmdb)
        else enrich api col doc hit
    | RequestFailed => ([], RequestError)
    | Raised e => ([], Error e)
    end in
  (SearchMovie "Fight Club" 1999 :: fst rest, snd rest).

(** Lines 93-135. The outer [None] is a pattern outside of the
    modelled fragment. *)
Definition main (api : request -> option pyval) (col : collection)
  : option (list request * outcome) :=
  match find_film col "Fight Club" 1999 with
  | None => None
  | Some None => Some ([], NotInCatalogue)
  | Some (Some doc) =>
      Some (if negb (truthy doc) then ([], NotInCatalogue)
            else match print_document doc with
                 | Raise e => ([], Error e)
                 | Ok _ => lookup_and_enrich api col doc
                 end)
  end.

End Api.

(** *** The identifiers of a catalogue

    The store gives every document an [_id] and keeps the values
    distinct; here an identifier is an integer or a string. *)
Definition scalar_id (v : pyval) : bool :=
  match v with
  | PInt _ | PStr _ => true
  | _ => false
  end.

Fixpoint unique_ids (c : collection) : bool :=
  match c with
  | [] => true
  | d :: c' =>
      match field "_id" d with
      | Some id =>
          scalar_id id
          && negb (existsb (fun d' => mongo_eq (field "_id" d') id) c')
          && unique_ids c'
      | None => false
      end
  end.

(** An answer of the API that has nothing for the key of a region:
    it is falsy, or an object without results, or one whose results
    are an object without the key. *)
Definition no_offers (key : string) (body : pyval) : bool :=
  negb (truthy body)
  || match body with
     | PDict b =>
         match assoc "results" b with
         | None => true
         | Some (PDict rs) =>
             match assoc key rs with
             | None => true
             | Some _ => false
             end
         | Some _ => false
         end
     | _ => false
     end.

(* ================================================================= *)
(** ** Properties of the string functions *)

Set Default Proof Using "Type".

Lemma is_empty_true (s : string) : is_empty s = true <-> s = EmptyString.
Proof. destruct s; simpl; split; intros H; congruence. Qed.

Lemma is_empty_false (s : string) : is_empty s = false <-> s <> EmptyString.
Proof. destruct s; simpl; split; intros H; congruence. Qed.

Lemma lstrip_by_head (sp : ascii -> bool) (s : string) :
  match lstrip_by sp s with
  | EmptyString => True
  | String c _ => sp c = false
  end.
Proof.
  induction s as [|c r IH]; simpl; [exact I|].
  destruct (sp c) eqn:E; [exact IH | exact E].
Qed.

Lemma lstrip_by_fixed (sp : ascii -> bool) (s : string) :
  match s with
  | EmptyString => True
  | String c _ => sp c = false
  end ->
  lstrip_by sp s = s.
Proof. destruct s as [|c r]; simpl; intros H; [reflexivity | now rewrite H]. Qed.

Lemma rstrip_by_idem (sp : ascii -> bool) (s : string) :
  rstrip_by sp (rstrip_by sp s) = rstrip_by sp s.
Proof.
  induction s as [|c r IH]; simpl; [reflexivity|].
  destruct (sp c && is_empty (rstrip_by sp r)) eqn:E; simpl; [reflexivity|].
  rewrite IH, E. reflexivity.
Qed.

Lemma rstrip_by_head (sp : ascii -> bool) (s : string) :
  match s with
  | EmptyString => True
  | String c _ => sp c = false
  end ->
  match rstrip_by sp s with
  | EmptyString => True
  | String c _ => sp c = false
  end.
Proof.
  destruct s as [|c r]; simpl; [trivial|].
  intros H. rewrite H. simpl. exact H.
Qed.

Lemma str_strip_idem (s : string) : str_strip (str_strip s) = str_strip s.
Proof.
  unfold str_strip.
  rewrite (lstrip_by_fixed is_space (rstrip_by is_space (lstrip_by is_space s))).
  - apply rstrip_by_idem.
  - apply rstrip_by_head, lstrip_by_head.
Qed.


Lemma ascii_compare_eq (a b : ascii) : Ascii.compare a b = Eq -> a = b.
Proof. apply Ascii.compare_eq_iff. Qed.

Lemma ascii_compare_refl (a : ascii) : Ascii.compare a a = Eq.
Proof. unfold Ascii.compare. apply N.compare_refl. Qed.

Lemma str_compare_refl (s : string) : String.compare s s = Eq.
Proof.
  induction s as [|c r IH]; simpl; [reflexivity|].
  rewrite ascii_compare_refl. exact IH.
Qed.

Lemma str_compare_lt_trans (a b c : string) :
  String.compare a b = Lt -> String.compare b c = Lt -> String.compare a c = Lt.
Proof.
  revert b c. induction a as [|x a IH]; intros [|y b] [|z c]; simpl;
    try congruence.
  unfold Ascii.compare.
  destruct (N.compare_spec (N_of_ascii x) (N_of_ascii y)) as [E1|L1|G1];
    destruct (N.compare_spec (N_of_ascii y) (N_of_ascii z)) as [E2|L2|G2];
    try congruence; intros H1 H2.
  - rewrite E1, E2, N.compare_refl. eauto.
  - rewrite E1. apply N.compare_lt_iff in L2. now rewrite L2.
  - rewrite <- E2. apply N.compare_lt_iff in L1. now rewrite L1.
  - assert (L : (N_of_ascii x < N_of_ascii z)%N) by lia.
    apply N.compare_lt_iff in L. now rewrite L.
Qed.

Lemma str_leb_refl (a : string) : str_leb a a = true.
Proof. unfold str_leb, String.leb. now rewrite str_compare_refl. Qed.

Lemma str_leb_total (a b : string) : str_leb a b = true \/ str_leb b a = true.
Proof. apply String.leb_total. Qed.

Lemma str_leb_antisym (a b : string) :
  str_leb a b = true -> str_leb b a = true -> a = b.
Proof. apply String.leb_antisym. Qed.

Lemma str_ltb_leb (a b : string) : str_ltb a b = negb (str_leb b a).
Proof.
  unfold str_ltb, str_leb, String.ltb, String.leb.
  rewrite (String.compare_antisym b a).
  destruct (String.compare a b); reflexivity.
Qed.

Lemma str_leb_cases (a b : string) :
  str_leb a b = true <-> str_ltb a b = true \/ a = b.
Proof.
  unfold str_ltb, str_leb, String.ltb, String.leb. split.
  - destruct (String.compare a b) eqn:E; intros H; try discriminate.
    + right. now apply String.compare_eq_iff.
    + now left.
  - intros [H| ->].
    + destruct (String.compare a b); congruence.
    + now rewrite str_compare_refl.
Qed.

Lemma str_ltb_trans (a b c : string) :
  str_ltb a b = true -> str_ltb b c = true -> str_ltb a c = true.
Proof.
  unfold str_ltb, String.ltb.
  destruct (String.compare a b) eqn:E1; try discriminate.
  destruct (String.compare b c) eqn:E2; try discriminate.
  intros _ _. now rewrite (str_compare_lt_trans a b c E1 E2).
Qed.

Lemma str_leb_trans (a b c : string) :
  str_leb a b = true -> str_leb b c = true -> str_leb a c = true.
Proof.
  rewrite !str_leb_cases. intros [H1| ->] [H2| ->]; auto.
  left. eapply str_ltb_trans; eauto.
Qed.

Lemma str_ltb_irrefl (a : string) : str_ltb a a = false.
Proof. unfold str_ltb, String.ltb. now rewrite str_compare_refl. Qed.

(* ================================================================= *)
(** ** Properties of [sort_by] and [fromkeys] *)

Section SortFacts.
Context {A : Type} (leb : A -> A -> bool).

Local Notation le := (fun a b : A => leb a b = true).

Lemma insert_sorted_perm (x : A) (l : list A) :
  Permutation (insert_sorted leb x l) (x :: l).
Proof.
  induction l as [|y l IH]; simpl; [reflexivity|].
  destruct (leb x y); [reflexivity|].
  rewrite IH. apply perm_swap.
Qed.

Lemma sort_by_perm (l : list A) : Permutation (sort_by leb l) l.
Proof.
  induction l as [|x l IH]; simpl; [reflexivity|].
  rewrite insert_sorted_perm. now constructor.
Qed.

Lemma sort_by_In (l : list A) (x : A) : In x (sort_by leb l) <-> In x l.
Proof.
  split; apply Permutation_in; [|symmetry]; apply sort_by_perm.
Qed.

Lemma sort_by_fixed (l : list A) : Sorted le l -> sort_by leb l = l.
Proof.
  induction 1 as [|x l Hs IH Hd]; simpl; [reflexivity|].
  rewrite IH. destruct Hd as [|y l Hxy]; simpl; [reflexivity|].
  cbv beta in Hxy. now rewrite Hxy.
Qed.

Hypothesis leb_total : forall a b, leb a b = true \/ leb b a = true.

Lemma insert_sorted_sorted (x : A) (l : list A) :
  Sorted le l -> Sorted le (insert_sorted leb x l).
Proof using leb_total.
  induction 1 as [|y l Hs IH Hd]; simpl.
  - repeat constructor.
  - destruct (leb x y) eqn:E.
    + repeat constructor; assumption.
    + constructor; [exact IH|].
      assert (Hyx : leb y x = true)
        by (destruct (leb_total x y); [congruence|assumption]).
      destruct Hd as [|z l Hyz]; simpl.
      * now constructor.
      * destruct (leb x z); now constructor.
Qed.

Lemma sort_by_sorted (l : list A) : Sorted le (sort_by leb l).
Proof using leb_total.
  induction l as [|x l IH]; simpl; [constructor|].
  now apply insert_sorted_sorted.
Qed.

Hypothesis leb_trans :
  forall a b c, leb a b = true -> leb b c = true -> leb a c = true.

Lemma sort_by_strongly_sorted (l : list A) : StronglySorted le (sort_by leb l).
Proof using leb_total leb_trans.
  apply Sorted_StronglySorted; [|apply sort_by_sorted].
  intros a b c. apply leb_trans.
Qed.

End SortFacts.

Lemma existsb_eqb_In (x : string) (l : list string) :
  existsb (String.eqb x) l = true <-> In x l.
Proof.
  rewrite existsb_exists. split.
  - intros [y [Hy E]]. apply String.eqb_eq in E. now subst.
  - intros H. exists x. split; [assumption | apply String.eqb_refl].
Qed.

Lemma fromkeys_seen_In (seen l : list string) (x : string) :
  In x (fromkeys_seen seen l) <-> In x l /\ ~ In x seen.
Proof.
  revert seen. induction l as [|y l IH]; intros seen; simpl; [tauto|].
  destruct (existsb (String.eqb y) seen) eqn:E.
  - apply existsb_eqb_In in E. rewrite IH. split.
    + intros [H1 H2]. auto.
    + intros [[->|H1] H2]; [contradiction | auto].
  - assert (Hy : ~ In y seen).
    { intros H. apply existsb_eqb_In in H. congruence. }
    simpl. rewrite IH. simpl. split.
    + intros [->|[H1 H2]]; [auto|]. split; [auto|]. intros H. apply H2. now right.
    + intros [[->|H1] H2]; [now left|].
      destruct (string_dec y x) as [->|Hne]; [now left|].
      right. split; [assumption|]. intros [H|H]; auto.
Qed.

Lemma fromkeys_seen_NoDup (seen l : list string) : NoDup (fromkeys_seen seen l).
Proof.
  revert seen. induction l as [|y l IH]; intros seen; simpl; [constructor|].
  destruct (existsb (String.eqb y) seen); [apply IH|].
  constructor; [|apply IH].
  rewrite fromkeys_seen_In. simpl. tauto.
Qed.

Lemma fromkeys_seen_fixed (seen l : list string) :
  NoDup l -> (forall x, In x l -> ~ In x seen) -> fromkeys_seen seen l = l.
Proof.
  revert seen. induction l as [|y l IH]; intros seen Hnd Hs; simpl; [reflexivity|].
  inversion Hnd as [|? ? Hy Hl]; subst.
  destruct (existsb (String.eqb y) seen) eqn:E.
  - apply existsb_eqb_In in E. exfalso. apply (Hs y); simpl; auto.
  - f_equal. apply IH; [assumption|].
    intros x Hx [<-|H]; [contradiction|]. apply (Hs x); simpl; auto.
Qed.

Lemma fromkeys_In (l : list string) (x : string) : In x (fromkeys l) <-> In x l.
Proof. unfold fromkeys. rewrite fromkeys_seen_In. simpl. tauto. Qed.

Lemma fromkeys_NoDup (l : list string) : NoDup (fromkeys l).
Proof. apply fromkeys_seen_NoDup. Qed.

Lemma fromkeys_fixed (l : list string) : NoDup l -> fromkeys l = l.
Proof. intros H. apply fromkeys_seen_fixed; [assumption | simpl; tauto]. Qed.

(* ================================================================= *)
(** ** The provider normaliser *)

Lemma stripped_nonempty_not_blank (s : string) :
  str_strip s <> EmptyString -> blank (str_strip s) = false.
Proof.
  unfold str_strip. intros H.
  pose proof (rstrip_by_head is_space _ (lstrip_by_head is_space s)) as Hh.
  destruct (rstrip_by is_space (lstrip_by is_space s)) as [|c r];
    [congruence|].
  simpl. now rewrite Hh.
Qed.

Lemma blank_strip (s : string) : blank s = true -> str_strip s = EmptyString.
Proof.
  unfold str_strip. induction s as [|c r IH]; simpl; [reflexivity|].
  intros H. apply andb_prop in H as [Hc Hr]. rewrite Hc. auto.
Qed.

Lemma strictly_ascending_NoDup (l : list string) :
  strictly_ascending l -> NoDup l.
Proof.
  induction 1 as [|x l Hs IH Hx]; constructor; [|assumption].
  intros Hin. rewrite Forall_forall in Hx. specialize (Hx x Hin).
  now rewrite str_ltb_irrefl in Hx.
Qed.

Lemma strictly_ascending_Sorted (l : list string) :
  strictly_ascending l -> Sorted (fun a b => str_leb a b = true) l.
Proof.
  intros H. apply StronglySorted_Sorted.
  induction H as [|x l Hs IH Hx]; constructor; [assumption|].
  eapply Forall_impl; [|exact Hx].
  intros a Ha. simpl in Ha. apply str_leb_cases. now left.
Qed.

Lemma sorted_NoDup_strictly_ascending (l : list string) :
  StronglySorted (fun a b => str_leb a b = true) l -> NoDup l ->
  strictly_ascending l.
Proof.
  induction 1 as [|x l Hs IH Hx]; intros Hnd; [constructor|].
  inversion Hnd as [|? ? Hnx Hl]; subst.
  constructor; [now apply IH|].
  rewrite Forall_forall in Hx. apply Forall_forall. intros a Ha.
  specialize (Hx a Ha). apply str_leb_cases in Hx as [Hlt| ->];
    [assumption | contradiction].
Qed.

Lemma unique_sorted_In (names : list string) (n : string) :
  In n (unique_sorted names) <-> In n names /\ n <> EmptyString.
Proof.
  unfold unique_sorted, sorted.
  rewrite sort_by_In, fromkeys_In, filter_In, negb_true_iff, is_empty_false.
  tauto.
Qed.

Lemma unique_sorted_strict (names : list string) :
  strictly_ascending (unique_sorted names).
Proof.
  unfold unique_sorted, sorted. apply sorted_NoDup_strictly_ascending.
  - apply sort_by_strongly_sorted; [apply str_leb_total | apply str_leb_trans].
  - eapply Permutation_NoDup; [symmetry; apply sort_by_perm|].
    apply fromkeys_NoDup.
Qed.

Lemma unique_sorted_fixed (l : list string) :
  strictly_ascending l -> Forall (fun n => n <> EmptyString) l ->
  unique_sorted l = l.
Proof.
  intros Hs Hne. unfold unique_sorted, sorted.
  assert (Hf : filter (fun n => negb (is_empty n)) l = l).
  { clear Hs. induction Hne as [|x l Hx Hl IH]; simpl; [reflexivity|].
    apply is_empty_false in Hx. rewrite Hx. simpl. now f_equal. }
  rewrite Hf, fromkeys_fixed by now apply strictly_ascending_NoDup.
  apply sort_by_fixed. now apply strictly_ascending_Sorted.
Qed.

Lemma for_each_app {A S : Type} (body : A -> S -> result S)
  (xs ys : list A) (s : S) :
  for_each (xs ++ ys) body s = (s' <- for_each xs body s ;; for_each ys body s').
Proof.
  revert s. induction xs as [|x xs IH]; intros s; simpl; [reflexivity|].
  destruct (body x s); simpl; auto.
Qed.

Lemma append_provider_spec (x : pyval) (names : list string) :
  append_provider x names = (a <- provider_name x ;; Ok (names ++ a)).
Proof.
  unfold append_provider, provider_name, converted.
  destruct x as [| | | |s|l|d]; simpl; try (now rewrite app_nil_r);
    try reflexivity.
  destruct (assoc "provider_name" d) as [a|]; simpl.
  - destruct (truthy a) eqn:Ea; simpl.
    + rewrite Ea. now destruct (py_str a).
    + destruct (assoc "name" d) as [b|]; simpl;
        [destruct (truthy b); [destruct (py_str b)|]|];
        simpl; now rewrite ?app_nil_r.
  - destruct (assoc "name" d) as [b|]; simpl;
      [destruct (truthy b); [destruct (py_str b)|]|];
      simpl; now rewrite ?app_nil_r.
Qed.

Lemma for_each_append_provider (xs : list pyval) (names : list string) :
  for_each xs append_provider names
  = (b <- names_of xs ;; Ok (names ++ b)).
Proof.
  revert names. induction xs as [|x xs IH]; intros names; simpl.
  - now rewrite app_nil_r.
  - rewrite append_provider_spec.
    destruct (provider_name x) as [a|e]; simpl; [|reflexivity].
    rewrite IH. destruct (names_of xs) as [b|e]; simpl; [|reflexivity].
    now rewrite app_assoc.
Qed.

Lemma names_of_app (xs ys : list pyval) :
  names_of (xs ++ ys)
  = (a <- names_of xs ;; b <- names_of ys ;; Ok (a ++ b)).
Proof.
  induction xs as [|x xs IH]; simpl.
  - now destruct (names_of ys).
  - destruct (provider_name x) as [a|e]; simpl; [|reflexivity].
    rewrite IH. destruct (names_of xs) as [b|e]; simpl; [|reflexivity].
    destruct (names_of ys) as [c|e]; simpl; [|reflexivity].
    now rewrite app_assoc.
Qed.

Lemma append_kind_spec (d : list (string * pyval)) (kind : string)
  (names : list string) :
  append_kind (PDict d) kind names
  = (b <- names_of (kind_entries d kind) ;; Ok (names ++ b)).
Proof.
  unfold append_kind, kind_entries, py_or. simpl.
  destruct (assoc kind d) as [a|]; simpl; [|now rewrite app_nil_r].
  destruct a as [|b|z|f|s|l|d']; simpl; rewrite ?app_nil_r;
    try reflexivity.
  - now destruct b.
  - now destruct (negb (z =? 0)).
  - now destruct (float_truthy f).
  - now destruct (negb (is_empty s)).
  - destruct l as [|x l]; simpl; [now rewrite app_nil_r|].
    apply (for_each_append_provider (x :: l)).
  - now destruct d'.
Qed.

Lemma for_each_append_kind (d : list (string * pyval)) (kinds : list string)
  (names : list string) :
  for_each kinds (append_kind (PDict d)) names
  = (b <- names_of (flat_map (kind_entries d) kinds) ;; Ok (names ++ b)).
Proof.
  revert names. induction kinds as [|k kinds IH]; intros names; simpl.
  - now rewrite app_nil_r.
  - rewrite append_kind_spec, names_of_app.
    destruct (names_of (kind_entries d k)) as [a|e]; simpl; [|reflexivity].
    rewrite IH.
    destruct (names_of (flat_map (kind_entries d) kinds)) as [b|e]; simpl;
      [|reflexivity].
    now rewrite app_assoc.
Qed.

Lemma providers_to_list_spec (pregion : pyval) :
  providers_to_list pregion
  = (ns <- pooled_names pregion ;;
     Ok (PList (map PStr (unique_sorted ns)))).
Proof.
  unfold providers_to_list, pooled_names, offered.
  destruct pregion as [| | | | |l|d];
    cbn [is_none isinstance_list isinstance_dict py_iter bind];
    try reflexivity.
  - rewrite for_each_append_provider. now destruct (names_of l).
  - rewrite (for_each_append_kind d offer_kinds []).
    now destruct (names_of _).
Qed.

Lemma provider_name_trimmed (x : pyval) (ns : list string) :
  provider_name x = Ok ns -> Forall trimmed ns.
Proof.
  unfold provider_name. intros H.
  assert (Hc : match converted x with
               | Some name => s <- py_str name ;; Ok [str_strip s]
               | None => Ok []
               end = Ok ns -> Forall trimmed ns).
  { destruct (converted x) as [name|].
    - destruct (py_str name) as [s|e]; simpl; [|discriminate].
      intros [= <-]. repeat constructor. apply str_strip_idem.
    - intros [= <-]. constructor. }
  destruct x as [| | | |s|l|d]; auto.
  injection H as <-. repeat constructor. apply str_strip_idem.
Qed.

Lemma names_of_trimmed (xs : list pyval) (ns : list string) :
  names_of xs = Ok ns -> Forall trimmed ns.
Proof.
  revert ns. induction xs as [|x xs IH]; intros ns; simpl.
  - intros [= <-]. constructor.
  - destruct (provider_name x) as [a|e] eqn:Ea; simpl; [|discriminate].
    destruct (names_of xs) as [b|e]; simpl; [|discriminate].
    intros [= <-]. apply Forall_app. split.
    + now apply (provider_name_trimmed x).
    + now apply IH.
Qed.

Lemma normalised_names (ns : list string) (n : string) :
  Forall trimmed ns ->
  In n (unique_sorted ns) ->
  n <> EmptyString /\ trimmed n /\ blank n = false.
Proof.
  intros Ht H. apply unique_sorted_In in H as [Hin Hne].
  rewrite Forall_forall in Ht. specialize (Ht n Hin).
  repeat split; try assumption.
  rewrite <- Ht. apply stripped_nonempty_not_blank. now rewrite Ht.
Qed.

Lemma names_of_strings (l : list string) :
  Forall trimmed l -> names_of (map PStr l) = Ok l.
Proof.
  induction 1 as [|x l Hx Hl IH]; simpl; [reflexivity|].
  rewrite IH. simpl. now rewrite Hx.
Qed.

Lemma providers_to_list_fixed (ns : list string) :
  Forall trimmed ns ->
  providers_to_list (PList (map PStr (unique_sorted ns)))
  = Ok (PList (map PStr (unique_sorted ns))).
Proof.
  intros Ht. rewrite providers_to_list_spec. unfold pooled_names, offered.
  assert (Hu : Forall trimmed (unique_sorted ns)).
  { apply Forall_forall. intros n Hn.
    now apply (normalised_names ns n Ht) in Hn. }
  rewrite (names_of_strings _ Hu). simpl. do 3 f_equal.
  apply unique_sorted_fixed; [apply unique_sorted_strict|].
  apply Forall_forall. intros n Hn.
  now apply (normalised_names ns n Ht) in Hn.
Qed.

(** The walk returns exactly when [str] returns on every value that
    it converts. *)
Lemma names_of_returns (xs : list pyval) :
  (exists ns, names_of xs = Ok ns)
  <-> forall x name, In x xs -> converted x = Some name ->
                     convertible name = true.
Proof.
  unfold convertible. induction xs as [|x xs IH]; simpl.
  - split; [intros _ x name [] | eauto].
  - split.
    + intros [ns H] y name [<-|Hy] Hc.
      * unfold provider_name in H. rewrite Hc in H.
        destruct x; try discriminate;
          destruct (py_str name); try reflexivity; discriminate.
      * destruct (provider_name x); simpl in H; [|discriminate].
        destruct (names_of xs) as [b|e]; simpl in H; [|discriminate].
        destruct IH as [IH _]. apply (IH (ex_intro _ b eq_refl) y name Hy Hc).
    + intros H.
      assert (Hx : exists a, provider_name x = Ok a).
      { unfold provider_name.
        destruct (converted x) as [name|] eqn:Hc.
        - pose proof (H x name (or_introl eq_refl) Hc) as Hn.
          destruct (py_str name) as [s|e]; [|discriminate].
          destruct x; simpl; eauto.
        - destruct x; simpl; eauto. }
      destruct Hx as [a ->]. simpl.
      destruct IH as [_ IH]. destruct IH as [b ->]; [|simpl; eauto].
      intros y name Hy. apply H. now right.
Qed.

(** C5, as amended. [providers_to_list] returns a list exactly when
    [str] returns on every name that it converts, the truthy
    [provider_name] or [name] of the elements that are dicts; this
    is so whenever these names are strings, booleans, doubles, or
    integers written with 640 characters at most (any integer when
    the limit of digits is turned off). It raises otherwise, on an
    integer name beyond the limit of digits for instance. An input
    that is neither a list nor a dict ([None], a number, a string, a
    boolean) gives the empty list. *)
Theorem providers_to_list_total (pregion : pyval) :
  ((exists l : list pyval, providers_to_list pregion = Ok (PList l))
   <-> forall x name, In x (offered pregion) -> converted x = Some name ->
                      convertible name = true)
  /\ (forall v : pyval,
        match v with
        | PList _ | PDict _ | PInt _ => True
        | _ => convertible v = true
        end)
  /\ (forall z : Z,
        (String.length (str_of_Z z) <= 640)%nat
        \/ int_max_str_digits = 0%nat ->
        convertible (PInt z) = true)
  /\ match pregion with
     | PList _ | PDict _ => True
     | _ => providers_to_list pregion = Ok (PList [])
     end.
Proof.
  split; [|split; [|split]].
  - rewrite providers_to_list_spec, <- names_of_returns.
    unfold pooled_names. split.
    + intros [l H]. destruct (names_of (offered pregion)) as [ns|e];
        [eauto | discriminate].
    + intros [ns ->]. simpl. eauto.
  - intros v. destruct v as [|[|]| | | | |]; try exact I; reflexivity.
  - intros z H. unfold convertible, py_str, int_str.
    destruct H as [H| ->].
    + apply Nat.ltb_ge in H. now rewrite H.
    + now rewrite andb_false_r.
  - destruct pregion; try exact I; reflexivity.
Qed.

(** C6. Whenever [providers_to_list] returns, the list that it
    returns is in ascending order of code points with no name twice
    (string equality, case included), holds exactly the non-empty
    names pooled from the input, and none of its names is empty or
    made of white space only. *)
Theorem providers_to_list_sorted_unique (pregion out : pyval) :
  providers_to_list pregion = Ok out ->
  exists pooled names : list string,
    pooled_names pregion = Ok pooled
    /\ out = PList (map PStr names)
    /\ strictly_ascending names
    /\ NoDup names
    /\ (forall n, In n names <-> In n pooled /\ n <> EmptyString)
    /\ Forall (fun n => n <> EmptyString /\ blank n = false) names.
Proof.
  rewrite providers_to_list_spec.
  destruct (pooled_names pregion) as [pooled|e] eqn:E; simpl; [|discriminate].
  intros [= <-]. exists pooled, (unique_sorted pooled).
  split; [reflexivity|]. split; [reflexivity|].
  split; [apply unique_sorted_strict|].
  split; [apply strictly_ascending_NoDup, unique_sorted_strict|].
  split; [intros n; apply unique_sorted_In|].
  apply Forall_forall. intros n Hn.
  apply (normalised_names pooled) in Hn; [tauto|].
  now apply (names_of_trimmed (offered pregion)).
Qed.

(** C7. [providers_to_list] is idempotent: normalising its own output
    gives that output again. *)
Theorem providers_to_list_idempotent (pregion : pyval) :
  (once <- providers_to_list pregion ;; providers_to_list once)
  = providers_to_list pregion.
Proof.
  rewrite providers_to_list_spec.
  destruct (pooled_names pregion) as [pooled|e] eqn:E; simpl; [|reflexivity].
  apply providers_to_list_fixed.
  now apply (names_of_trimmed (offered pregion)).
Qed.

(* ================================================================= *)
(** ** The sentinel coercions *)

Lemma py_in_plain (v : pyval) (items : list (option string)) :
  py_in (Plain v) items = Ok (existsb (eq_sentinel v) items).
Proof.
  induction items as [|c rest IH]; [reflexivity|].
  cbn [py_in eq_item bind existsb].
  destruct (eq_sentinel v c); [reflexivity | exact IH].
Qed.

Lemma coerce_year_spec (v : pyval) :
  coerce_year (Plain v)
  = Ok (if existsb (eq_sentinel v) sentinels then PNone
        else match py_int v with
             | Ok z => PInt z
             | Raise _ => PNone
             end).
Proof.
  unfold coerce_year. rewrite py_in_plain. cbn [bind int_of].
  destruct (existsb (eq_sentinel v) sentinels); [reflexivity|].
  destruct (py_int v); reflexivity.
Qed.

Lemma to_int_or_none_spec (v : pyval) :
  to_int_or_none (Plain v)
  = Ok (if existsb (eq_sentinel v) sentinels then PNone
        else match py_int v with
             | Ok z => PInt z
             | Raise _ => PNone
             end).
Proof.
  unfold to_int_or_none. rewrite py_in_plain. cbn [bind int_of].
  destruct (existsb (eq_sentinel v) sentinels); [reflexivity|].
  destruct (py_int v); reflexivity.
Qed.

(** What the two functions do on any object, by the outcome of the
    membership test. *)
Lemma coerce_year_outcome (x : pyobj) :
  coerce_year x
  = match py_in x sentinels with
    | Raise e => Raise e
    | Ok true => Ok PNone
    | Ok false => Ok match int_of x with
                     | Ok z => PInt z
                     | Raise _ => PNone
                     end
    end.
Proof.
  unfold coerce_year.
  destruct (py_in x sentinels) as [[|]|e]; cbn [bind]; try reflexivity.
  destruct (int_of x); reflexivity.
Qed.

Lemma to_int_or_none_outcome (x : pyobj) :
  to_int_or_none x
  = match py_in x sentinels with
    | Raise _ | Ok true => Ok PNone
    | Ok false => Ok match int_of x with
                     | Ok z => PInt z
                     | Raise _ => PNone
                     end
    end.
Proof.
  unfold to_int_or_none.
  destruct (py_in x sentinels) as [[|]|e]; cbn [bind]; try reflexivity.
  destruct (int_of x); reflexivity.
Qed.

(** C8. [coerce_year] maps [None], the empty string and the sentinel
    [\N] to absence, the string 1999 to the integer 1999 and the
    string abc to absence. On every JSON-like value it returns,
    without raising, the integer that [int] gives, and absence when
    [int] raises. It does raise to the caller on an object whose
    membership test raises, with the exception of the test: the test
    is made before the [try] block. Otherwise it returns absence for
    an object that the tuple holds, and what [int] gives or absence
    for any other. *)
Theorem coerce_year_cases :
  coerce_year (Plain PNone) = Ok PNone
  /\ coerce_year (Plain (PStr EmptyString)) = Ok PNone
  /\ coerce_year (Plain (PStr "\N")) = Ok PNone
  /\ coerce_year (Plain (PStr "1999")) = Ok (PInt 1999)
  /\ coerce_year (Plain (PStr "abc")) = Ok PNone
  /\ (forall v : pyval,
        coerce_year (Plain v)
        = Ok (if existsb (eq_sentinel v) sentinels then PNone
              else match py_int v with
                   | Ok z => PInt z
                   | Raise _ => PNone
                   end))
  /\ (forall (x : pyobj) (e : exn),
        py_in x sentinels = Raise e -> coerce_year x = Raise e)
  /\ (forall (x : pyobj) (b : bool),
        py_in x sentinels = Ok b ->
        coerce_year x
        = Ok (if b then PNone
              else match int_of x with
                   | Ok z => PInt z
                   | Raise _ => PNone
                   end)).
Proof.
  repeat split; try reflexivity.
  - apply coerce_year_spec.
  - intros x e H. now rewrite coerce_year_outcome, H.
  - intros x b H. rewrite coerce_year_outcome, H. now destruct b.
Qed.

(** C10. The two sentinel coercions return the same result, and
    neither raises, on every JSON-like value and on every object
    whose membership test returns. On an object whose membership
    test raises they differ: [coerce_year], which makes the test
    before its [try] block, raises the exception of the test, and
    [to_int_or_none], which makes it inside, returns absence. *)
Theorem coerce_year_to_int_or_none :
  (forall v : pyval,
      coerce_year (Plain v) = to_int_or_none (Plain v)
      /\ exists r : pyval, coerce_year (Plain v) = Ok r)
  /\ (forall (x : pyobj) (b : bool),
        py_in x sentinels = Ok b ->
        coerce_year x = to_int_or_none x
        /\ exists r : pyval, coerce_year x = Ok r)
  /\ (forall (x : pyobj) (e : exn),
        py_in x sentinels = Raise e ->
        coerce_year x = Raise e /\ to_int_or_none x = Ok PNone).
Proof.
  split; [|split].
  - intros v. rewrite coerce_year_spec, to_int_or_none_spec.
    split; [reflexivity|]. eexists. reflexivity.
  - intros x b H. rewrite coerce_year_outcome, to_int_or_none_outcome, H.
    split; [now destruct b|]. destruct b; eexists; reflexivity.
  - intros x e H. now rewrite coerce_year_outcome, to_int_or_none_outcome, H.
Qed.

(* ================================================================= *)
(** ** The provider payload and the writers *)

Lemma append_provider_name_spec (x : pyval) (acc : list pyval) :
  append_provider_name x acc = Ok (acc ++ listed_name x).
Proof.
  unfold append_provider_name, listed_name.
  destruct x as [| | | | | |d]; simpl; try (now rewrite app_nil_r).
  destruct (assoc "provider_name" d) as [a|]; simpl.
  - destruct (truthy a); simpl; now rewrite ?app_nil_r.
  - now rewrite app_nil_r.
Qed.

Lemma for_each_append_provider_name (xs acc : list pyval) :
  for_each xs append_provider_name acc = Ok (acc ++ flat_map listed_name xs).
Proof.
  revert acc. induction xs as [|x xs IH]; intros acc; simpl.
  - now rewrite app_nil_r.
  - rewrite append_provider_name_spec. simpl. rewrite IH.
    now rewrite app_assoc.
Qed.

Lemma names_spec (p : pyval) (kind : string) (l : list pyval) :
  names p kind = Ok l -> l = flat_map listed_name (entries_of p kind).
Proof.
  unfold names, entries_of.
  destruct (py_get p kind (PList [])) as [arr|e]; simpl; [|discriminate].
  destruct (py_iter arr) as [xs|e]; simpl; [|discriminate].
  rewrite for_each_append_provider_name. simpl. congruence.
Qed.

Lemma format_providers_entry_spec (p entry : pyval) :
  format_providers_entry p = Ok entry ->
  exists link : pyval,
    entry = PDict [("region", PStr TMDB_REGION); ("link", link);
                   ("flatrate",
                    PList (flat_map listed_name (entries_of p "flatrate")));
                   ("rent", PList (flat_map listed_name (entries_of p "rent")));
                   ("buy", PList (flat_map listed_name (entries_of p "buy")))].
Proof.
  unfold format_providers_entry.
  destruct (py_get p "link" PNone) as [link|e]; simpl; [|discriminate].
  destruct (names p "flatrate") as [fl|e] eqn:Ef; simpl; [|discriminate].
  destruct (names p "rent") as [re|e] eqn:Er; simpl; [|discriminate].
  destruct (names p "buy") as [bu|e] eqn:Eb; simpl; [|discriminate].
  apply names_spec in Ef, Er, Eb. subst. intros H. injection H as <-.
  now exists link.
Qed.

Lemma assoc_replace_key (k : string) (v : pyval) (d : list (string * pyval)) :
  assoc k d <> None -> assoc k (replace_key k v d) = Some v.
Proof.
  induction d as [|[k' v'] d IH]; simpl; [congruence|].
  destruct (String.eqb k k') eqn:E; simpl; rewrite E; auto.
Qed.

Lemma assoc_app_new (k : string) (v : pyval) (d : list (string * pyval)) :
  assoc k d = None -> assoc k (d ++ [(k, v)]) = Some v.
Proof.
  induction d as [|[k' v'] d IH]; simpl.
  - now rewrite String.eqb_refl.
  - destruct (String.eqb k k'); [discriminate | exact IH].
Qed.

Lemma get_set_path (path : list string) (v doc doc' : pyval) :
  set_path path v doc = Ok doc' -> get_path path doc' = Some v.
Proof.
  revert doc doc'. induction path as [|k rest IH]; intros doc doc'; simpl.
  - congruence.
  - destruct (is_empty k); [discriminate|].
    destruct doc as [| | | | | |d]; try discriminate.
    destruct (assoc k d) as [child|] eqn:Ea.
    + destruct (set_path rest v child) as [c|e] eqn:Es; simpl; [|discriminate].
      intros H. injection H as <-. simpl.
      rewrite assoc_replace_key by congruence. eauto.
    + destruct (set_path rest v (PDict [])) as [c|e] eqn:Es; simpl;
        [|discriminate].
      intros H. injection H as <-. simpl.
      rewrite assoc_app_new by assumption. eauto.
Qed.

Lemma update_one_spec (sel : pyval -> bool) (upd : pyval -> result pyval)
  (c c' : collection) :
  update_one sel upd c = Ok c' ->
  Forall2 (fun d d' => d' = d \/ (sel d = true /\ upd d = Ok d')) c c'.
Proof.
  revert c'. induction c as [|d c IH]; intros c'; simpl.
  - intros H. injection H as <-. constructor.
  - destruct (sel d) eqn:Es.
    + destruct (upd d) as [d'|e] eqn:Eu; simpl; [|discriminate].
      intros H. injection H as <-. constructor; [now right|].
      clear. induction c; constructor; auto.
    + destruct (update_one sel upd c) as [c''|e]; simpl; [|discriminate].
      intros H. injection H as <-. constructor; [now left | now apply IH].
Qed.

Lemma update_many_spec (sel : pyval -> bool) (upd : pyval -> result pyval)
  (c c' : collection) :
  update_many sel upd c = Ok c' ->
  Forall2 (fun d d' => if sel d then upd d = Ok d' else d' = d) c c'.
Proof.
  revert c'. induction c as [|d c IH]; intros c'; simpl.
  - intros H. injection H as <-. constructor.
  - destruct (sel d) eqn:Es.
    + destruct (upd d) as [d'|e] eqn:Eu; simpl; [|discriminate].
      destruct (update_many sel upd c) as [c''|e]; simpl; [|discriminate].
      intros H. injection H as <-. constructor; [now rewrite Es | now apply IH].
    + simpl. destruct (update_many sel upd c) as [c''|e]; simpl;
        [|discriminate].
      intros H. injection H as <-. constructor; [now rewrite Es | now apply IH].
Qed.

Lemma update_movie_with_tmdb_stores (c c' : collection) (mongo_id : pyval)
  (tmdb_id : Z) (providers : pyval) :
  update_movie_with_tmdb c mongo_id tmdb_id providers = Ok c' ->
  Forall2 (fun d d' => d' = d \/ get_path providers_path d' = Some providers)
          c c'.
Proof.
  intros H. apply update_one_spec in H.
  eapply Forall2_impl; [|exact H].
  intros d d' Hd. cbv beta in Hd. destruct Hd as [->|[_ Hu]]; [now left|right].
  destruct (set_path (dotted "tmdb.id") (PInt tmdb_id) d) as [d1|e];
    cbn [bind] in Hu; [|discriminate].
  now apply get_set_path in Hu.
Qed.

Lemma update_by_tmdb_id_stores (c c' : collection) (tmdb_id : Z)
  (providers : pyval) :
  update_by_tmdb_id c tmdb_id providers = Ok c' ->
  Forall2 (fun d d' => d' = d \/ get_path providers_path d' = Some providers)
          c c'.
Proof.
  intros H. apply update_many_spec in H.
  eapply Forall2_impl; [|exact H].
  intros d d' Hd. cbv beta in Hd.
  destruct (mongo_eq (get_path (dotted "tmdb.id") d) (PInt tmdb_id));
    [right | now left].
  now apply get_set_path in Hd.
Qed.

(** C1, as amended. The three kind lists of a provider set written by
    [update_movie_with_tmdb] or [update_by_tmdb_id] hold the non-empty
    [provider_name] values of the entries that the API lists for the
    kind, in the order of the API and with repetitions kept; the
    writers store the set as it is, and [providers_to_list], which
    reads it, gives the names ascending and without repetition
    whenever it returns, as it does when the names kept are
    strings. *)
Theorem offer_set_persisted_in_api_order (p entry : pyval)
  (c c1 c2 : collection) (mongo_id : pyval) (tmdb_id : Z) :
  format_providers_entry p = Ok entry ->
  update_movie_with_tmdb c mongo_id tmdb_id entry = Ok c1 ->
  update_by_tmdb_id c1 tmdb_id entry = Ok c2 ->
  (forall kind : string,
      In kind offer_kinds ->
      field kind entry
      = Some (PList (flat_map listed_name (entries_of p kind))))
  /\ Forall2 (fun d d' => d' = d \/ get_path providers_path d' = Some entry)
             c c1
  /\ Forall2 (fun d d' => d' = d \/ get_path providers_path d' = Some entry)
             c1 c2
  /\ (forall out : pyval,
        providers_to_list entry = Ok out ->
        exists ns : list string,
          out = PList (map PStr ns) /\ strictly_ascending ns)
  /\ ((forall (kind : string) (x : pyval),
         In kind offer_kinds ->
         In x (flat_map listed_name (entries_of p kind)) ->
         isinstance_str x = true) ->
      exists ns : list string,
        providers_to_list entry = Ok (PList (map PStr ns))
        /\ strictly_ascending ns).
Proof.
  intros Hf H1 H2. split; [|split; [|split; [|split]]].
  - apply format_providers_entry_spec in Hf as [link ->].
    intros kind [<-|[<-|[<-|[]]]]; reflexivity.
  - exact (update_movie_with_tmdb_stores _ _ _ _ _ H1).
  - exact (update_by_tmdb_id_stores _ _ _ _ H2).
  - intros out. rewrite providers_to_list_spec.
    destruct (pooled_names entry) as [ns|e]; simpl; [|discriminate].
    intros [= <-]. eexists. split; [reflexivity|].
    apply unique_sorted_strict.
  - intros Hs. apply format_providers_entry_spec in Hf as [link ->].
    rewrite providers_to_list_spec. unfold pooled_names.
    destruct (names_of_returns
                (offered
                   (PDict
                      [("region", PStr TMDB_REGION); ("link", link);
                       ("flatrate",
                        PList (flat_map listed_name
                                 (entries_of p "flatrate")));
                       ("rent",
                        PList (flat_map listed_name (entries_of p "rent")));
                       ("buy",
                        PList (flat_map listed_name (entries_of p "buy")))])))
      as [_ R].
    destruct R as [ns ->].
    + intros x name Hin Hc.
      assert (Hx : isinstance_str x = true).
      { cbn in Hin. rewrite app_nil_r in Hin.
        apply in_app_or in Hin as [Hin|Hin];
          [|apply in_app_or in Hin as [Hin|Hin]].
        - apply (Hs "flatrate"); simpl; auto.
        - apply (Hs "rent"); simpl; auto.
        - apply (Hs "buy"); simpl; auto. }
      destruct x; discriminate.
    + simpl. eexists. split; [reflexivity | apply unique_sorted_strict].
Qed.


(* ================================================================= *)
(** ** The title lookup *)

Lemma re_special_tokens (c : ascii) :
  if existsb (Ascii.eqb c) re_special
  then is_alnum c = false
  else Ascii.eqb c backslash = false /\ token_of c = TAtom (Lit c).
Proof.
  destruct c as [[] [] [] [] [] [] [] []]; vm_compute; auto.
Qed.

Lemma tokens_re_escape (title suffix : string) :
  tokens (re_escape title ++ suffix)
  = map (fun it => TAtom (fst it)) (literal_items title) ++ tokens suffix.
Proof.
  induction title as [|c r IH]; [reflexivity|].
  pose proof (re_special_tokens c) as H.
  cbn [re_escape literal_items map fst app].
  destruct (existsb (Ascii.eqb c) re_special).
  - cbn [append tokens]. change (Ascii.eqb backslash backslash) with true.
    cbv iota. rewrite H. f_equal. exact IH.
  - destruct H as [Hb Ht]. cbn [append tokens]. rewrite Hb, Ht.
    f_equal. exact IH.
Qed.

Lemma parse_literal_items (title : string) :
  parse_items
    (map (fun it => TAtom (fst it)) (literal_items title) ++ [TDollar])
  = Some (literal_items title, true).
Proof.
  induction title as [|c r IH]; [reflexivity|].
  cbn [literal_items map app fst]. cbn [literal_items map app fst] in IH.
  destruct r as [|c' r']; [reflexivity|].
  cbn [literal_items map app fst] in *.
  change (parse_items (TAtom (Lit c) :: TAtom (Lit c') :: ?l))
    with (match parse_items (TAtom (Lit c') :: l) with
          | Some (items, e) => Some ((Lit c, One) :: items, e)
          | None => None
          end).
  now rewrite IH.
Qed.

Lemma compile_re_escape (title : string) :
  compile ("^" ++ re_escape title ++ "$") = Some (literal_items title, true).
Proof.
  simpl. rewrite tokens_re_escape. apply parse_literal_items.
Qed.

Lemma fold_case_idem (c : ascii) : fold_case (fold_case c) = fold_case c.
Proof. destruct c as [[] [] [] [] [] [] [] []]; reflexivity. Qed.

Lemma match_literal_items (title stored : string) :
  match_items (literal_items title) true stored = same_title title stored.
Proof.
  unfold same_title. revert stored.
  induction title as [|c r IH]; intros stored.
  - destruct stored as [|x [|y s]]; simpl; try reflexivity.
    + destruct (Ascii.eqb x newline) eqn:E.
      * apply Ascii.eqb_eq in E. subst. reflexivity.
      * destruct (Ascii.eqb (fold_case x) newline) eqn:E';
          [|reflexivity].
        apply Ascii.eqb_eq in E'.
        assert (x = newline); [|subst; discriminate].
        revert E'. clear.
        destruct x as [[] [] [] [] [] [] [] []]; vm_compute; congruence.
    + destruct (Ascii.eqb (fold_case x) newline); reflexivity.
  - destruct stored as [|x s]; [reflexivity|].
    cbn [literal_items match_items atom_ok fold_str String.eqb append].
    rewrite IH. rewrite (Ascii.eqb_sym (fold_case c)).
    destruct (Ascii.eqb (fold_case x) (fold_case c)); reflexivity.
Qed.

(** The lookup of [sync_fight_club.py] escapes the title: its pattern
    is always one the store takes, and it selects the movies of the
    year whose title is the given one, case apart. *)
Lemma find_film_exact (c : collection) (title : string) (year : Z) :
  find_film c title year
  = Some (find (title_query (literal_items title, true) year) c)
  /\ forall stored : string,
       match_items (literal_items title) true stored
       = same_title title stored.
Proof.
  unfold find_film. rewrite compile_re_escape. split; [reflexivity|].
  apply match_literal_items.
Qed.

Lemma token_of_plain (c : ascii) :
  plain_char c = true ->
  Ascii.eqb c backslash = false /\ token_of c = TAtom (Lit c).
Proof.
  destruct c as [[] [] [] [] [] [] [] []]; vm_compute; intros H;
    (discriminate H || (split; reflexivity)).
Qed.

Lemma tokens_plain (title suffix : string) :
  plain_title title = true ->
  tokens (title ++ suffix)
  = map (fun it => TAtom (fst it)) (literal_items title) ++ tokens suffix.
Proof.
  induction title as [|c r IH]; [reflexivity|].
  cbn [plain_title]. intros H. apply andb_prop in H as [Hc Hr].
  apply token_of_plain in Hc as [Hb Ht].
  cbn [append tokens literal_items map fst app]. rewrite Hb, Ht.
  f_equal. now apply IH.
Qed.

(** On a title without special characters, the default Fight Club
    among them, the two lookups are the same. *)
Lemma show_fight_club_row_find_plain (c : collection) (title : string)
  (year : Z) :
  plain_title title = true ->
  show_fight_club_row_find c title year = find_film c title year.
Proof.
  intros H. unfold show_fight_club_row_find, find_film.
  rewrite compile_re_escape.
  assert (E : compile ("^" ++ title ++ "$") = Some (literal_items title, true)).
  { simpl. rewrite tokens_plain by assumption. apply parse_literal_items. }
  now rewrite E.
Qed.

(** A title that is not found gives the message and nothing else:
    neither the ratings nor the providers are looked at. *)
Lemma show_fight_club_row_not_found (col_titles : collection)
  (col_ratings : result collection) (title : string) (year : Z)
  (region : string) :
  show_fight_club_row_find col_titles title year = Some None ->
  show_fight_club_row col_titles col_ratings title year region
  = Some (Ok None).
Proof. unfold show_fight_club_row. now intros ->. Qed.

(** C9. The lookup of [show_fight_club_row] puts the title into the
    pattern as it is. With the title Fight.Club it returns a movie
    called FightXClub, and with the title M*A*S*H it does not find
    the movie of that very name; [find_film], which escapes the
    title, answers both as an exact lookup does. *)
Theorem show_fight_club_row_find_pattern :
  show_fight_club_row_find [movie_doc 1 "FightXClub" 1999] "Fight.Club" 1999
  = Some (Some (movie_doc 1 "FightXClub" 1999))
  /\ find_film [movie_doc 1 "FightXClub" 1999] "Fight.Club" 1999 = Some None
  /\ show_fight_club_row_find [movie_doc 2 "M*A*S*H" 1970] "M*A*S*H" 1970
     = Some None
  /\ find_film [movie_doc 2 "M*A*S*H" 1970] "M*A*S*H" 1970
     = Some (Some (movie_doc 2 "M*A*S*H" 1970)).
Proof. repeat split; reflexivity. Qed.

(* ================================================================= *)
(** ** The genre aggregation *)

Lemma genre_tags_trimmed (s : string) :
  Forall (fun g => g <> EmptyString /\ trimmed g) (genre_tags s).
Proof.
  unfold genre_tags.
  destruct (String.eqb s EmptyString || String.eqb s "\N"); [constructor|].
  induction (str_split "," s) as [|p ps IH]; simpl; [constructor|].
  destruct (is_empty (str_strip p)) eqn:E; simpl; [exact IH|].
  constructor; [|exact IH]. split.
  - now apply is_empty_false.
  - apply str_strip_idem.
Qed.

Lemma genre_rows_cons (r : joined) (df : list joined) :
  genre_rows (r :: df) = tagged r ++ genre_rows df.
Proof.
  unfold genre_rows. simpl. rewrite filter_app, flat_map_app. f_equal.
  unfold explode_row, tagged.
  pose proof (genre_tags_trimmed (fillna (j_genres r))) as Ht.
  destruct (genre_tags (fillna (j_genres r))) as [|g gs]; [reflexivity|].
  induction Ht as [|x l [Hx _] Hl IH]; [reflexivity|].
  cbn [map filter]. unfold has_genre at 1. cbn [snd].
  apply String.eqb_neq in Hx. rewrite Hx. cbn [negb flat_map snd fst app].
  now f_equal.
Qed.

Lemma genre_rows_spec (df : list joined) :
  genre_rows df = flat_map tagged df.
Proof.
  induction df as [|r df IH]; [reflexivity|].
  rewrite genre_rows_cons. simpl. now f_equal.
Qed.

Lemma map_filter_strip (ps : list string) :
  map str_strip (filter (fun g => negb (is_empty (str_strip g))) ps)
  = filter (fun g => negb (is_empty g)) (map str_strip ps).
Proof.
  induction ps as [|p ps IH]; simpl; [reflexivity|].
  destruct (is_empty (str_strip p)); simpl; now rewrite IH.
Qed.

Lemma title_tags_spec (t : title_doc) :
  genre_tags (fillna (cell_value (t_genres t))) = title_tags t.
Proof.
  unfold title_tags, genre_tags.
  destruct (t_genres t) as [| |s]; try reflexivity. simpl.
  destruct (String.eqb s EmptyString || String.eqb s "\N"); [reflexivity|].
  apply map_filter_strip.
Qed.

Lemma join_title_spec (ty : title_doc * pyval) (rs : list rating_doc) :
  join_title ty rs
  = map (join_row (fst ty) (snd ty)) (title_ratings (fst ty) rs).
Proof.
  unfold join_title, title_ratings, title_records.
  destruct (filter _ rs) as [|r ms]; [reflexivity|].
  now rewrite map_map.
Qed.

Lemma title_rows (t : title_doc) (y : pyval) (rs : list rating_doc) :
  genre_rows (join_title (t, y) rs)
  = flat_map (fun r => map (fun g => (g, r)) (title_tags t))
             (title_ratings t rs).
Proof.
  rewrite genre_rows_spec, join_title_spec. cbn [fst snd].
  induction (title_ratings t rs) as [|r l IH]; [reflexivity|].
  cbn [map flat_map]. rewrite IH. f_equal.
  unfold tagged. cbn [join_row j_genres j_rating].
  now rewrite title_tags_spec.
Qed.

(** C2, as amended. The genre string of a title is split into the
    list of its trimmed, non-empty tags, in the order of the string
    and with a tag written twice kept twice; nothing is split off a
    missing, null or empty genre field or one that is the sentinel.
    A title gives to the aggregation, for each rating value joined
    to it, one row for each entry of that list, in order, with that
    rating value: no row when the list is empty, and exactly as many
    rows as entries when at most one rating record has its key, each
    with the rating of that record (the missing value when there is
    none). The rows of the frame are the rows of the titles, one
    title after the other, in the joined frame as in the frame that
    stands for unreadable ratings. *)
Theorem genre_explosion :
  (forall t : title_doc,
      title_tags t
      = match t_genres t with
        | Val s =>
            if String.eqb s EmptyString || String.eqb s "\N" then []
            else filter (fun g => negb (is_empty g))
                        (map str_strip (str_split "," s))
        | Missing | Null => []
        end
      /\ Forall (fun g => g <> EmptyString /\ trimmed g) (title_tags t))
  /\ (forall (t : title_doc) (y : pyval) (rs : list rating_doc),
        genre_rows (join_title (t, y) rs)
        = flat_map (fun r => map (fun g => (g, r)) (title_tags t))
                   (title_ratings t rs))
  /\ (forall (t : title_doc) (y : pyval) (rs : list rating_doc),
        title_tags t = [] -> genre_rows (join_title (t, y) rs) = [])
  /\ (forall (t : title_doc) (y : pyval) (rs : list rating_doc),
        (List.length (title_records t rs) <= 1)%nat ->
        exists r : option rating,
          r = match title_records t rs with
              | r0 :: _ => cell_value (r_averageRating r0)
              | [] => None
              end
          /\ genre_rows (join_title (t, y) rs)
             = map (fun g => (g, r)) (title_tags t)
          /\ List.length (genre_rows (join_title (t, y) rs))
             = List.length (title_tags t))
  /\ (forall (df_t : list (title_doc * pyval)) (rs : list rating_doc)
             (m : list joined),
        merge_left df_t rs = Ok m ->
        genre_rows m
        = flat_map (fun ty => genre_rows (join_title ty rs)) df_t)
  /\ (forall df_t : list (title_doc * pyval),
        genre_rows (without_ratings df_t)
        = flat_map (fun ty => map (fun g => (g, None)) (title_tags (fst ty)))
                   df_t).
Proof.
  split; [|split; [|split; [|split; [|split]]]].
  - intros t. split; [reflexivity|].
    rewrite <- title_tags_spec. apply genre_tags_trimmed.
  - apply title_rows.
  - intros t y rs H. rewrite title_rows, H.
    induction (title_ratings t rs) as [|r l IH]; [reflexivity|exact IH].
  - intros t y rs H. rewrite title_rows. unfold title_ratings.
    destruct (title_records t rs) as [|r0 [|r1 ms]]; simpl in H; [| |lia];
      eexists; (split; [reflexivity|]); cbn [map flat_map];
      rewrite app_nil_r; (split; [reflexivity | apply length_map]).
  - intros df_t rs m. unfold merge_left.
    destruct (has_col t_tconst (map fst df_t) && has_col r_tconst rs);
      [|discriminate].
    intros [= <-]. rewrite genre_rows_spec.
    induction df_t as [|ty df_t IH]; [reflexivity|].
    cbn [flat_map]. rewrite flat_map_app, IH, genre_rows_spec. reflexivity.
  - intros df_t. rewrite genre_rows_spec. unfold without_ratings.
    induction df_t as [|ty df_t IH]; [reflexivity|].
    cbn [map flat_map]. rewrite IH. f_equal.
    unfold tagged. cbn [join_row j_genres j_rating].
    now rewrite title_tags_spec.
Qed.


Lemma rated_rows_app (a b : list (string * option rating)) :
  rated_rows (a ++ b) = rated_rows a ++ rated_rows b.
Proof. apply flat_map_app. Qed.

Lemma rated_rows_tagged (r : joined) :
  rated_rows (tagged r)
  = match j_rating r with
    | Some x => map (fun g => (g, x)) (genre_tags (fillna (j_genres r)))
    | None => []
    end.
Proof.
  unfold tagged, rated_rows.
  destruct (j_rating r) as [x|];
    induction (genre_tags (fillna (j_genres r))) as [|g gs IH]; simpl;
    try reflexivity; try assumption.
  now f_equal.
Qed.

Lemma rated_rows_ignore_unrated (df : list joined) :
  rated_rows (genre_rows df)
  = rated_rows (genre_rows (filter has_rating df)).
Proof.
  rewrite !genre_rows_spec.
  induction df as [|r df IH]; [reflexivity|].
  cbn [flat_map filter]. rewrite rated_rows_app, IH.
  unfold has_rating at 2.
  destruct (j_rating r) eqn:E.
  - cbn [flat_map]. now rewrite rated_rows_app.
  - rewrite rated_rows_tagged, E. reflexivity.
Qed.

Lemma rated_rows_In (df : list joined) (g : string) (x : rating) :
  In (g, x) (rated_rows (genre_rows df)) <->
  exists row : joined,
    In row df /\ j_rating row = Some x
    /\ In g (genre_tags (fillna (j_genres row))).
Proof.
  rewrite genre_rows_spec.
  induction df as [|r df IH]; simpl.
  - split; [intros [] | intros [row [[] _]]].
  - rewrite rated_rows_app, in_app_iff, IH, rated_rows_tagged. split.
    + intros [H|[row [H1 H2]]].
      * exists r. split; [left; reflexivity|].
        destruct (j_rating r) as [y|]; [|destruct H].
        apply in_map_iff in H as [g' [E Hg]].
        injection E as E1 E2. rewrite <- E1, <- E2. split; [reflexivity|].
        exact Hg.
      * exists row. split; [right; exact H1 | exact H2].
    + intros [row [[E|H1] [H2 H3]]].
      * left. rewrite E, H2. apply in_map_iff. exists g.
        split; [reflexivity | exact H3].
      * right. exists row. split; [exact H1|]. split; [exact H2 | exact H3].
Qed.

Lemma without_ratings_unrated (df_t : list (title_doc * pyval)) :
  rated_rows (genre_rows (without_ratings df_t)) = [].
Proof.
  rewrite rated_rows_ignore_unrated.
  assert (E : filter has_rating (without_ratings df_t) = []).
  { unfold without_ratings. induction df_t as [|ty l IH]; simpl; auto. }
  now rewrite E.
Qed.


Lemma groupby_mean_keys (rows : list (string * rating)) :
  map fst (groupby_mean rows) = sorted (fromkeys (map fst rows)).
Proof.
  unfold groupby_mean. rewrite map_map. simpl. apply map_id.
Qed.


Lemma coerce_years_ok (titles : list title_doc) :
  exists df_t : list (title_doc * pyval),
    coerce_years titles = Ok df_t /\ map fst df_t = titles.
Proof.
  induction titles as [|t ts [df_t [E Hm]]]; simpl.
  - now exists [].
  - rewrite coerce_year_spec, E. simpl. eexists. split; [reflexivity|].
    simpl. now f_equal.
Qed.

(** A table comes from a frame that the left join has made. *)
Lemma avg_rating_by_genre_last5_table (titles : list title_doc)
  (ratings : result (list rating_doc)) (rows : list (string * rating)) :
  avg_rating_by_genre_last5 titles ratings = Ok (Table rows) ->
  exists (df_t : list (title_doc * pyval)) (rs : list rating_doc)
         (df : list joined),
    coerce_years titles = Ok df_t
    /\ ratings = Ok rs
    /\ merge_left df_t rs = Ok df
    /\ rows
       = round_rows (sort_values (groupby_mean (rated_rows (genre_rows df)))).
Proof.
  unfold avg_rating_by_genre_last5.
  destruct titles as [|t ts]; [discriminate|].
  destruct (coerce_years (t :: ts)) as [df_t|e]; cbn [bind]; [|discriminate].
  destruct ratings as [rs|e]; cbn [bind try_except fst snd];
    [destruct (merge_left df_t rs) as [df|e] eqn:Em;
     cbn [bind try_except fst snd]|];
    rewrite ?without_ratings_unrated;
    (destruct (negb (has_col t_genres (t :: ts))); [discriminate|]);
    try (cbn; discriminate).
  destruct (negb (has_col r_averageRating rs)); [discriminate|].
  destruct (sort_values _) as [|r out] eqn:E; [discriminate|].
  intros H. injection H as <-.
  exists df_t, rs, df. repeat split; try reflexivity; try assumption.
  now rewrite E.
Qed.

(** The function returns a report whenever the titles have a genre
    column and the joined ratings have a rating column; when the
    ratings cannot be read or joined, the report is the one without
    ratings. *)
Lemma avg_rating_by_genre_last5_returns (titles : list title_doc)
  (rs : list rating_doc) :
  has_col t_genres titles = true ->
  has_col r_averageRating rs = true ->
  exists rep : report,
    avg_rating_by_genre_last5 titles (Ok rs) = Ok rep.
Proof.
  intros Hg Ha. unfold avg_rating_by_genre_last5.
  destruct titles as [|t ts]; [discriminate|].
  destruct (coerce_years_ok (t :: ts)) as [df_t [-> _]]. cbn [bind].
  destruct (merge_left df_t rs) as [m|e]; cbn [try_except bind fst snd];
    rewrite ?Hg, ?Ha; cbn [negb];
    match goal with
    | |- context [sort_values ?x] => destruct (sort_values x)
    end; eexists; reflexivity.
Qed.

Lemma avg_rating_by_genre_last5_degrades (titles : list title_doc) (e : exn) :
  titles <> [] ->
  has_col t_genres titles = true ->
  avg_rating_by_genre_last5 titles (Raise e) = Ok NoRatings.
Proof.
  intros Hne Hg. unfold avg_rating_by_genre_last5.
  destruct titles as [|t ts]; [congruence|].
  destruct (coerce_years_ok (t :: ts)) as [df_t [-> _]].
  cbn [bind try_except fst snd]. rewrite Hg. cbn [negb].
  now rewrite without_ratings_unrated.
Qed.

Lemma row_leb_before (a b : string * rating) :
  row_leb a b = true <-> row_before a b.
Proof.
  unfold row_leb, row_before, rating_ltb.
  destruct (rating_leb (snd a) (snd b)), (rating_leb (snd b) (snd a));
    simpl; split; intros H;
    repeat match goal with
           | H : _ \/ _ |- _ => destruct H
           | H : _ /\ _ |- _ => destruct H
           end;
    try discriminate; try (left; reflexivity);
    try (right; repeat split; assumption); try assumption.
Qed.

Lemma row_leb_total (a b : string * rating) :
  row_leb a b = true \/ row_leb b a = true.
Proof.
  unfold row_leb, rating_ltb.
  destruct (rating_leb (snd a) (snd b)), (rating_leb (snd b) (snd a));
    simpl; auto. apply str_leb_total.
Qed.

Lemma StronglySorted_impl {A : Type} (R R' : A -> A -> Prop) (l : list A) :
  (forall a b, R a b -> R' a b) -> StronglySorted R l -> StronglySorted R' l.
Proof.
  intros HR. induction 1 as [|x l Hs IH Hx]; constructor; [assumption|].
  eapply Forall_impl; [|exact Hx]. intros a. apply HR.
Qed.

Section RatingOrder.

(** The order of the ratings is total and transitive, as the order
    of the doubles that are not NaN is. *)
Hypothesis rating_leb_total :
  forall x y : rating, rating_leb x y = true \/ rating_leb y x = true.
Hypothesis rating_leb_trans :
  forall x y z : rating,
    rating_leb x y = true -> rating_leb y z = true -> rating_leb x z = true.

Lemma row_leb_trans (a b c : string * rating) :
  row_leb a b = true -> row_leb b c = true -> row_leb a c = true.
Proof using rating_leb_total rating_leb_trans.
  unfold row_leb, rating_ltb.
  pose proof (rating_leb_trans (snd a) (snd b) (snd c)) as T1.
  pose proof (rating_leb_trans (snd c) (snd b) (snd a)) as T2.
  pose proof (rating_leb_trans (snd b) (snd c) (snd a)) as T3.
  pose proof (rating_leb_trans (snd c) (snd a) (snd b)) as T4.
  pose proof (rating_leb_total (snd a) (snd c)) as T5.
  pose proof (rating_leb_total (snd a) (snd b)) as T7.
  pose proof (rating_leb_total (snd b) (snd c)) as T8.
  pose proof (rating_leb_trans (snd a) (snd c) (snd b)) as T9.
  pose proof (rating_leb_trans (snd b) (snd a) (snd c)) as T10.
  pose proof (str_leb_trans (fst a) (fst b) (fst c)) as T6.
  destruct (rating_leb (snd a) (snd b)), (rating_leb (snd b) (snd a)),
    (rating_leb (snd b) (snd c)), (rating_leb (snd c) (snd b)),
    (rating_leb (snd a) (snd c)), (rating_leb (snd c) (snd a));
    simpl; intuition congruence.
Qed.

Lemma sort_values_sorted (rows : list (string * rating)) :
  StronglySorted row_before (sort_values rows).
Proof using rating_leb_total rating_leb_trans.
  apply StronglySorted_impl with (R := fun a b => row_leb a b = true).
  - intros a b. apply row_leb_before.
  - apply sort_by_strongly_sorted; [apply row_leb_total | apply row_leb_trans].
Qed.

(** C3. The rows of the report are the grouped means sorted by
    descending mean, equal means by ascending genre, with the means
    at full precision as keys; each mean is rounded to two decimals
    after the sort, which the rounding does not reorder. *)
Theorem report_sorted_then_rounded (titles : list title_doc)
  (ratings : result (list rating_doc)) (rows : list (string * rating)) :
  avg_rating_by_genre_last5 titles ratings = Ok (Table rows) ->
  exists (df_t : list (title_doc * pyval)) (rs : list rating_doc)
         (df : list joined) (out : list (string * rating)),
    coerce_years titles = Ok df_t
    /\ ratings = Ok rs
    /\ merge_left df_t rs = Ok df
    /\ out = sort_values (groupby_mean (rated_rows (genre_rows df)))
    /\ Permutation out (groupby_mean (rated_rows (genre_rows df)))
    /\ StronglySorted row_before out
    /\ rows = map (fun r => (fst r, rating_round2 (snd r))) out.
Proof using rating_leb_total rating_leb_trans.
  intros H.
  apply avg_rating_by_genre_last5_table in H as [df_t [rs [df [H1 [H2 [H3 ->]]]]]].
  exists df_t, rs, df. eexists. repeat split; try eassumption.
  - apply sort_by_perm.
  - apply sort_values_sorted.
Qed.

End RatingOrder.


(* ================================================================= *)
(** ** Further properties of the provider normaliser *)

Lemma strictly_ascending_unique (l l' : list string) :
  strictly_ascending l -> strictly_ascending l' ->
  (forall n, In n l <-> In n l') -> l = l'.
Proof.
  intros H. revert l'.
  induction H as [|x l Hs IH Hx]; intros l' H' Hin.
  - destruct l' as [|y l']; [reflexivity|].
    destruct (proj2 (Hin y) (or_introl eq_refl)).
  - destruct H' as [|y l' Hs' Hy].
    + destruct (proj1 (Hin x) (or_introl eq_refl)).
    + rewrite Forall_forall in Hx, Hy.
      assert (E : x = y).
      { destruct (proj1 (Hin x) (or_introl eq_refl)) as [E|Hxl']; [now symmetry|].
        destruct (proj2 (Hin y) (or_introl eq_refl)) as [E|Hyl]; [assumption|].
        pose proof (str_ltb_trans _ _ _ (Hx y Hyl) (Hy x Hxl')) as C.
        rewrite str_ltb_irrefl in C. discriminate. }
      subst y. f_equal. apply IH; [assumption|].
      intros n. split; intros Hn.
      * destruct (proj1 (Hin n) (or_intror Hn)) as [E|Hn']; [|assumption].
        subst n. specialize (Hx x Hn). rewrite str_ltb_irrefl in Hx.
        discriminate.
      * destruct (proj2 (Hin n) (or_intror Hn)) as [E|Hn']; [|assumption].
        subst n. specialize (Hy x Hn). rewrite str_ltb_irrefl in Hy.
        discriminate.
Qed.

Lemma unique_sorted_ext (a b : list string) :
  (forall n, In n a <-> In n b) -> unique_sorted a = unique_sorted b.
Proof.
  intros H. apply strictly_ascending_unique; try apply unique_sorted_strict.
  intros n. rewrite !unique_sorted_In, H. tauto.
Qed.

Lemma names_of_In (xs : list pyval) (ns : list string) :
  names_of xs = Ok ns ->
  (forall x, In x xs -> exists a, provider_name x = Ok a)
  /\ forall n, In n ns <->
               exists x a, In x xs /\ provider_name x = Ok a /\ In n a.
Proof.
  revert ns. induction xs as [|x xs IH]; intros ns; simpl.
  - intros [= <-]. split; [intros x []|].
    intros n. split; [intros [] | intros [x [a [[] _]]]].
  - destruct (provider_name x) as [a|e] eqn:Ea; simpl; [|discriminate].
    destruct (names_of xs) as [b|e]; simpl; [|discriminate].
    intros [= <-]. destruct (IH b eq_refl) as [IH1 IH2]. split.
    + intros y [<-|Hy]; [eauto | now apply IH1].
    + intros n. rewrite in_app_iff, IH2. split.
      * intros [Hn|[y [a' [Hy [Ey Hn]]]]].
        -- exists x, a. auto.
        -- exists y, a'. auto.
      * intros [y [a' [[<-|Hy] [Ey Hn]]]].
        -- left. congruence.
        -- right. exists y, a'. auto.
Qed.

Lemma names_of_all (xs : list pyval) :
  (forall x, In x xs -> exists a, provider_name x = Ok a) ->
  exists ns, names_of xs = Ok ns.
Proof.
  induction xs as [|x xs IH]; intros H; simpl; [eauto|].
  destruct (H x (or_introl eq_refl)) as [a ->]. simpl.
  destruct IH as [b ->]; [|simpl; eauto].
  intros y Hy. apply H. now right.
Qed.

Lemma names_of_same_elements (xs ys : list pyval) (a : list string) :
  (forall x, In x xs <-> In x ys) ->
  names_of xs = Ok a ->
  exists b, names_of ys = Ok b /\ forall n, In n a <-> In n b.
Proof.
  intros H Ha. destruct (names_of_In xs a Ha) as [Hx Hn].
  destruct (names_of_all ys) as [b Hb].
  { intros y Hy. apply Hx. now apply H. }
  exists b. split; [assumption|].
  destruct (names_of_In ys b Hb) as [_ Hn'].
  intros n. rewrite Hn, Hn'.
  split; intros [x [c [Hin Hc]]]; exists x, c; split; try assumption;
    now apply H.
Qed.

(** X1. The normalised list depends only on which elements the
    input list has: after reordering the elements or repeating some
    of them the function returns the same list, when it returns one,
    and it raises when it raised, the exception being that of the
    first name, in the order of the list, that [str] refuses. *)
Theorem providers_to_list_order_independent (xs ys : list pyval) :
  (forall x, In x xs <-> In x ys) ->
  forall out : pyval,
    providers_to_list (PList xs) = Ok out
    <-> providers_to_list (PList ys) = Ok out.
Proof.
  assert (A : forall xs ys : list pyval,
             (forall x, In x xs <-> In x ys) ->
             forall out : pyval,
               providers_to_list (PList xs) = Ok out ->
               providers_to_list (PList ys) = Ok out).
  { clear. intros xs ys H out. rewrite !providers_to_list_spec.
    unfold pooled_names, offered.
    destruct (names_of xs) as [a|e] eqn:Ea; simpl; [|discriminate].
    destruct (names_of_same_elements xs ys a H Ea) as [b [-> Hab]].
    simpl. intros [= <-]. do 3 f_equal. symmetry.
    now apply unique_sorted_ext. }
  intros H out. split; apply A; [assumption|].
  intros x. symmetry. apply H.
Qed.

(** X2. A keyed structure is normalised as the flat list made of its
    flatrate, rent and buy lists, one after the other: a kind that is
    missing or is not a list counts for nothing, and so does any
    other key. *)
Theorem providers_to_list_keyed_as_flat (d : list (string * pyval)) :
  providers_to_list (PDict d)
  = providers_to_list
      (PList (kind_entries d "flatrate" ++ kind_entries d "rent"
              ++ kind_entries d "buy")).
Proof.
  rewrite !providers_to_list_spec. unfold pooled_names, offered.
  cbn [flat_map offer_kinds]. now rewrite app_nil_r.
Qed.

(* ================================================================= *)
(** ** Further properties of the provider payload *)

Lemma names_dict (d : list (string * pyval)) (kind : string) :
  names (PDict d) kind
  = if kind_iterable d kind
    then Ok (flat_map listed_name (entries_of (PDict d) kind))
    else Raise TypeError.
Proof.
  unfold names, entries_of, kind_iterable. simpl.
  destruct (assoc kind d) as [v|]; simpl; [|reflexivity].
  destruct v; simpl; try reflexivity; apply for_each_append_provider_name.
Qed.

(** X3. [format_providers_entry] raises [AttributeError] on an answer
    that is not an object, and [TypeError] on an object in which one
    of the three kinds is present with a value that cannot be walked
    through (null, a number, a boolean); otherwise it returns the
    five keys region, link, flatrate, rent, buy, with an empty list
    for a kind that is missing and null for a missing link. *)
Theorem format_providers_entry_outcome (p : pyval) :
  format_providers_entry p
  = match p with
    | PDict d =>
        if forallb (kind_iterable d) offer_kinds
        then Ok (PDict
                   [("region", PStr TMDB_REGION);
                    ("link", match assoc "link" d with
                             | Some l => l
                             | None => PNone
                             end);
                    ("flatrate",
                     PList (flat_map listed_name (entries_of p "flatrate")));
                    ("rent",
                     PList (flat_map listed_name (entries_of p "rent")));
                    ("buy",
                     PList (flat_map listed_name (entries_of p "buy")))])
        else Raise TypeError
    | _ => Raise AttributeError
    end.
Proof.
  destruct p as [| | | | | |d]; try reflexivity.
  unfold format_providers_entry. cbn [py_get bind].
  rewrite !names_dict. cbn [forallb offer_kinds].
  destruct (kind_iterable d "flatrate"); cbn [bind andb]; [|reflexivity].
  destruct (kind_iterable d "rent"); cbn [bind andb]; [|reflexivity].
  destruct (kind_iterable d "buy"); cbn [bind andb]; reflexivity.
Qed.

Lemma named_entry_names (xs : list pyval) :
  forallb named_entry xs = true ->
  names_of (flat_map listed_name xs) = names_of xs.
Proof.
  induction xs as [|x xs IH]; [reflexivity|].
  cbn [forallb flat_map]. intros H. apply andb_prop in H as [Hx Hxs].
  rewrite names_of_app, IH by assumption. cbn [names_of].
  destruct x as [| | | | | |d]; try discriminate.
  unfold named_entry in Hx. unfold listed_name, provider_name, converted.
  destruct (assoc "provider_name" d) as [[| | | |s| |]|]; try discriminate.
  cbn [truthy]. rewrite Hx. cbn [names_of provider_name py_str bind app].
  cbn [truthy]. rewrite Hx. cbn [py_str bind].
  now destruct (names_of xs).
Qed.

Lemma well_formed_kind_entries (d : list (string * pyval)) (kind : string) :
  well_formed_kind d kind = true ->
  kind_iterable d kind = true
  /\ entries_of (PDict d) kind = kind_entries d kind
  /\ forallb named_entry (kind_entries d kind) = true.
Proof.
  unfold well_formed_kind, kind_iterable, entries_of, kind_entries. simpl.
  destruct (assoc kind d) as [v|]; [|auto].
  destruct v; try discriminate. auto.
Qed.

Lemma pooled_names_payload (region link : pyval) (a b c : list pyval) :
  pooled_names
    (PDict [("region", region); ("link", link); ("flatrate", PList a);
            ("rent", PList b); ("buy", PList c)])
  = names_of (a ++ b ++ c).
Proof.
  unfold pooled_names, offered. cbn. now rewrite app_nil_r.
Qed.

(** X4. For an answer of the API in its documented shape, where each
    kind that is present is a list of objects with a non-empty string
    as [provider_name], the payload is built without an exception,
    and normalising the payload gives the same list as normalising
    the answer itself. *)
Theorem stored_offers_normalise_as_raw (p : pyval) :
  well_formed_offers p = true ->
  exists entry : pyval,
    format_providers_entry p = Ok entry
    /\ providers_to_list entry = providers_to_list p.
Proof.
  destruct p as [| | | | | |d]; try discriminate.
  cbn [well_formed_offers forallb offer_kinds]. intros H.
  apply andb_prop in H as [Hf H]. apply andb_prop in H as [Hr H].
  apply andb_prop in H as [Hb _].
  apply well_formed_kind_entries in Hf as [If [Ef Nf]].
  apply well_formed_kind_entries in Hr as [Ir [Er Nr]].
  apply well_formed_kind_entries in Hb as [Ib [Eb Nb]].
  unfold format_providers_entry. cbn [py_get bind].
  rewrite !names_dict, If, Ir, Ib. cbn [bind].
  eexists. split; [reflexivity|].
  rewrite !providers_to_list_spec. f_equal.
  rewrite Ef, Er, Eb, pooled_names_payload.
  rewrite <- !flat_map_app, named_entry_names.
  - unfold pooled_names, offered. cbn [offer_kinds flat_map].
    now rewrite app_nil_r.
  - rewrite !forallb_app, Nf, Nr, Nb. reflexivity.
Qed.

(* ================================================================= *)
(** ** Further properties of the writers *)

Lemma assoc_replace_key_other (k k' : string) (v : pyval)
  (d : list (string * pyval)) :
  k' <> k -> assoc k' (replace_key k v d) = assoc k' d.
Proof.
  intros Hne. induction d as [|[k0 v0] d IH]; simpl; [reflexivity|].
  destruct (String.eqb k k0) eqn:E; simpl.
  - apply String.eqb_eq in E. subst k0.
    apply String.eqb_neq in Hne. now rewrite Hne.
  - destruct (String.eqb k' k0); [reflexivity | exact IH].
Qed.

Lemma assoc_app_other (k k' : string) (v : pyval)
  (d : list (string * pyval)) :
  k' <> k -> assoc k' (d ++ [(k, v)]) = assoc k' d.
Proof.
  intros Hne. induction d as [|[k0 v0] d IH]; simpl.
  - apply String.eqb_neq in Hne. now rewrite Hne.
  - destruct (String.eqb k' k0); [reflexivity | exact IH].
Qed.

Lemma replace_key_same (k : string) (v : pyval) (d : list (string * pyval)) :
  assoc k d = Some v -> replace_key k v d = d.
Proof.
  induction d as [|[k0 v0] d IH]; simpl; [reflexivity|].
  destruct (String.eqb k k0).
  - intros H. injection H as ->. reflexivity.
  - intros H. f_equal. now apply IH.
Qed.

Lemma set_path_field_other (k k' : string) (rest : list string)
  (v d d' : pyval) :
  set_path (k :: rest) v d = Ok d' -> k' <> k -> field k' d' = field k' d.
Proof.
  cbn [set_path]. destruct (is_empty k); [discriminate|].
  destruct d as [| | | | | |dl]; try discriminate.
  destruct (assoc k dl) as [child|].
  - destruct (set_path rest v child) as [c|e]; cbn [bind]; [|discriminate].
    intros H Hne. injection H as <-. simpl.
    now apply assoc_replace_key_other.
  - destruct (set_path rest v (PDict [])) as [c|e]; cbn [bind]; [|discriminate].
    intros H Hne. injection H as <-. simpl. now apply assoc_app_other.
Qed.

(** A write leaves alone every path that parts from its own path. *)
Lemma set_path_get_other (pre : list string) (a b : string)
  (p q : list string) (v d d' : pyval) :
  set_path (pre ++ a :: p) v d = Ok d' -> a <> b ->
  get_path (pre ++ b :: q) d' = get_path (pre ++ b :: q) d.
Proof.
  revert d d'. induction pre as [|k pre IH]; intros d d' H Hne.
  - cbn [app get_path]. rewrite (set_path_field_other a b p v d d' H); auto.
  - cbn [app set_path] in H. cbn [app get_path].
    destruct (is_empty k); [discriminate|].
    destruct d as [| | | | | |dl]; try discriminate.
    destruct (assoc k dl) as [child|] eqn:Ea.
    + destruct (set_path (pre ++ a :: p) v child) as [c|e] eqn:Es;
        cbn [bind] in H; [|discriminate].
      injection H as <-. cbn [field].
      rewrite assoc_replace_key by congruence. rewrite Ea. now apply IH.
    + destruct (set_path (pre ++ a :: p) v (PDict [])) as [c|e] eqn:Es;
        cbn [bind] in H; [|discriminate].
      injection H as <-. cbn [field].
      rewrite assoc_app_new by assumption. rewrite Ea.
      rewrite (IH _ _ Es Hne). now destruct pre.
Qed.

Lemma set_path_get_other1 (k a b : string) (p q : list string)
  (v d d' : pyval) :
  set_path (k :: a :: p) v d = Ok d' -> a <> b ->
  get_path (k :: b :: q) d' = get_path (k :: b :: q) d.
Proof. apply (set_path_get_other [k]). Qed.

Lemma set_path_get_other2 (k1 k2 a b : string) (p q : list string)
  (v d d' : pyval) :
  set_path (k1 :: k2 :: a :: p) v d = Ok d' -> a <> b ->
  get_path (k1 :: k2 :: b :: q) d' = get_path (k1 :: k2 :: b :: q) d.
Proof. apply (set_path_get_other [k1; k2]). Qed.

(** Writing the value that a path already has changes nothing. *)
Lemma set_path_same (q : list string) (w d : pyval) :
  get_path q d = Some w ->
  Forall (fun k => is_empty k = false) q ->
  set_path q w d = Ok d.
Proof.
  revert d. induction q as [|k q IH]; intros d Hg Hk.
  - simpl in *. congruence.
  - inversion Hk as [|? ? Hk1 Hk2]; subst. cbn [set_path]. rewrite Hk1.
    cbn [get_path] in Hg. destruct d as [| | | | | |dl]; try discriminate.
    cbn [field] in Hg. destruct (assoc k dl) as [child|] eqn:Ea;
      [|discriminate].
    rewrite (IH child Hg Hk2). cbn [bind].
    now rewrite replace_key_same.
Qed.

Lemma set_path_keys (q : list string) (v d d' : pyval) :
  set_path q v d = Ok d' -> Forall (fun k => is_empty k = false) q.
Proof.
  revert d d'. induction q as [|k q IH]; intros d d' H; [constructor|].
  cbn [set_path] in H. destruct (is_empty k) eqn:Ek; [discriminate|].
  constructor; [assumption|].
  destruct d as [| | | | | |dl]; try discriminate.
  destruct (assoc k dl) as [child|].
  - destruct (set_path q v child) as [c|e] eqn:Es; [|discriminate]. eauto.
  - destruct (set_path q v (PDict [])) as [c|e] eqn:Es; [|discriminate]. eauto.
Qed.

Lemma providers_path_shape :
  providers_path = "tmdb" :: "providers" :: str_split "." TMDB_REGION.
Proof. reflexivity. Qed.

Lemma str_split_cons (sep : ascii) (s : string) :
  exists p ps, str_split sep s = p :: ps.
Proof.
  induction s as [|c r [p [ps E]]]; simpl; [eauto|].
  destruct (Ascii.eqb c sep); [eauto|]. rewrite E. eauto.
Qed.

(** The rewriting that [update_movie_with_tmdb] applies to the
    document it selects. *)
Lemma tmdb_update_spec (tmdb_id : Z) (providers d d' : pyval) :
  (d1 <- set_path (dotted "tmdb.id") (PInt tmdb_id) d ;;
   set_path providers_path providers d1) = Ok d' ->
  (forall k, k <> "tmdb" -> field k d' = field k d)
  /\ get_path ["tmdb"; "id"] d' = Some (PInt tmdb_id)
  /\ get_path providers_path d' = Some providers
  /\ (forall r q,
         r <> hd EmptyString (str_split "." TMDB_REGION) ->
         get_path ("tmdb" :: "providers" :: r :: q) d'
         = get_path ("tmdb" :: "providers" :: r :: q) d)
  /\ (d1 <- set_path (dotted "tmdb.id") (PInt tmdb_id) d' ;;
      set_path providers_path providers d1) = Ok d'.
Proof.
  change (dotted "tmdb.id") with ["tmdb"; "id"].
  destruct (set_path ["tmdb"; "id"] (PInt tmdb_id) d) as [d1|e] eqn:E1;
    cbn [bind]; [|discriminate].
  intros E2.
  pose proof (get_set_path _ _ _ _ E1) as G1.
  pose proof (get_set_path _ _ _ _ E2) as G2.
  assert (Gid : get_path ["tmdb"; "id"] d' = Some (PInt tmdb_id)).
  { rewrite <- G1. rewrite providers_path_shape in E2.
    destruct (str_split_cons "." TMDB_REGION) as [r0 [rs Er]].
    rewrite Er in E2.
    apply (set_path_get_other1 "tmdb" "providers" "id" (r0 :: rs) [] _ _ _ E2).
    discriminate. }
  split; [|split; [exact Gid|split; [exact G2|split]]].
  - intros k Hk.
    rewrite providers_path_shape in E2.
    rewrite (set_path_field_other _ _ _ _ _ _ E2 Hk).
    apply (set_path_field_other _ _ _ _ _ _ E1 Hk).
  - intros r q Hr. rewrite providers_path_shape in E2.
    destruct (str_split_cons "." TMDB_REGION) as [r0 [rs Er]].
    rewrite Er in E2, Hr. cbn [hd] in Hr.
    rewrite (set_path_get_other2 "tmdb" "providers" r0 r rs q _ _ _ E2)
      by congruence.
    apply (set_path_get_other1 "tmdb" "id" "providers" [] (r :: q) _ _ _ E1).
    discriminate.
  - rewrite (set_path_same ["tmdb"; "id"] _ _ Gid)
      by (repeat constructor).
    cbn [bind]. apply set_path_same; [exact G2|].
    exact (set_path_keys _ _ _ _ E2).
Qed.

Lemma update_one_first (sel : pyval -> bool) (upd : pyval -> result pyval)
  (c c' : collection) :
  update_one sel upd c = Ok c' ->
  (c' = c /\ forall d, In d c -> sel d = false)
  \/ exists (pre : collection) (d d' : pyval) (post : collection),
       c = pre ++ d :: post /\ c' = pre ++ d' :: post
       /\ (forall x, In x pre -> sel x = false)
       /\ sel d = true /\ upd d = Ok d'.
Proof.
  revert c'. induction c as [|d c IH]; intros c'; simpl.
  - intros H. injection H as <-. left. split; [reflexivity | intros d []].
  - destruct (sel d) eqn:Es.
    + destruct (upd d) as [d'|e] eqn:Eu; cbn [bind]; [|discriminate].
      intros H. injection H as <-. right.
      exists [], d, d', c. repeat split; auto. intros x [].
    + destruct (update_one sel upd c) as [c''|e]; cbn [bind]; [|discriminate].
      intros H. injection H as <-.
      destruct (IH c'' eq_refl) as [[-> Hn]|[pre [x [x' [post H]]]]].
      * left. split; [reflexivity|]. intros y [<-|Hy]; auto.
      * destruct H as [-> [-> [Hp [Hs Hu]]]]. right.
        exists (d :: pre), x, x', post. repeat split; auto.
        intros y [<-|Hy]; auto.
Qed.

Lemma update_movie_with_tmdb_scope_aux (c c' : collection) (mongo_id : pyval)
  (tmdb_id : Z) (providers : pyval) :
  update_movie_with_tmdb c mongo_id tmdb_id providers = Ok c' ->
  (c' = c /\ forall d, In d c -> mongo_eq (field "_id" d) mongo_id = false)
  \/ exists (pre : collection) (d d' : pyval) (post : collection),
       c = pre ++ d :: post /\ c' = pre ++ d' :: post
       /\ get_path ["tmdb"; "id"] d' = Some (PInt tmdb_id).
Proof.
  intros H. apply update_one_first in H.
  destruct H as [H|[pre [d [d' [post [E1 [E2 [Hp [Hs Hu]]]]]]]]];
    [now left | right].
  apply tmdb_update_spec in Hu as [Hk [Hi [Hpv _]]].
  exists pre, d, d', post. repeat split; assumption.
Qed.

(** X5. [update_movie_with_tmdb] never adds or removes a document.
    Without a document of the given id the collection stays as it is;
    otherwise only the first such document changes, and in it only
    the field tmdb, where tmdb.id is the given id and the providers
    of the region are the given set. *)
Theorem update_movie_with_tmdb_scope (c c' : collection) (mongo_id : pyval)
  (tmdb_id : Z) (providers : pyval) :
  update_movie_with_tmdb c mongo_id tmdb_id providers = Ok c' ->
  (c' = c /\ forall d, In d c -> mongo_eq (field "_id" d) mongo_id = false)
  \/ exists (pre : collection) (d d' : pyval) (post : collection),
       c = pre ++ d :: post /\ c' = pre ++ d' :: post
       /\ (forall x, In x pre -> mongo_eq (field "_id" x) mongo_id = false)
       /\ mongo_eq (field "_id" d) mongo_id = true
       /\ (forall k, k <> "tmdb" -> field k d' = field k d)
       /\ get_path ["tmdb"; "id"] d' = Some (PInt tmdb_id)
       /\ get_path providers_path d' = Some providers.
Proof.
  intros H. apply update_one_first in H.
  destruct H as [H|[pre [d [d' [post [E1 [E2 [Hp [Hs Hu]]]]]]]]];
    [now left | right].
  apply tmdb_update_spec in Hu as [Hk [Hi [Hpv _]]].
  exists pre, d, d', post. repeat split; assumption.
Qed.

(** X6. Both writers leave the providers of every other region as
    they were, in every document. *)
Theorem writers_keep_other_regions (c c1 c2 : collection) (mongo_id : pyval)
  (tmdb_id : Z) (providers : pyval) :
  update_movie_with_tmdb c mongo_id tmdb_id providers = Ok c1 ->
  update_by_tmdb_id c tmdb_id providers = Ok c2 ->
  forall (r : string) (q : list string),
    r <> hd EmptyString (str_split "." TMDB_REGION) ->
    Forall2 (fun d d' => get_path ("tmdb" :: "providers" :: r :: q) d'
                         = get_path ("tmdb" :: "providers" :: r :: q) d)
            c c1
    /\ Forall2 (fun d d' => get_path ("tmdb" :: "providers" :: r :: q) d'
                            = get_path ("tmdb" :: "providers" :: r :: q) d)
               c c2.
Proof.
  intros H1 H2 r q Hr. split.
  - apply update_one_spec in H1. eapply Forall2_impl; [|exact H1].
    intros d d' Hd. cbv beta in Hd. destruct Hd as [->|[_ Hu]]; [reflexivity|].
    apply tmdb_update_spec in Hu as [_ [_ [_ [Ho _]]]]. now apply Ho.
  - apply update_many_spec in H2. eapply Forall2_impl; [|exact H2].
    intros d d' Hd. cbv beta in Hd.
    destruct (mongo_eq (get_path (dotted "tmdb.id") d) (PInt tmdb_id));
      [|now subst].
    rewrite providers_path_shape in Hd.
    destruct (str_split_cons "." TMDB_REGION) as [r0 [rs Er]].
    rewrite Er in Hd, Hr. cbn [hd] in Hr.
    apply (set_path_get_other2 "tmdb" "providers" r0 r rs q _ _ _ Hd).
    congruence.
Qed.

Lemma update_one_fixed (sel : pyval -> bool) (upd : pyval -> result pyval)
  (pre : collection) (d : pyval) (post : collection) :
  (forall x, In x pre -> sel x = false) -> sel d = true -> upd d = Ok d ->
  update_one sel upd (pre ++ d :: post) = Ok (pre ++ d :: post).
Proof.
  intros Hp Hs Hu. induction pre as [|x pre IH]; simpl.
  - now rewrite Hs, Hu.
  - rewrite (Hp x) by now left. rewrite IH; [reflexivity|].
    intros y Hy. apply Hp. now right.
Qed.

Lemma update_one_none (sel : pyval -> bool) (upd : pyval -> result pyval)
  (c : collection) :
  (forall d, In d c -> sel d = false) -> update_one sel upd c = Ok c.
Proof.
  induction c as [|d c IH]; intros H; simpl; [reflexivity|].
  rewrite (H d) by now left. rewrite IH; [reflexivity|].
  intros y Hy. apply H. now right.
Qed.

(** X7. [update_movie_with_tmdb] is idempotent: applied again with
    the same arguments to the collection it has written, it succeeds
    and leaves that collection as it is. *)
Theorem update_movie_with_tmdb_idempotent (c c' : collection)
  (mongo_id : pyval) (tmdb_id : Z) (providers : pyval) :
  update_movie_with_tmdb c mongo_id tmdb_id providers = Ok c' ->
  update_movie_with_tmdb c' mongo_id tmdb_id providers = Ok c'.
Proof.
  intros H. unfold update_movie_with_tmdb in *.
  apply update_one_first in H.
  destruct H as [[-> Hn]|[pre [d [d' [post [-> [-> [Hp [Hs Hu]]]]]]]]].
  - now apply update_one_none.
  - apply tmdb_update_spec in Hu as [Hk [_ [_ [_ Hi]]]].
    apply update_one_fixed; [assumption| |assumption].
    rewrite Hk; [assumption | discriminate].
Qed.

(** X8. A refresh by external id reaches the document that
    [update_movie_with_tmdb] has written with that id: when the
    catalogue has a document of the given id, after
    [update_by_tmdb_id] some document has both that external id and
    the new set as providers of the region; no document is added or
    removed. *)
Theorem update_by_tmdb_id_reaches_written (c c1 c2 : collection)
  (mongo_id : pyval) (tmdb_id : Z) (first_set new_set : pyval) :
  update_movie_with_tmdb c mongo_id tmdb_id first_set = Ok c1 ->
  update_by_tmdb_id c1 tmdb_id new_set = Ok c2 ->
  (exists d, In d c /\ mongo_eq (field "_id" d) mongo_id = true) ->
  List.length c2 = List.length c
  /\ exists d2 : pyval,
       In d2 c2
       /\ get_path ["tmdb"; "id"] d2 = Some (PInt tmdb_id)
       /\ get_path providers_path d2 = Some new_set.
Proof.
  intros H1 H2 [d0 [Hin Hsel]].
  pose proof (update_one_spec _ _ _ _ H1) as L1.
  apply Forall2_length in L1.
  apply update_movie_with_tmdb_scope_aux in H1.
  destruct H1 as [[_ Hn]|[pre [d [d' [post [_ [-> Hi]]]]]]];
    [rewrite (Hn d0 Hin) in Hsel; discriminate|].
  apply update_many_spec in H2.
  split; [apply Forall2_length in H2; congruence|].
  apply Forall2_app_inv_l in H2 as [pre2 [rest2 [_ [H2 ->]]]].
  inversion H2 as [|? d2 ? post2 Hd _]; subst. cbv beta in Hd.
  change (dotted "tmdb.id") with ["tmdb"; "id"] in Hd. rewrite Hi in Hd.
  cbn [mongo_eq scalar_eqb] in Hd. rewrite Z.eqb_refl in Hd.
  exists d2. split; [apply in_or_app; right; now left|]. split.
  - rewrite <- Hi. rewrite providers_path_shape in Hd.
    destruct (str_split_cons "." TMDB_REGION) as [r0 [rs Er]].
    rewrite Er in Hd.
    apply (set_path_get_other1 "tmdb" "providers" "id" (r0 :: rs) [] _ _ _ Hd).
    discriminate.
  - now apply get_set_path in Hd.
Qed.

(* ================================================================= *)
(** ** Further properties of the lookups and of the summary row *)

Lemma find_pointwise {A : Type} (f g : A -> bool) (l : list A) :
  (forall x, f x = g x) -> find f l = find g l.
Proof.
  intros H. induction l as [|x l IH]; simpl; [reflexivity|].
  rewrite H, IH. reflexivity.
Qed.

Lemma title_query_literal (title : string) (year : Z) (doc : pyval) :
  title_query (literal_items title, true) year doc
  = exact_query title year doc.
Proof.
  unfold title_query, exact_query. do 2 f_equal.
  unfold mongo_regex, title_matches. cbn [fst snd].
  destruct (field "primaryTitle" doc) as [v|]; [|reflexivity].
  assert (H : forall x : pyval,
             match x with
             | PStr s => match_items (literal_items title) true s
             | _ => false
             end
             = match x with
               | PStr s => same_title title s
               | _ => false
               end).
  { intros x. destruct x; try reflexivity. apply match_literal_items. }
  destruct v as [| | | |s|l|]; cbv zeta; try reflexivity.
  - apply match_literal_items.
  - induction l as [|x l IH]; simpl; [reflexivity|]. now rewrite H, IH.
Qed.

(** X9. [find_film] is an exact lookup for every title: it returns
    the first document whose type is movie, whose year is the given
    one, and whose title is the given one case apart (a final
    newline in the stored title aside); the characters of the title
    are never read as a pattern, and [None] is returned when there
    is no such document. *)
Theorem find_film_is_exact (c : collection) (title : string) (year : Z) :
  find_film c title year = Some (find (exact_query title year) c).
Proof.
  unfold find_film. rewrite compile_re_escape. f_equal.
  apply find_pointwise. intros doc. apply title_query_literal.
Qed.

(** X10. For a title without a character that is special in a
    pattern, Fight Club among them, the lookup of
    [show_fight_club_row] is the same exact lookup, and returns what
    [find_film] returns. *)
Theorem show_fight_club_row_find_exact_on_plain (col_titles : collection)
  (title : string) (year : Z) :
  plain_title title = true ->
  show_fight_club_row_find col_titles title year
  = Some (find (exact_query title year) col_titles)
  /\ show_fight_club_row_find col_titles title year
     = find_film col_titles title year.
Proof.
  intros H.
  assert (E : compile ("^" ++ title ++ "$") = Some (literal_items title, true)).
  { simpl. rewrite tokens_plain by assumption. apply parse_literal_items. }
  unfold show_fight_club_row_find, find_film.
  rewrite E, compile_re_escape. split; [|reflexivity].
  f_equal. apply find_pointwise. intros doc. apply title_query_literal.
Qed.

(** X11. The rating of the summary never makes the report fail: the
    lookup of the rating returns a value whatever the rating
    collection and the document are, and a rating collection that
    cannot be read gives the same report as an empty one. *)
Theorem show_fight_club_row_absorbs_ratings (col_titles : collection)
  (title : string) (year : Z) (region : string) (e : exn) :
  (forall (col_ratings : result collection) (doc : pyval),
      exists v : pyval, show_fight_club_row_rating col_ratings doc = Ok v)
  /\ show_fight_club_row col_titles (Raise e) title year region
     = show_fight_club_row col_titles (Ok []) title year region.
Proof.
  split.
  - intros cr doc. unfold show_fight_club_row_rating.
    destruct cr as [rs|e']; cbn [bind try_except];
      [|eexists; reflexivity].
    destruct (py_get doc "tconst" PNone) as [t|e']; cbn [bind try_except];
      [|eexists; reflexivity].
    destruct (_ && _); cbn [try_except]; [|eexists; reflexivity].
    destruct (find _ rs); cbn [try_except]; eexists; reflexivity.
  - unfold show_fight_club_row.
    destruct (show_fight_club_row_find col_titles title year) as [[doc|]|];
      try reflexivity.
    f_equal. unfold show_fight_club_row_rating. cbn [bind try_except].
    destruct (py_get doc "tconst" PNone); reflexivity.
Qed.

(** X12. The providers of the summary are read without an exception
    exactly from a document whose tmdb field is missing or an object
    in which providers is missing, falsy or an object; the result is
    then the normalised list of the entry of the region, the empty
    list when there is none. Any other document, one with a null
    tmdb field for instance, makes the report raise
    [AttributeError]. *)
Theorem show_fight_club_row_providers_outcome (doc : pyval)
  (region : string) :
  show_fight_club_row_providers doc region
  = if readable_providers doc
    then providers_to_list (region_offers doc region)
    else Raise AttributeError.
Proof.
  unfold show_fight_club_row_providers, readable_providers, region_offers.
  destruct doc as [| | | | | |d]; try reflexivity. cbn [py_get bind].
  destruct (assoc "tmdb" d) as [t|]; [|reflexivity].
  destruct t as [| | | | | |t]; try reflexivity. cbn [py_get bind].
  destruct (assoc "providers" t) as [ps|]; [|reflexivity].
  unfold py_or.
  destruct ps as [|b|z|f|s|l|ps]; cbn [truthy isinstance_dict negb orb].
  - reflexivity.
  - destruct b; reflexivity.
  - destruct (negb (z =? 0)); reflexivity.
  - destruct (float_truthy f); reflexivity.
  - destruct (negb (is_empty s)); reflexivity.
  - destruct l; reflexivity.
  - destruct ps; reflexivity.
Qed.

(** X13. The sentinel coercions are stable on their own results:
    coercing a coerced year, with either function, gives the same
    year again. *)
Theorem coerce_year_stable (v : pyobj) :
  (r <- coerce_year v ;; coerce_year (Plain r)) = coerce_year v
  /\ (r <- coerce_year v ;; to_int_or_none (Plain r)) = coerce_year v
  /\ (r <- to_int_or_none v ;; to_int_or_none (Plain r))
     = to_int_or_none v.
Proof.
  rewrite coerce_year_outcome, to_int_or_none_outcome.
  destruct (py_in v sentinels) as [[|]|e]; cbn [bind];
    rewrite ?to_int_or_none_spec, ?coerce_year_spec; auto.
  destruct (int_of v); auto.
Qed.

(* ================================================================= *)
(** ** Further properties of the genre aggregation *)

Lemma str_split_app (sep : ascii) (a b : string) :
  str_split sep (a ++ String sep b) = str_split sep a ++ str_split sep b.
Proof.
  induction a as [|c r IH]; cbn [append str_split].
  - now rewrite Ascii.eqb_refl.
  - destruct (Ascii.eqb c sep); [now rewrite IH|].
    rewrite IH. destruct (str_split_cons sep r) as [p [ps ->]]. reflexivity.
Qed.

Lemma not_sentinel_with_comma (a b : string) :
  String.eqb (a ++ String "," b) EmptyString
  || String.eqb (a ++ String "," b) "\N" = false.
Proof.
  destruct a as [|c1 [|c2 [|c3 a]]]; cbn [append]; try reflexivity.
  - cbn [String.eqb orb]. destruct (Ascii.eqb c1 _); [|reflexivity].
    reflexivity.
  - cbn [String.eqb orb]. destruct (Ascii.eqb c1 _); [|reflexivity].
    destruct (Ascii.eqb c2 _); reflexivity.
  - cbn [String.eqb orb]. destruct (Ascii.eqb c1 _); [|reflexivity].
    destruct (Ascii.eqb c2 _); reflexivity.
Qed.

Lemma genre_tags_pieces (s : string) :
  String.eqb s "\N" = false ->
  genre_tags s
  = map str_strip
      (filter (fun g => negb (is_empty (str_strip g))) (str_split "," s)).
Proof.
  intros H. unfold genre_tags. rewrite H.
  destruct (String.eqb s EmptyString) eqn:E; [|reflexivity].
  apply String.eqb_eq in E. subst s. reflexivity.
Qed.

Lemma genre_tags_comma (a b : string) :
  String.eqb a "\N" = false -> String.eqb b "\N" = false ->
  genre_tags (a ++ String "," b) = genre_tags a ++ genre_tags b.
Proof.
  intros Ha Hb. rewrite (genre_tags_pieces a Ha), (genre_tags_pieces b Hb).
  unfold genre_tags. rewrite not_sentinel_with_comma.
  now rewrite str_split_app, filter_app, map_app.
Qed.

(** X14. The tags of two genre strings joined by a comma are the tags
    of the first followed by the tags of the second, as long as
    neither string is the sentinel [\N]: the sentinel stands for no
    genre only when it is the whole field. *)
Theorem genre_tags_of_joined (a b : string) :
  a <> "\N" -> b <> "\N" ->
  genre_tags (a ++ "," ++ b) = genre_tags a ++ genre_tags b.
Proof.
  intros Ha Hb. apply genre_tags_comma; now apply String.eqb_neq.
Qed.

Lemma str_split_no_comma (s : string) :
  no_comma s = true -> str_split "," s = [s].
Proof.
  induction s as [|c r IH]; cbn [no_comma str_split]; [reflexivity|].
  intros H. apply andb_prop in H as [Hc Hr].
  apply negb_true_iff in Hc. rewrite Hc, (IH Hr). reflexivity.
Qed.

Lemma genre_tags_clean (g : string) :
  clean_tag g = true -> g <> "\N" -> genre_tags g = [g].
Proof.
  unfold clean_tag. intros H Hs.
  apply andb_prop in H as [H Hc]. apply andb_prop in H as [Hn Ht].
  apply String.eqb_eq in Ht. apply String.eqb_neq in Hs.
  rewrite (genre_tags_pieces g Hs), (str_split_no_comma g Hc).
  cbn [filter]. rewrite Ht, Hn. cbn [map]. now rewrite Ht.
Qed.

Lemma clean_tag_not_sentinel_joined (g : string) (gs : list string) :
  String.eqb (String.concat "," (g :: gs)) "\N" = false \/ gs = [].
Proof.
  destruct gs as [|g' gs]; [now right|left].
  cbn [String.concat].
  pose proof (not_sentinel_with_comma g (String.concat "," (g' :: gs))) as H.
  apply orb_false_elim in H as [_ H]. exact H.
Qed.

Lemma genre_tags_concat (tags : list string) :
  Forall (fun g => clean_tag g = true /\ g <> "\N") tags ->
  genre_tags (String.concat "," tags) = tags.
Proof.
  induction 1 as [|g gs [Hg Hs] Hgs IH]; [reflexivity|].
  destruct gs as [|g' gs]; [now apply genre_tags_clean|].
  change (String.concat "," (g :: g' :: gs))
    with (g ++ String "," (String.concat "," (g' :: gs)))%string.
  rewrite genre_tags_comma.
  - rewrite IH, genre_tags_clean by assumption. reflexivity.
  - now apply String.eqb_neq.
  - destruct (clean_tag_not_sentinel_joined g' gs) as [E|E]; [exact E|].
    subst gs. cbn [String.concat].
    inversion Hgs as [|? ? [_ Hs'] _]; subst. now apply String.eqb_neq.
Qed.

(** X15. Splitting undoes joining: for tags that are trimmed, not
    empty, without a comma and other than the sentinel [\N], the tags
    of their comma-separated string are those tags, in order. *)
Theorem genre_tags_of_concat (tags : list string) :
  Forall (fun g => clean_tag g = true /\ g <> "\N") tags ->
  genre_tags (String.concat "," tags) = tags.
Proof. apply genre_tags_concat. Qed.

Lemma merge_left_unjoinable (titles : list title_doc)
  (df_t : list (title_doc * pyval)) (rs : list rating_doc) :
  map fst df_t = titles ->
  merge_left df_t rs
  = if joinable titles (Ok rs)
    then Ok (flat_map (fun ty => join_title ty rs) df_t)
    else Raise KeyError.
Proof. intros <-. reflexivity. Qed.

Lemma sort_values_nil (rows : list (string * rating)) :
  sort_values rows = [] -> rows = [].
Proof.
  intros H. pose proof (sort_by_perm row_leb rows) as P.
  unfold sort_values in H. rewrite H in P.
  now apply Permutation_nil in P.
Qed.

(** The outcome of the function, with the frame of the join. *)
Lemma avg_rating_by_genre_last5_outcome (t : title_doc) (ts : list title_doc)
  (ratings : result (list rating_doc)) :
  exists df_t : list (title_doc * pyval),
    coerce_years (t :: ts) = Ok df_t
    /\ map fst df_t = t :: ts
    /\ avg_rating_by_genre_last5 (t :: ts) ratings
       = if missing_column (t :: ts) ratings then Raise KeyError
         else
           match ratings with
           | Ok rs =>
               if joinable (t :: ts) ratings then
                 match
                   sort_values
                     (groupby_mean
                        (rated_rows
                           (genre_rows
                              (flat_map (fun ty => join_title ty rs) df_t))))
                 with
                 | [] => Ok NoRatings
                 | r :: out => Ok (Table (round_rows (r :: out)))
                 end
               else Ok NoRatings
           | Raise _ => Ok NoRatings
           end.
Proof.
  destruct (coerce_years_ok (t :: ts)) as [df_t [E Hm]].
  exists df_t. split; [exact E|]. split; [exact Hm|].
  unfold avg_rating_by_genre_last5. rewrite E. cbn [bind].
  unfold missing_column.
  destruct ratings as [rs|e]; cbn [bind try_except fst snd].
  - rewrite (merge_left_unjoinable (t :: ts) df_t rs Hm).
    destruct (joinable (t :: ts) (Ok rs)); cbn [bind try_except fst snd andb].
    + destruct (has_col t_genres (t :: ts)); cbn [negb orb]; [|reflexivity].
      destruct (has_col r_averageRating rs); cbn [negb]; [|reflexivity].
      destruct (sort_values _); reflexivity.
    + rewrite without_ratings_unrated.
      destruct (has_col t_genres (t :: ts)); reflexivity.
  - rewrite without_ratings_unrated.
    destruct (has_col t_genres (t :: ts)); reflexivity.
Qed.

(** X16. When the ratings cannot be read, or cannot be joined because
    the rating collection is empty or one side has no tconst key,
    the report for a non-empty list of titles with a genres key says
    that there are no ratings; it does not fail. *)
Theorem avg_rating_by_genre_last5_without_ratings
  (titles : list title_doc) (ratings : result (list rating_doc)) :
  titles <> [] ->
  has_col t_genres titles = true ->
  joinable titles ratings = false ->
  avg_rating_by_genre_last5 titles ratings = Ok NoRatings.
Proof.
  intros Hne Hg Hj. destruct titles as [|t ts]; [congruence|].
  destruct (avg_rating_by_genre_last5_outcome t ts ratings)
    as [df_t [_ [_ ->]]].
  unfold missing_column. rewrite Hg, Hj. cbn [negb orb andb].
  destruct ratings; reflexivity.
Qed.


Lemma round_rows_keys (rows : list (string * rating)) :
  map fst (round_rows rows) = map fst rows.
Proof. unfold round_rows. rewrite map_map. reflexivity. Qed.

Lemma rated_rows_keys (df : list joined) (g : string) :
  In g (map fst (rated_rows (genre_rows df))) <->
  exists row : joined,
    In row df /\ has_rating row = true
    /\ In g (genre_tags (fillna (j_genres row))).
Proof.
  rewrite in_map_iff. split.
  - intros [[g' x] [E H]]. simpl in E. subst g'.
    apply rated_rows_In in H as [row [H1 [H2 H3]]].
    exists row. unfold has_rating. rewrite H2. auto.
  - intros [row [H1 [H2 H3]]]. unfold has_rating in H2.
    destruct (j_rating row) as [x|] eqn:E; [|discriminate].
    exists (g, x). split; [reflexivity|].
    apply rated_rows_In. exists row. auto.
Qed.

(** X18. In a table of the report every genre has one row only, and
    the genres of the table are exactly the tags of the joined rows
    that have a rating: a genre without a rated title has no row,
    and a table is never empty. *)
Theorem report_genres (titles : list title_doc)
  (ratings : result (list rating_doc)) (rows : list (string * rating)) :
  avg_rating_by_genre_last5 titles ratings = Ok (Table rows) ->
  rows <> []
  /\ NoDup (map fst rows)
  /\ exists (df_t : list (title_doc * pyval)) (rs : list rating_doc)
            (df : list joined),
       coerce_years titles = Ok df_t
       /\ ratings = Ok rs
       /\ merge_left df_t rs = Ok df
       /\ forall g : string,
            In g (map fst rows) <->
            exists row : joined,
              In row df /\ has_rating row = true
              /\ In g (genre_tags (fillna (j_genres row))).
Proof.
  intros H.
  assert (Hne : rows <> []).
  { destruct titles as [|t ts]; [discriminate|].
    destruct (avg_rating_by_genre_last5_outcome t ts ratings)
      as [df_t [_ [_ E]]].
    rewrite E in H. clear E.
    destruct (missing_column (t :: ts) ratings); [discriminate|].
    destruct ratings as [rs|e]; [|discriminate].
    destruct (joinable (t :: ts) (Ok rs)); [|discriminate].
    destruct (sort_values _); [discriminate|].
    injection H as <-. discriminate. }
  apply avg_rating_by_genre_last5_table in H
    as [df_t [rs [df [H1 [H2 [H3 Hr]]]]]].
  assert (P : Permutation (map fst rows)
                (sorted (fromkeys
                           (map fst (rated_rows (genre_rows df)))))).
  { rewrite Hr, round_rows_keys, <- groupby_mean_keys.
    apply Permutation_map. apply sort_by_perm. }
  assert (K : forall g, In g (map fst rows) <->
                        In g (map fst (rated_rows (genre_rows df)))).
  { intros g.
    rewrite <- (fromkeys_In (map fst (rated_rows (genre_rows df)))).
    rewrite <- (sort_by_In str_leb (fromkeys _)).
    split; apply Permutation_in; [exact P | symmetry; exact P]. }
  split; [|split].
  - exact Hne.
  - eapply Permutation_NoDup; [symmetry; exact P|].
    unfold sorted. eapply Permutation_NoDup;
      [symmetry; apply sort_by_perm | apply fromkeys_NoDup].
  - exists df_t, rs, df. repeat split; try assumption.
    + intros Hg. apply rated_rows_keys. now apply K.
    + intros Hg. apply K. now apply rated_rows_keys.
Qed.


(* ================================================================= *)
(** ** The run of [main] *)

Lemma find_exact_query (title : string) (year : Z) (c : collection) :
  find (title_query (literal_items title, true) year) c
  = find (exact_query title year) c.
Proof. apply find_pointwise. intros doc. apply title_query_literal. Qed.

Lemma exact_query_truthy (title : string) (year : Z) (doc : pyval) :
  exact_query title year doc = true ->
  truthy doc = true /\ exists d, doc = PDict d.
Proof.
  unfold exact_query. intros H.
  apply andb_prop in H as [H _]. apply andb_prop in H as [H _].
  destruct doc as [| | | | | |d]; try discriminate.
  destruct d; [discriminate|]. split; [reflexivity|eauto].
Qed.

Lemma main_run (upper : string -> string) (dumps : pyval -> result string)
  (api : request -> option pyval) (c : collection) :
  main upper dumps api c
  = Some match find (exact_query "Fight Club" 1999) c with
         | None => ([], NotInCatalogue)
         | Some doc =>
             match print_document dumps doc with
             | Raise e => ([], Error e)
             | Ok _ => lookup_and_enrich upper dumps api c doc
             end
         end.
Proof.
  unfold main, find_film. rewrite compile_re_escape, find_exact_query.
  destruct (find (exact_query "Fight Club" 1999) c) as [doc|] eqn:E;
    [|reflexivity].
  apply find_some in E as [_ E].
  apply exact_query_truthy in E as [T _]. now rewrite T.
Qed.


(** X19. [main] ends with the message that the film is not in the
    catalogue, having sent no request, exactly when no document is a
    movie of 1999 whose title is Fight Club, case apart; what the API
    would answer plays no role. *)
Theorem main_not_in_catalogue (upper : string -> string)
  (dumps : pyval -> result string)
  (api : request -> option pyval) (c : collection) :
  main upper dumps api c = Some ([], NotInCatalogue)
  <-> forall d, In d c -> exact_query "Fight Club" 1999 d = false.
Proof.
  rewrite main_run.
  destruct (find (exact_query "Fight Club" 1999) c) as [doc|] eqn:E.
  - split.
    + destruct (print_document dumps doc); discriminate.
    + intros H. apply find_some in E as [Hin E].
      rewrite (H doc Hin) in E. discriminate.
  - split; [|reflexivity]. intros _ d Hd.
    apply (find_none _ _ E d Hd).
Qed.


Lemma mongo_eq_scalar_refl (id : pyval) :
  scalar_id id = true -> mongo_eq (Some id) id = true.
Proof.
  destruct id; try discriminate; intros _; simpl.
  - apply Z.eqb_refl.
  - apply String.eqb_refl.
Qed.

Lemma mongo_eq_scalar_sym (a b : pyval) :
  scalar_id a = true ->
  mongo_eq (Some b) a = false -> mongo_eq (Some a) b = false.
Proof.
  destruct a as [| |x| |s| |]; try discriminate; intros _;
    destruct b as [| |y| |t| |]; simpl; intros H;
    try reflexivity; try assumption.
  - now rewrite Z.eqb_sym.
  - now rewrite String.eqb_sym.
Qed.

(** In a catalogue with distinct identifiers, the update by the
    identifier of the first document that satisfies a condition
    rewrites that document, and the rewritten document is again the
    first that satisfies the condition when the update keeps it. *)
Lemma update_one_found (q : pyval -> bool) (upd : pyval -> result pyval)
  (c c' : collection) (doc id : pyval) :
  unique_ids c = true ->
  find q c = Some doc ->
  field "_id" doc = Some id ->
  update_one (fun d => mongo_eq (field "_id" d) id) upd c = Ok c' ->
  (forall d', upd doc = Ok d' -> q d' = true) ->
  exists doc', upd doc = Ok doc' /\ find q c' = Some doc'.
Proof.
  intros Hu Hf Hid Hup Hq. revert c' Hu Hf Hup.
  induction c as [|d c IH]; intros c' Hu Hf Hup; [discriminate|].
  cbn [unique_ids] in Hu.
  destruct (field "_id" d) as [idd|] eqn:Ed; [|discriminate].
  apply andb_prop in Hu as [Hu Hc]. apply andb_prop in Hu as [Hs Hn].
  apply negb_true_iff in Hn.
  cbn [find] in Hf. cbn [update_one] in Hup. rewrite Ed in Hup.
  destruct (q d) eqn:Qd.
  - injection Hf as ->. rewrite Hid in Ed. injection Ed as <-.
    rewrite (mongo_eq_scalar_refl id Hs) in Hup.
    destruct (upd doc) as [d'|e] eqn:Eu; [|discriminate].
    cbn [bind] in Hup. injection Hup as <-.
    exists d'. split; [reflexivity|]. cbn [find].
    now rewrite (Hq d' eq_refl).
  - assert (Hsel : mongo_eq (Some idd) id = false).
    { apply mongo_eq_scalar_sym; [assumption|].
      apply find_some in Hf as [Hin _].
      rewrite <- Hid.
      destruct (mongo_eq (field "_id" doc) idd) eqn:E; [|reflexivity].
      rewrite <- Hn. symmetry. apply existsb_exists. eauto. }
    rewrite Hsel in Hup.
    destruct (update_one _ upd c) as [c''|e] eqn:Eu; [|discriminate].
    cbn [bind] in Hup. injection Hup as <-.
    destruct (IH c'' Hc Hf eq_refl) as [doc' [H1 H2]].
    exists doc'. split; [assumption|].
    cbn [find]. now rewrite Qd.
Qed.

Lemma show_fight_club_row_rating_returns (col_ratings : result collection)
  (doc : pyval) :
  exists v : pyval, show_fight_club_row_rating col_ratings doc = Ok v.
Proof.
  unfold show_fight_club_row_rating.
  destruct col_ratings as [rs|e']; cbn [bind try_except];
    [|eexists; reflexivity].
  destruct (py_get doc "tconst" PNone) as [t|e']; cbn [bind try_except];
    [|eexists; reflexivity].
  destruct (_ && _); cbn [try_except]; [|eexists; reflexivity].
  destruct (find _ rs); cbn [try_except]; eexists; reflexivity.
Qed.

(** The providers shown for a document that has an entry for the
    region are the normalised entry. *)
Lemma show_fight_club_row_providers_entry (doc entry : pyval)
  (region : string) :
  get_path ["tmdb"; "providers"; region] doc = Some entry ->
  show_fight_club_row_providers doc region = providers_to_list entry.
Proof.
  unfold show_fight_club_row_providers. cbn [get_path].
  destruct doc as [| | | | | |d]; try discriminate. cbn [field py_get bind].
  destruct (assoc "tmdb" d) as [t|]; [|discriminate].
  destruct t as [| | | | | |t]; try discriminate. cbn [field py_get bind].
  destruct (assoc "providers" t) as [ps|]; [|discriminate].
  destruct ps as [| | | | | |ps]; try discriminate. cbn [field].
  destruct ps as [|kv ps]; [discriminate|].
  unfold py_or. cbn [truthy py_get bind].
  destruct (assoc region (kv :: ps)); [|discriminate].
  now intros [= ->].
Qed.

(** X21. After a run of [main] that ends with the update, on a
    catalogue with distinct identifiers and for a region name without
    a dot, the summary of [show_fight_club_row] for the same region
    is the summary of the document that [main] found, with its title
    and genres, and its providers are the normalised payload that
    [format_providers_entry] built from the answer of the API to the
    second request: the summary is produced whenever normalising
    that payload returns, and the report raises what the normaliser
    raises otherwise. *)
Theorem main_then_show (upper : string -> string)
  (dumps : pyval -> result string)
  (api : request -> option pyval) (c c' : collection) (tr : list request)
  (col_ratings : result collection) :
  unique_ids c = true ->
  str_split "." TMDB_REGION = [TMDB_REGION] ->
  main upper dumps api c = Some (tr, Updated c') ->
  exists (doc : pyval) (id : Z) (raw entry title year genres rating : pyval),
    find (exact_query "Fight Club" 1999) c = Some doc
    /\ tr = [SearchMovie "Fight Club" 1999; WatchProviders id]
    /\ tmdb_get_providers upper api id TMDB_REGION = Fetched raw
    /\ format_providers_entry raw = Ok entry
    /\ show_fight_club_row c' col_ratings "Fight Club" 1999 TMDB_REGION
       = Some (providers <- providers_to_list entry ;;
               Ok (Some {| row_primaryTitle := title;
                           row_startYear := year;
                           row_genres := genres;
                           row_avgRating := rating;
                           row_streamingProviders := providers |}))
    /\ py_get doc "primaryTitle" PNone = Ok title
    /\ py_get doc "genres" PNone = Ok genres.
Proof.
  intros Hu Hr H. rewrite main_run in H.
  destruct (find (exact_query "Fight Club" 1999) c) as [doc|] eqn:F;
    [|discriminate].
  destruct (print_document dumps doc) as [text|e]; [|discriminate].
  unfold lookup_and_enrich in H. injection H as Htr Hout.
  destruct (tmdb_search_movie api "Fight Club" 1999) as [hit| |e];
    cbn [fst snd] in Htr, Hout; try discriminate.
  destruct (truthy hit); cbn [negb fst snd] in Htr, Hout; try discriminate.
  unfold enrich in Htr, Hout.
  destruct (hit_id hit) as [id|e];
    cbn [fst snd] in Htr, Hout; try discriminate.
  destruct (tmdb_get_providers upper api id TMDB_REGION) as [raw| |e] eqn:G;
    try discriminate.
  destruct (format_providers_entry raw) as [entry|e] eqn:Fm;
    cbn [bind] in Hout; try discriminate.
  destruct (dumps entry) as [text'|e];
    cbn [bind] in Hout; try discriminate.
  destruct (py_getitem doc "_id") as [mid|e] eqn:Gi;
    cbn [bind] in Hout; try discriminate.
  destruct (update_movie_with_tmdb c mid id entry) as [c1|e] eqn:U;
    try discriminate.
  injection Hout as ->.
  pose proof (find_some _ _ F) as [_ Q].
  destruct (exact_query_truthy _ _ _ Q) as [_ [d ->]].
  assert (Hid : field "_id" (PDict d) = Some mid).
  { cbn [py_getitem field] in *.
    destruct (assoc "_id" d); [congruence|discriminate]. }
  unfold update_movie_with_tmdb in U.
  destruct (update_one_found (exact_query "Fight Club" 1999) _ _ _ _ _
              Hu F Hid U) as [doc' [Hd' F']].
  { intros d' Hd'. apply tmdb_update_spec in Hd' as [Hk _].
    unfold exact_query. rewrite !Hk by discriminate. exact Q. }
  cbv beta in Hd'.
  apply tmdb_update_spec in Hd' as [Hk [_ [Hp _]]].
  rewrite providers_path_shape, Hr in Hp.
  apply show_fight_club_row_providers_entry in Hp.
  pose proof (find_some _ _ F') as [_ Q'].
  destruct (exact_query_truthy _ _ _ Q') as [_ [d' ->]].
  destruct (show_fight_club_row_rating_returns col_ratings (PDict d'))
    as [v Hv].
  exists (PDict d), id, raw, entry.
  unfold show_fight_club_row.
  rewrite show_fight_club_row_find_plain by reflexivity.
  unfold find_film. rewrite compile_re_escape, find_exact_query, F'.
  rewrite Hv, Hp. cbn [bind py_get]. rewrite coerce_year_spec.
  assert (E1 : assoc "primaryTitle" d' = assoc "primaryTitle" d)
    by (apply (Hk "primaryTitle"); discriminate).
  assert (E2 : assoc "genres" d' = assoc "genres" d)
    by (apply (Hk "genres"); discriminate).
  rewrite E1, E2.
  do 4 eexists. split; [reflexivity|]. split; [symmetry; exact Htr|].
  split; [exact G|]. split; [exact Fm|].
  split; [|split; reflexivity].
  f_equal. destruct (providers_to_list entry); reflexivity.
Qed.

(** X22. When the answer of the API to the providers request is
    falsy (null, an empty object), or has no results, or has results
    without an entry for the upper-cased region, [tmdb_get_providers]
    returns the empty object without an exception; the payload built
    from it has a null link and three empty lists, and normalises to
    the empty list. *)
Theorem tmdb_get_providers_no_offers (upper : string -> string)
  (api : request -> option pyval) (movie_id : Z) (region : string)
  (body : pyval) :
  api (WatchProviders movie_id) = Some body ->
  no_offers (upper region) body = true ->
  tmdb_get_providers upper api movie_id region = Fetched (PDict [])
  /\ format_providers_entry (PDict [])
     = Ok (PDict [("region", PStr TMDB_REGION); ("link", PNone);
                  ("flatrate", PList []); ("rent", PList []);
                  ("buy", PList [])])
  /\ (entry <- format_providers_entry (PDict []) ;; providers_to_list entry)
     = Ok (PList []).
Proof.
  intros Ha Hn. split; [|split; reflexivity].
  unfold tmdb_get_providers. rewrite Ha. unfold no_offers in Hn.
  unfold py_or. destruct (truthy body) eqn:T; [|reflexivity].
  cbn [negb orb] in Hn.
  destruct body as [| | | | | |b]; try discriminate. cbn [py_get bind].
  destruct (assoc "results" b) as [rs|]; [|reflexivity].
  destruct rs as [| | | | | |rs]; try discriminate. cbn [py_get fetched_of].
  destruct (assoc (upper region) rs); [discriminate|reflexivity].
Qed.

End Program.

Arguments PNone {float}.
Arguments PBool {float} b.
Arguments PInt {float} z.
Arguments PFloat {float} f.
Arguments PStr {float} s.
Arguments PList {float} l.
Arguments PDict {float} d.
Arguments Plain {float foreign} v.
Arguments Foreign {float foreign} o.

(* ================================================================= *)
(** ** The claims on concrete inputs

    The region is US; the Python values hold no double; the limit of
    digits is 4300, its default; the text of a container is not
    looked at; the foreign object is pandas' NA; a rating is a
    rational. *)

Local Notation py := (pyval no_float).
Local Notation no_repr := (fun _ : pyval no_float => Ok EmptyString).
Local Notation format_us :=
  (format_providers_entry no_float no_float_bool "US").
Local Notation update_movie_us :=
  (update_movie_with_tmdb no_float no_float_eq_int no_float_eqb "US").
Local Notation update_by_id_us :=
  (update_by_tmdb_id no_float no_float_eq_int no_float_eqb "US").
Local Notation normalise :=
  (providers_to_list no_float no_float_bool no_float_str no_repr 4300%nat).
Local Notation stored_us := (stored_offers_example no_float "US").
Local Notation coerce :=
  (coerce_year no_float no_float_int 4300%nat na na_eq na_int).
Local Notation to_int :=
  (to_int_or_none no_float no_float_int 4300%nat na na_eq na_int).
Local Notation show_us :=
  (show_fight_club_row no_float no_float_bool no_float_str no_float_int
     no_float_eq_int no_float_eqb no_repr 4300%nat na na_eq na_int).

(** C1, counterexample. For an answer of the API that lists Netflix
    before Apple TV, and Netflix twice, the set written to the
    catalogue has a subscription list that is neither ascending nor
    free of repetitions. *)
Lemma persisted_offer_set_not_canonical :
  exists (entry : py) (c' : collection no_float),
    format_us (api_offers_example no_float) = Ok entry
    /\ update_movie_us (catalogue_example no_float) (PInt 1) 550
                       entry = Ok c'
    /\ (exists d : py,
          In d c' /\ get_path no_float (providers_path "US") d
                     = Some entry)
    /\ ~ canonical_offer_set no_float entry.
Proof.
  eexists. eexists. split; [reflexivity|]. split; [reflexivity|]. split.
  - eexists. split; [left; reflexivity | reflexivity].
  - intros H. destruct (H "flatrate") as [ns [E S]]; [simpl; tauto|].
    simpl in E. injection E as E.
    destruct ns as [|a [|b ns]]; try discriminate.
    simpl in E. injection E as <- <- _.
    inversion S as [|? ? _ F]; subst.
    inversion F as [|? ? L _]; subst. discriminate L.
Qed.

(** The same answer of the API, written for Fight Club and then
    refreshed by its external id; read back, the names are Apple TV
    and Netflix. *)
Lemma offer_set_persisted_in_api_order_witness :
  let c1 := match update_movie_us (catalogue_example no_float)
                    (PInt 1) 550 stored_us with
            | Ok c => c
            | Raise _ => []
            end in
  let c2 := match update_by_id_us c1 550 stored_us with
            | Ok c => c
            | Raise _ => []
            end in
  format_us (api_offers_example no_float) = Ok stored_us
  /\ update_movie_us (catalogue_example no_float) (PInt 1) 550
                     stored_us = Ok c1
  /\ update_by_id_us c1 550 stored_us = Ok c2
  /\ ((forall kind : string,
         In kind offer_kinds ->
         field no_float kind stored_us
         = Some (PList
                   (flat_map (listed_name no_float no_float_bool)
                      (entries_of no_float (api_offers_example no_float)
                         kind))))
      /\ Forall2 (fun d d' => d' = d
                    \/ get_path no_float (providers_path "US") d'
                       = Some stored_us)
                 (catalogue_example no_float) c1
      /\ Forall2 (fun d d' => d' = d
                    \/ get_path no_float (providers_path "US") d'
                       = Some stored_us)
                 c1 c2
      /\ (forall out : py,
            normalise stored_us = Ok out ->
            exists ns : list string,
              out = PList (map PStr ns) /\ strictly_ascending ns)
      /\ exists ns : list string,
           normalise stored_us = Ok (PList (map PStr ns))
           /\ strictly_ascending ns).
Proof.
  intros c1 c2.
  split; [reflexivity|]. split; [reflexivity|]. split; [reflexivity|].
  destruct (offer_set_persisted_in_api_order no_float no_float_bool
              no_float_str no_float_eq_int no_float_eqb no_repr 4300%nat "US"
              (api_offers_example no_float) stored_us
              (catalogue_example no_float) c1 c2 (PInt 1) 550
              eq_refl eq_refl eq_refl) as [A [B [C [D E]]]].
  split; [exact A|]. split; [exact B|]. split; [exact C|].
  split; [exact D|]. apply E.
  intros kind x Hk Hx.
  repeat (destruct Hk as [<-|Hk];
          [vm_compute in Hx;
           repeat (destruct Hx as [<-|Hx]; [reflexivity|]); destruct Hx|]).
  destruct Hk.
Defined.

Lemma Q_leb_total (x y : Q) : Q_leb x y = true \/ Q_leb y x = true.
Proof.
  unfold Q_leb. rewrite !Qle_bool_iff.
  destruct (Qlt_le_dec x y) as [H|H]; [left; now apply Qlt_le_weak | now right].
Qed.

Lemma Q_leb_trans (x y z : Q) :
  Q_leb x y = true -> Q_leb y z = true -> Q_leb x z = true.
Proof. unfold Q_leb. rewrite !Qle_bool_iff. apply Qle_trans. Qed.

Local Notation report_of :=
  (avg_rating_by_genre_last5 no_float no_float_int 4300%nat na na_eq na_int
     Q Q_leb Q_mean Q_round2).
Local Notation title tc g :=
  (Build_title_doc no_float (Val tc) (PInt 2024) (Val g)).
Local Notation rated tc x := (Build_rating_doc Q (Val tc) (Val x)).
Local Notation join_of :=
  (merge_left no_float Q).

(** The example of the specification: Drama and Thriller at 8.0,
    Drama at 6.0; a title without a rating record changes nothing. *)
Lemma report_example :
  report_of [title "tt1" "Drama,Thriller"; title "tt2" "Drama";
             title "tt3" "Drama, Comedy"]
            (Ok [rated "tt1" 8%Q; rated "tt2" 6%Q])
  = Ok (Table Q [("Thriller", 8%Q); ("Drama", 7%Q)]).
Proof. vm_compute. reflexivity. Qed.

(** Tags are trimmed, empty pieces are dropped, a tag written twice
    stays twice, and the sentinel is no genre. *)
Lemma genre_explosion_example :
  genre_tags " Drama ,,Thriller,Drama, " = ["Drama"; "Thriller"; "Drama"]
  /\ genre_tags "\N" = []
  /\ genre_tags EmptyString = [].
Proof. repeat split; reflexivity. Qed.

(** C2, counterexample. A title whose genre string names Drama twice
    has one genre in the set of its tags and gives two rows to the
    aggregation. *)
Lemma repeated_genre_gives_two_rows :
  title_tags no_float (title "tt1" "Drama,Drama") = ["Drama"; "Drama"]
  /\ fromkeys (title_tags no_float (title "tt1" "Drama,Drama")) = ["Drama"]
  /\ genre_rows no_float Q
       (join_title no_float Q (title "tt1" "Drama,Drama", PInt 2024)
          [rated "tt1" 8%Q])
     = [("Drama", Some 8%Q); ("Drama", Some 8%Q)]
  /\ List.length
       (genre_rows no_float Q
          (join_title no_float Q (title "tt1" "Drama,Drama", PInt 2024)
             [rated "tt1" 8%Q]))
     <> List.length
          (fromkeys (title_tags no_float (title "tt1" "Drama,Drama"))).
Proof. repeat split; try reflexivity. discriminate. Qed.

(** A title with two tags and one rating record among three: two
    rows, each with its rating. *)
Lemma genre_explosion_witness :
  (List.length
     (title_records no_float Q (title "tt1" "Drama, Thriller")
        [rated "tt2" 6%Q; rated "tt1" 8%Q; rated "tt3" 5%Q]) <= 1)%nat
  /\ title_tags no_float (title "tt1" "Drama, Thriller")
     = ["Drama"; "Thriller"]
  /\ exists r : option Q,
       r = Some 8%Q
       /\ genre_rows no_float Q
            (join_title no_float Q (title "tt1" "Drama, Thriller", PInt 2024)
               [rated "tt2" 6%Q; rated "tt1" 8%Q; rated "tt3" 5%Q])
          = map (fun g => (g, r)) ["Drama"; "Thriller"]
       /\ List.length
            (genre_rows no_float Q
               (join_title no_float Q
                  (title "tt1" "Drama, Thriller", PInt 2024)
                  [rated "tt2" 6%Q; rated "tt1" 8%Q; rated "tt3" 5%Q]))
          = 2%nat.
Proof.
  assert (H : (List.length
                 (title_records no_float Q (title "tt1" "Drama, Thriller")
                    [rated "tt2" 6%Q; rated "tt1" 8%Q; rated "tt3" 5%Q])
               <= 1)%nat) by (vm_compute; lia).
  split; [exact H|]. split; [reflexivity|].
  destruct (genre_explosion no_float Q) as [_ [_ [_ [E _]]]].
  exact (E (title "tt1" "Drama, Thriller") (PInt 2024)
           [rated "tt2" 6%Q; rated "tt1" 8%Q; rated "tt3" 5%Q] H).
Defined.

(** The rows of three titles of the example, title by title. *)
Lemma genre_explosion_titles_example :
  genre_rows no_float Q
    (join_title no_float Q (title "tt1" "Drama, Thriller", PInt 2024)
       [rated "tt2" 6%Q; rated "tt1" 8%Q])
  = [("Drama", Some 8%Q); ("Thriller", Some 8%Q)]
  /\ genre_rows no_float Q
       (join_title no_float Q (title "tt3" "Comedy", PInt 2024)
          [rated "tt2" 6%Q; rated "tt1" 8%Q])
     = [("Comedy", None)]
  /\ genre_rows no_float Q
       (join_title no_float Q (title "tt2" "\N", PInt 2024)
          [rated "tt2" 6%Q; rated "tt1" 8%Q])
     = [].
Proof. repeat split; reflexivity. Qed.

(** Means 7.004 for B and 7.001 for A: B comes first, and both are
    shown as 7.00. *)
Lemma report_sorted_then_rounded_witness :
  report_of [title "tt1" "B"; title "tt2" "A"]
            (Ok [rated "tt1" (7004 # 1000)%Q; rated "tt2" (7001 # 1000)%Q])
  = Ok (Table Q [("B", 7%Q); ("A", 7%Q)])
  /\ exists (df_t : list (title_doc no_float * py))
            (rs : list (rating_doc Q))
            (df : list (joined no_float Q)) (out : list (string * Q)),
       coerce_years no_float no_float_int 4300%nat na na_eq na_int
         [title "tt1" "B"; title "tt2" "A"] = Ok df_t
       /\ Ok [rated "tt1" (7004 # 1000)%Q; rated "tt2" (7001 # 1000)%Q]
          = Ok rs
       /\ join_of df_t rs = Ok df
       /\ out = sort_values Q Q_leb
                  (groupby_mean Q Q_mean
                     (rated_rows Q (genre_rows no_float Q df)))
       /\ Permutation out
            (groupby_mean Q Q_mean (rated_rows Q (genre_rows no_float Q df)))
       /\ StronglySorted (row_before Q Q_leb) out
       /\ [("B", 7%Q); ("A", 7%Q)]
          = map (fun r => (fst r, Q_round2 (snd r))) out.
Proof.
  split; [vm_compute; reflexivity|].
  apply (report_sorted_then_rounded no_float no_float_int 4300%nat
           na na_eq na_int
           Q Q_leb Q_mean Q_round2 Q_leb_total Q_leb_trans
           [title "tt1" "B"; title "tt2" "A"]
           (Ok [rated "tt1" (7004 # 1000)%Q; rated "tt2" (7001 # 1000)%Q])).
  vm_compute. reflexivity.
Defined.


(** The scenario of the specification for region US. *)
Lemma providers_to_list_example :
  normalise
    (PDict [("flatrate", PList [PDict [("provider_name", PStr "Netflix")]]);
            ("rent", PList [PStr "Apple TV"]);
            ("buy", PList [])])
  = Ok (PList [PStr "Apple TV"; PStr "Netflix"]).
Proof. reflexivity. Qed.

(** C5, counterexample. On a list with one entry whose name is the
    integer 10 to the power 4300, which has 4301 digits,
    [providers_to_list] raises [ValueError]: [str] refuses the
    integer. *)
Lemma providers_to_list_raises_on_long_integer :
  normalise (PList [PDict [("provider_name", PInt (10 ^ 4300))]])
  = Raise ValueError
  /\ ~ exists l : list py,
         normalise (PList [PDict [("provider_name", PInt (10 ^ 4300))]])
         = Ok (PList l).
Proof.
  assert (H : normalise (PList [PDict [("provider_name", PInt (10 ^ 4300))]])
              = Raise ValueError) by (vm_compute; reflexivity).
  split; [exact H|]. intros [l Hl]. rewrite H in Hl. discriminate.
Qed.

(** Names that are strings, a boolean and a short integer: [str]
    takes each of them, and the function returns. *)
Lemma providers_to_list_total_witness :
  (forall x name : py,
      In x [PDict [("provider_name", PStr "Netflix")];
            PDict [("name", PBool true)];
            PDict [("provider_name", PInt 8)]; PInt 3; PNone] ->
      converted no_float no_float_bool x = Some name ->
      convertible no_float no_float_str no_repr 4300%nat name = true)
  /\ exists l : list py,
       normalise
         (PList [PDict [("provider_name", PStr "Netflix")];
                 PDict [("name", PBool true)];
                 PDict [("provider_name", PInt 8)]; PInt 3; PNone])
       = Ok (PList l).
Proof.
  assert (H : forall x name : py,
             In x [PDict [("provider_name", PStr "Netflix")];
                   PDict [("name", PBool true)];
                   PDict [("provider_name", PInt 8)]; PInt 3; PNone] ->
             converted no_float no_float_bool x = Some name ->
             convertible no_float no_float_str no_repr 4300%nat name = true).
  { intros x name Hx.
    repeat (destruct Hx as [<-|Hx];
            [vm_compute; intros E;
             (discriminate E || (injection E as <-; reflexivity))|]).
    destruct Hx. }
  split; [exact H|].
  apply (proj1 (providers_to_list_total no_float no_float_bool no_float_str
                  no_repr 4300%nat
                  (PList [PDict [("provider_name", PStr "Netflix")];
                          PDict [("name", PBool true)];
                          PDict [("provider_name", PInt 8)]; PInt 3; PNone]))).
  exact H.
Defined.

(** An integer name of 4300 digits is taken, and so is any name with
    the limit turned off. *)
Lemma providers_to_list_long_integer_example :
  (exists l : list py,
      normalise (PList [PDict [("provider_name", PInt (10 ^ 4299))]])
      = Ok (PList l))
  /\ exists l : list py,
       providers_to_list no_float no_float_bool no_float_str no_repr 0%nat
         (PList [PDict [("provider_name", PInt (10 ^ 4300))]])
       = Ok (PList l).
Proof. split; eexists; vm_compute; reflexivity. Qed.

(** Names given as strings and as objects, with white space around
    them, an empty one and one that comes twice. *)
Lemma providers_to_list_sorted_unique_witness :
  normalise
    (PDict [("flatrate", PList [PDict [("provider_name", PStr "Netflix")];
                                PStr " Max ";
                                PDict [("name", PStr "Netflix ")]]);
            ("rent", PList [PStr "Apple TV"; PStr "  "; PStr "apple tv"])])
  = Ok (PList [PStr "Apple TV"; PStr "Max"; PStr "Netflix"; PStr "apple tv"])
  /\ exists pooled names : list string,
       pooled_names no_float no_float_bool no_float_str no_repr 4300%nat
         (PDict [("flatrate",
                  PList [PDict [("provider_name", PStr "Netflix")];
                         PStr " Max ";
                         PDict [("name", PStr "Netflix ")]]);
                 ("rent",
                  PList [PStr "Apple TV"; PStr "  "; PStr "apple tv"])])
       = Ok pooled
       /\ (PList [PStr "Apple TV"; PStr "Max"; PStr "Netflix";
                  PStr "apple tv"] : py)
          = PList (map PStr names)
       /\ strictly_ascending names
       /\ NoDup names
       /\ (forall n, In n names <-> In n pooled /\ n <> EmptyString)
       /\ Forall (fun n => n <> EmptyString /\ blank n = false) names.
Proof.
  split; [reflexivity|].
  apply (providers_to_list_sorted_unique no_float no_float_bool no_float_str
           no_repr 4300%nat). reflexivity.
Defined.

(** C8 and C10 on pandas' NA: the membership test raises at the
    comparison with the empty string; [coerce_year] lets the
    exception through and [to_int_or_none] returns absence. *)
Lemma coerce_year_cases_witness :
  py_in no_float na na_eq (Foreign NA) sentinels = Raise TypeError
  /\ coerce (Foreign NA) = Raise TypeError.
Proof.
  split; [reflexivity|].
  destruct (coerce_year_cases no_float no_float_int 4300%nat na na_eq na_int)
    as [_ [_ [_ [_ [_ [_ [H _]]]]]]].
  apply H. reflexivity.
Defined.

Lemma coerce_year_to_int_or_none_witness :
  py_in no_float na na_eq (Foreign NA) sentinels = Raise TypeError
  /\ coerce (Foreign NA) = Raise TypeError
  /\ to_int (Foreign NA) = Ok PNone
  /\ coerce (Foreign NA) <> to_int (Foreign NA).
Proof.
  split; [reflexivity|].
  destruct (coerce_year_to_int_or_none no_float no_float_int 4300%nat
              na na_eq na_int) as [_ [_ H]].
  destruct (H (Foreign NA) TypeError eq_refl) as [H1 H2].
  split; [exact H1|]. split; [exact H2|]. rewrite H1, H2. discriminate.
Defined.

(** White space around the digits: a no-break space and a next-line
    character are taken by [int], the separator 28 is not. *)
Lemma coerce_year_white_space_example :
  coerce (Plain (PStr (String "160" ("42" ++ String "133" EmptyString))))
  = Ok (PInt 42)
  /\ coerce (Plain (PStr (String "028" ("42" ++ String "160" EmptyString))))
     = Ok PNone
  /\ coerce (Plain (PStr (String "028" "42"))) = Ok PNone
  /\ coerce (Plain (PStr " 1_999 ")) = Ok (PInt 1999).
Proof. repeat split; reflexivity. Qed.

(** The set written for Fight Club, read back by the report. *)
Lemma stored_offers_read_back :
  match update_movie_us (catalogue_example no_float) (PInt 1) 550
          stored_us with
  | Ok c => show_us c (Raise KeyError) "Fight Club" 1999 "US"
  | Raise _ => None
  end
  = Some (Ok (Some
       {| row_primaryTitle := PStr "Fight Club";
          row_startYear := PInt 1999;
          row_genres := PNone;
          row_avgRating := PNone;
          row_streamingProviders :=
            PList [PStr "Apple TV"; PStr "Netflix"] |})).
Proof. reflexivity. Qed.

(* ================================================================= *)
(** ** Further properties on concrete inputs *)

(** A flat list with a repeated element and its reversal. *)
Lemma providers_to_list_order_independent_witness :
  (forall x : py,
      In x [PStr "Netflix"; PStr "Apple TV"; PStr "Netflix"]
      <-> In x [PStr "Apple TV"; PStr "Netflix"])
  /\ normalise (PList [PStr "Netflix"; PStr "Apple TV"; PStr "Netflix"])
     = Ok (PList [PStr "Apple TV"; PStr "Netflix"])
  /\ normalise (PList [PStr "Apple TV"; PStr "Netflix"])
     = Ok (PList [PStr "Apple TV"; PStr "Netflix"]).
Proof.
  assert (H : forall x : py,
             In x [PStr "Netflix"; PStr "Apple TV"; PStr "Netflix"]
             <-> In x [PStr "Apple TV"; PStr "Netflix"])
    by (intros x; simpl; tauto).
  split; [exact H|]. split; [reflexivity|].
  apply (providers_to_list_order_independent no_float no_float_bool
           no_float_str no_repr 4300%nat _ _ H).
  reflexivity.
Defined.

(** The answer of the API used above is in the documented shape. *)
Lemma stored_offers_normalise_as_raw_witness :
  well_formed_offers no_float (api_offers_example no_float) = true
  /\ exists entry : py,
       format_us (api_offers_example no_float) = Ok entry
       /\ normalise entry = normalise (api_offers_example no_float).
Proof.
  split; [reflexivity|].
  apply (stored_offers_normalise_as_raw no_float no_float_bool no_float_str
           no_repr 4300%nat "US" (api_offers_example no_float)).
  reflexivity.
Defined.

Local Notation tagged_doc :=
  (PDict [("_id", PInt 1); ("titleType", PStr "movie");
          ("primaryTitle", PStr "Fight Club"); ("startYear", PInt 1999);
          ("tmdb",
           PDict [("id", PInt 550);
                  ("providers", PDict [("AR", PList [PStr "Max"])])])] : py).

(** A catalogue of two documents, the second one with providers for
    another region already. *)
Lemma update_movie_with_tmdb_scope_witness :
  let c := [movie_doc no_float 2 "Se7en" 1995; tagged_doc] in
  let c' := [movie_doc no_float 2 "Se7en" 1995;
             PDict [("_id", PInt 1); ("titleType", PStr "movie");
                    ("primaryTitle", PStr "Fight Club");
                    ("startYear", PInt 1999);
                    ("tmdb",
                     PDict [("id", PInt 550);
                            ("providers",
                             PDict [("AR", PList [PStr "Max"]);
                                    ("US", stored_us)])])]] in
  update_movie_us c (PInt 1) 550 stored_us = Ok c'
  /\ ((c' = c
       /\ forall d, In d c ->
                    mongo_eq no_float no_float_eq_int no_float_eqb
                      (field no_float "_id" d) (PInt 1) = false)
      \/ exists (pre : collection no_float) (d d' : py)
                (post : collection no_float),
           c = pre ++ d :: post /\ c' = pre ++ d' :: post
           /\ (forall x, In x pre ->
                         mongo_eq no_float no_float_eq_int no_float_eqb
                           (field no_float "_id" x) (PInt 1) = false)
           /\ mongo_eq no_float no_float_eq_int no_float_eqb
                (field no_float "_id" d) (PInt 1) = true
           /\ (forall k, k <> "tmdb" ->
                         field no_float k d' = field no_float k d)
           /\ get_path no_float ["tmdb"; "id"] d' = Some (PInt 550)
           /\ get_path no_float (providers_path "US") d' = Some stored_us).
Proof.
  intros c c'. split; [reflexivity|].
  apply (update_movie_with_tmdb_scope no_float no_float_eq_int no_float_eqb
           "US" c c' (PInt 1) 550 stored_us).
  reflexivity.
Defined.

Lemma writers_keep_other_regions_witness :
  let c := [movie_doc no_float 2 "Se7en" 1995; tagged_doc] in
  let c1 := match update_movie_us c (PInt 1) 550 stored_us with
            | Ok x => x
            | Raise _ => []
            end in
  let c2 := match update_by_id_us c 550 stored_us with
            | Ok x => x
            | Raise _ => []
            end in
  update_movie_us c (PInt 1) 550 stored_us = Ok c1
  /\ update_by_id_us c 550 stored_us = Ok c2
  /\ "AR" <> hd EmptyString (str_split "." "US")
  /\ Forall2 (fun d d' => get_path no_float ["tmdb"; "providers"; "AR"] d'
                          = get_path no_float ["tmdb"; "providers"; "AR"] d)
             c c1
  /\ Forall2 (fun d d' => get_path no_float ["tmdb"; "providers"; "AR"] d'
                          = get_path no_float ["tmdb"; "providers"; "AR"] d)
             c c2.
Proof.
  intros c c1 c2.
  assert (Hr : "AR" <> hd EmptyString (str_split "." "US")) by discriminate.
  split; [reflexivity|]. split; [reflexivity|]. split; [exact Hr|].
  exact (writers_keep_other_regions no_float no_float_eq_int no_float_eqb
           "US" c c1 c2 (PInt 1) 550 stored_us eq_refl eq_refl "AR" [] Hr).
Defined.

Lemma update_movie_with_tmdb_idempotent_witness :
  let c := [movie_doc no_float 2 "Se7en" 1995; tagged_doc] in
  let c' := match update_movie_us c (PInt 1) 550 stored_us with
            | Ok x => x
            | Raise _ => []
            end in
  update_movie_us c (PInt 1) 550 stored_us = Ok c'
  /\ update_movie_us c' (PInt 1) 550 stored_us = Ok c'.
Proof.
  intros c c'. split; [reflexivity|].
  apply (update_movie_with_tmdb_idempotent no_float no_float_eq_int
           no_float_eqb "US" c c' (PInt 1) 550 stored_us).
  reflexivity.
Defined.

Lemma update_by_tmdb_id_reaches_written_witness :
  let c := catalogue_example no_float in
  let c1 := match update_movie_us c (PInt 1) 550 stored_us with
            | Ok x => x
            | Raise _ => []
            end in
  let c2 := match update_by_id_us c1 550 (PDict []) with
            | Ok x => x
            | Raise _ => []
            end in
  update_movie_us c (PInt 1) 550 stored_us = Ok c1
  /\ update_by_id_us c1 550 (PDict []) = Ok c2
  /\ List.length c2 = List.length c
  /\ exists d2 : py,
       In d2 c2
       /\ get_path no_float ["tmdb"; "id"] d2 = Some (PInt 550)
       /\ get_path no_float (providers_path "US") d2 = Some (PDict []).
Proof.
  intros c c1 c2. split; [reflexivity|]. split; [reflexivity|].
  apply (update_by_tmdb_id_reaches_written no_float no_float_eq_int
           no_float_eqb "US" c c1 c2 (PInt 1) 550 stored_us (PDict []));
    try reflexivity.
  exists (movie_doc no_float 1 "Fight Club" 1999).
  split; [now left | reflexivity].
Defined.

(** The default title of both scripts has no special character. *)
Lemma show_fight_club_row_find_exact_on_plain_witness :
  plain_title "Fight Club" = true
  /\ show_fight_club_row_find no_float no_float_eq_int no_float_eqb
       (catalogue_example no_float) "Fight Club" 1999
     = Some (find (exact_query no_float no_float_eq_int no_float_eqb
                     "Fight Club" 1999)
                  (catalogue_example no_float))
  /\ show_fight_club_row_find no_float no_float_eq_int no_float_eqb
       (catalogue_example no_float) "Fight Club" 1999
     = find_film no_float no_float_eq_int no_float_eqb
         (catalogue_example no_float) "Fight Club" 1999.
Proof.
  split; [reflexivity|].
  apply (show_fight_club_row_find_exact_on_plain no_float no_float_eq_int
           no_float_eqb (catalogue_example no_float) "Fight Club" 1999).
  reflexivity.
Defined.

Lemma genre_tags_of_joined_witness :
  "Drama, Crime" <> "\N" /\ " Thriller " <> "\N"
  /\ genre_tags ("Drama, Crime" ++ "," ++ " Thriller ")
     = genre_tags "Drama, Crime" ++ genre_tags " Thriller ".
Proof.
  assert (Ha : "Drama, Crime" <> "\N") by discriminate.
  assert (Hb : " Thriller " <> "\N") by discriminate.
  split; [exact Ha|]. split; [exact Hb|].
  exact (genre_tags_of_joined "Drama, Crime" " Thriller " Ha Hb).
Defined.

Lemma genre_tags_of_concat_witness :
  Forall (fun g => clean_tag g = true /\ g <> "\N")
         ["Drama"; "Sci-Fi"; "Film Noir"]
  /\ genre_tags (String.concat "," ["Drama"; "Sci-Fi"; "Film Noir"])
     = ["Drama"; "Sci-Fi"; "Film Noir"].
Proof.
  assert (H : Forall (fun g => clean_tag g = true /\ g <> "\N")
                     ["Drama"; "Sci-Fi"; "Film Noir"])
    by (repeat constructor; discriminate).
  split; [exact H|].
  exact (genre_tags_of_concat ["Drama"; "Sci-Fi"; "Film Noir"] H).
Defined.

(** An empty rating collection: the join raises and the report says
    that there are no ratings. *)
Lemma avg_rating_by_genre_last5_without_ratings_witness :
  [title "tt1" "Drama"] <> []
  /\ has_col (t_genres no_float) [title "tt1" "Drama"] = true
  /\ joinable no_float Q [title "tt1" "Drama"] (Ok []) = false
  /\ report_of [title "tt1" "Drama"] (Ok []) = Ok (NoRatings Q).
Proof.
  assert (Hn : [title "tt1" "Drama"] <> []) by discriminate.
  split; [exact Hn|]. split; [reflexivity|]. split; [reflexivity|].
  exact (avg_rating_by_genre_last5_without_ratings no_float no_float_int
           4300%nat na na_eq na_int Q Q_leb Q_mean Q_round2
           [title "tt1" "Drama"] (Ok []) Hn eq_refl eq_refl).
Defined.

(** Drama has two rated titles and Thriller one; Comedy is the genre
    of a title without a rating and has no row. *)
Lemma report_genres_witness :
  report_of [title "tt1" "Drama,Thriller"; title "tt2" "Drama";
             title "tt3" "Comedy"]
            (Ok [rated "tt1" 8%Q; rated "tt2" 6%Q])
  = Ok (Table Q [("Thriller", 8%Q); ("Drama", 7%Q)])
  /\ [("Thriller", 8%Q); ("Drama", 7%Q)] <> []
  /\ NoDup (map fst [("Thriller", 8%Q); ("Drama", 7%Q)]).
Proof.
  assert (H : report_of [title "tt1" "Drama,Thriller"; title "tt2" "Drama";
                         title "tt3" "Comedy"]
                        (Ok [rated "tt1" 8%Q; rated "tt2" 6%Q])
              = Ok (Table Q [("Thriller", 8%Q); ("Drama", 7%Q)]))
    by (vm_compute; reflexivity).
  split; [exact H|].
  destruct (report_genres no_float no_float_int 4300%nat na na_eq na_int
              Q Q_leb Q_mean Q_round2 _ _ _ H) as [H1 [H2 _]].
  split; assumption.
Defined.

(* ================================================================= *)
(** ** A run of [main] on concrete inputs *)

(** An API that answers the search with one hit and the providers
    request with the offers of two regions; the region is given in
    upper case already, and the encoder takes every value. *)
Local Notation tmdb_api :=
  (fun r : request =>
     match r with
     | SearchMovie _ _ =>
         Some (PDict [("page", PInt 1);
                      ("results",
                       PList [PDict [("id", PInt 550);
                                     ("title", PStr "Fight Club")]])])
     | WatchProviders _ =>
         Some (PDict [("id", PInt 550);
                      ("results",
                       PDict [("AR", PDict [("flatrate", PList [])]);
                              ("US", api_offers_example no_float)])])
     end).

Local Notation dumps_any := (fun _ : pyval no_float => Ok EmptyString).

Local Notation main_us :=
  (main no_float no_float_bool no_float_str no_float_int no_float_eq_int
     no_float_eqb no_repr 4300%nat "US" na na_eq na_int (fun s => s)
     dumps_any).

(** A catalogue of two movies: the run writes the second one, and the
    summary lists its two providers. *)
Lemma main_then_show_witness :
  let c := [movie_doc no_float 2 "Se7en" 1995;
            movie_doc no_float 1 "Fight Club" 1999] in
  let c' := [movie_doc no_float 2 "Se7en" 1995;
             PDict [("_id", PInt 1); ("titleType", PStr "movie");
                    ("primaryTitle", PStr "Fight Club");
                    ("startYear", PInt 1999);
                    ("tmdb",
                     PDict [("id", PInt 550);
                            ("providers", PDict [("US", stored_us)])])]] in
  let tr := [SearchMovie "Fight Club" 1999; WatchProviders 550] in
  unique_ids no_float no_float_eq_int no_float_eqb c = true
  /\ str_split "." "US" = ["US"]
  /\ main_us tmdb_api c = Some (tr, Updated no_float c')
  /\ show_us c' (Ok []) "Fight Club" 1999 "US"
     = Some (Ok (Some
          {| row_primaryTitle := PStr "Fight Club";
             row_startYear := PInt 1999;
             row_genres := PNone;
             row_avgRating := PNone;
             row_streamingProviders :=
               PList [PStr "Apple TV"; PStr "Netflix"] |}))
  /\ exists (doc : py) (id : Z) (raw entry title year genres rating : py),
       find (exact_query no_float no_float_eq_int no_float_eqb
               "Fight Club" 1999) c = Some doc
       /\ tr = [SearchMovie "Fight Club" 1999; WatchProviders id]
       /\ tmdb_get_providers no_float no_float_bool (fun s => s) tmdb_api
            id "US" = Fetched raw
       /\ format_us raw = Ok entry
       /\ show_us c' (Ok []) "Fight Club" 1999 "US"
          = Some (providers <- normalise entry ;;
                  Ok (Some {| row_primaryTitle := title;
                              row_startYear := year;
                              row_genres := genres;
                              row_avgRating := rating;
                              row_streamingProviders := providers |}))
       /\ py_get no_float doc "primaryTitle" PNone = Ok title
       /\ py_get no_float doc "genres" PNone = Ok genres.
Proof.
  intros c c' tr.
  assert (H1 : unique_ids no_float no_float_eq_int no_float_eqb c = true)
    by reflexivity.
  assert (H2 : str_split "." "US" = ["US"]) by reflexivity.
  assert (H3 : main_us tmdb_api c = Some (tr, Updated no_float c'))
    by (vm_compute; reflexivity).
  split; [exact H1|]. split; [exact H2|]. split; [exact H3|].
  split; [vm_compute; reflexivity|].
  exact (main_then_show no_float no_float_bool no_float_str no_float_int
           no_float_eq_int no_float_eqb no_repr 4300%nat "US"
           na na_eq na_int (fun s => s) dumps_any tmdb_api c c' tr (Ok [])
           H1 H2 H3).
Defined.

(** An identifier that [str] refuses: the run ends before any
    request. *)
Lemma main_requests_example :
  main_us tmdb_api
    [PDict [("_id", PInt (10 ^ 4300)); ("titleType", PStr "movie");
            ("primaryTitle", PStr "Fight Club"); ("startYear", PInt 1999)]]
  = Some ([], Error no_float ValueError).
Proof. vm_compute. reflexivity. Qed.

(** A null answer to the providers request. *)
Lemma tmdb_get_providers_no_offers_witness :
  no_offers no_float no_float_bool "US" PNone = true
  /\ tmdb_get_providers no_float no_float_bool (fun s => s)
       (fun _ => Some PNone) 550 "US" = Fetched (PDict [])
  /\ format_us (PDict [])
     = Ok (PDict [("region", PStr "US"); ("link", PNone);
                  ("flatrate", PList []); ("rent", PList []);
                  ("buy", PList [])])
  /\ (entry <- format_us (PDict []) ;; normalise entry) = Ok (PList []).
Proof.
  split; [reflexivity|].
  exact (tmdb_get_providers_no_offers no_float no_float_bool no_float_str
           no_repr 4300%nat "US" (fun s => s) (fun _ => Some PNone)
           550 "US" PNone eq_refl eq_refl).
Defined.

(** Letters of Latin-1 compare without case as those of ASCII do: the
    exact lookup finds CAFE written with a capital E acute for the
    title in small letters. *)
Lemma find_film_latin1_example :
  find_film no_float no_float_eq_int no_float_eqb
    [movie_doc no_float 1 ("CAF" ++ String "201" EmptyString) 2001]
    ("caf" ++ String "233" EmptyString) 2001
  = Some (Some (movie_doc no_float 1 ("CAF" ++ String "201" EmptyString) 2001))
  /\ exact_query no_float no_float_eq_int no_float_eqb
       ("caf" ++ String "233" EmptyString) 2001
       (movie_doc no_float 1 ("CAF" ++ String "201" EmptyString) 2001)
     = true.
Proof. split; reflexivity. Qed.
